(** * Table selection store and download file names of horilla-crm

    A shallow embedding of the state-bearing part of
    [static/assets/js/htmx/htmx-download.js]:

    - the table selection store ([tableData], [initializeRecordIds],
      [selectAll], [clearSelections], [selectedRecordIds], the change
      handler of the row checkboxes and the [htmx:afterSwap] handler);
    - the file-name extraction of the [download] htmx extension;
    - the callers of the store ([exportSelected], [doBulkDeleteRequest],
      the loop of the document-ready handler over the table containers)
      and what [updateCheckboxStates], [updateActionButtonsVisibility]
      and [reorderTableRows] show of it;
    - the part the [download] extension has in the swap
      ([htmx:beforeRequest], [htmx:beforeSwap], [transformResponse]);
    - the local-storage part of [SidebarManager];
    - the move of a column of the kanban board and the text of a drag.

    Modelling conventions.
    - A JavaScript string is a [string]; [Array.prototype.includes] on
      strings is membership up to equality of strings.  View
      identifiers and the values of row boxes are strings: a view
      whose [data-view-id] jQuery's [.data] reads as a number or another
      value that is no string is filed in [tableData] under that value,
      and is outside this model.
    - [tableData] (a [Map]) and [sessionStorage] are finite maps with
      string keys; a table object is reached through the map, so an
      assignment to one of its fields is an update of the map entry.
      Session storage has room: [setItem] does not throw.
    - Exceptions are explicit: a computation returns a [completion],
      [try]/[catch] is [try_catch].
    - jQuery calls only read the store and write DOM properties (checked
      boxes, button visibility, row order); they leave the store as it
      is, and the DOM is not part of the state.  But jQuery throws on a
      selector it cannot read, and the selector of a table container is
      made from the view identifier.  The call is a step of the model
      where the function goes on to read or write the store after it:
      in [initializeRecordIds] and in [exportSelected].  In [selectAll],
      [clearSelections] and the row handler the call comes after the
      last write, and only the store these functions leave is
      modelled.  In the [htmx:afterSwap] handler the call comes first:
      for a selector jQuery refuses the handler throws before it reads
      or writes anything, and the model of the handler is for the
      selectors jQuery accepts.
    - [JSON.parse], [JSON.stringify], [decodeURIComponent] and jQuery's
      reading of a selector belong to the platform; they are the
      fields of the class [Platform], together with the facts the
      proofs rely on: [JSON.parse] reads an array of strings back from
      what [JSON.stringify] wrote, and throws on the empty text; jQuery
      does not throw on [#] followed by letters, digits, underscores
      and dashes.  [Reference] gives an instance that computes; it
      reads less than the platform does (see [Reference.parse] and
      [Reference.jQuery]) and is used on the examples only.

    The file has the definitions first: values, platform, store,
    download extension, reference platform, the further parts of the
    file, the example stores and rows and the four claims that fail as
    the specification words them.  The facts follow, with one theorem
    per claim of the specification (C1 to C10), and then the theorems
    on the further parts of the file (marked X). *)

From stdpp Require Import base strings gmap list.
From Stdlib Require Import Ascii.

Local Open Scope string_scope.
Local Open Scope list_scope.
Local Open Scope nat_scope.

(** ** Values and completions *)

(** What the program can throw: the three built-in errors it meets, and
    the error jQuery throws for a selector it cannot read ([Syntax
    error, unrecognized expression]). *)
Inductive exn : Set := SyntaxError | TypeError | URIError | UnrecognizedExpression.

#[global] Instance exn_eq_dec : EqDecision exn.
Proof. solve_decision. Defined.

(** The result of evaluating an expression: a value, or a thrown
    exception. *)
Inductive completion (A : Type) : Type :=
  | Normal (a : A)
  | Throw (e : exn).
Arguments Normal {A} a.
Arguments Throw {A} e.

#[global] Instance completion_ret : MRet completion := @Normal.
#[global] Instance completion_bind : MBind completion :=
  λ A B f c, match c with Normal a => f a | Throw e => Throw e end.

(** What [JSON.parse] can return.  A number is kept as the string that
    [String] gives for it, the only thing this program asks of a number. *)
#[warnings="-register-all"]
Inductive jsval : Type :=
  | JNull
  | JBool (b : bool)
  | JNum (rendering : string)
  | JStr (s : string)
  | JArr (elements : list jsval)
  | JObj (members : list (string * jsval)).

Definition has_own_property (name : string) (members : list (string * jsval)) : bool :=
  existsb (λ kv, String.eqb (fst kv) name) members.

Fixpoint join (sep : string) (l : list string) : string :=
  match l with
  | [] => ""
  | [s] => s
  | s :: l' => s +:+ sep +:+ join sep l'
  end.

(** [String(v)].  An array is joined with commas, [null] elements giving
    the empty string; a plain object gives ["[object Object]"], unless it
    has a member called [toString], which no JSON value makes callable:
    the conversion then throws a [TypeError]. *)
Fixpoint ToString (v : jsval) : completion string :=
  match v with
  | JNull => Normal "null"
  | JBool true => Normal "true"
  | JBool false => Normal "false"
  | JNum rendering => Normal rendering
  | JStr s => Normal s
  | JArr elements =>
      (fix elems (l : list jsval) : completion (list string) :=
         match l with
         | [] => Normal []
         | x :: l' =>
             match (match x with JNull => Normal "" | _ => ToString x end) with
             | Normal s =>
                 match elems l' with
                 | Normal ss => Normal (s :: ss)
                 | Throw e => Throw e
                 end
             | Throw e => Throw e
             end
         end) elements ≫= λ ss, Normal (join "," ss)
  | JObj members =>
      if has_own_property "toString" members then Throw TypeError
      else Normal "[object Object]"
  end.

(** [l.map(String)] on a list of values. *)
Fixpoint map_String (l : list jsval) : completion (list string) :=
  match l with
  | [] => Normal []
  | x :: l' => s ← ToString x; ss ← map_String l'; Normal (s :: ss)
  end.

(** [v.map(String)]: only an array has a [map] method. *)
Definition Array_map_String (v : jsval) : completion (list string) :=
  match v with
  | JArr elements => map_String elements
  | _ => Throw TypeError
  end.

(** [recordIds && Array.isArray(recordIds) && recordIds.length ?
    recordIds.map(String) : []] *)
Definition recordIds_strings (recordIds : jsval) : completion (list string) :=
  match recordIds with
  | JArr ((_ :: _) as elements) => map_String elements
  | _ => Normal []
  end.

(** [l.includes(x)] *)
Definition includes (l : list string) (x : string) : bool :=
  existsb (String.eqb x) l.

(** [l.every(p)] *)
Definition every (p : string → bool) (l : list string) : bool := forallb p l.

(** Truthiness of a string: every string but the empty one. *)
Definition truthy (s : string) : bool :=
  match s with "" => false | _ => true end.

(** Every character of the text passes the test. *)
Fixpoint all_chars (p : ascii → bool) (s : string) : bool :=
  match s with
  | String c r => p c && all_chars p r
  | EmptyString => true
  end.

(** The class [[\w-]]: a letter, a digit, the underscore or the dash. *)
Definition id_char (c : ascii) : bool :=
  let n := nat_of_ascii c in
  ((48 <=? n) && (n <=? 57)) || ((65 <=? n) && (n <=? 90)) || ((97 <=? n) && (n <=? 122))
  || (n =? 95) || (n =? 45).

(** ** The platform *)

Class Platform : Type := {
  (** [JSON.parse]: the value of a JSON text, or a [SyntaxError]. *)
  JSON_parse : string → completion jsval;
  (** [JSON.stringify] on an array of strings, the only values the store
      serialises. *)
  JSON_stringify : list string → string;
  (** [decodeURIComponent]: the decoded string, or a [URIError]. *)
  decodeURIComponent : string → completion string;
  (** [$(selector)] for a selector text: jQuery throws when it cannot
      read the selector; the elements it finds belong to the DOM. *)
  jQuery : string → completion unit;
  JSON_parse_stringify :
    ∀ l, JSON_parse (JSON_stringify l) = Normal (JArr (JStr <$> l));
  JSON_parse_empty : JSON_parse "" = Throw SyntaxError;
  (** A selector made of [#] and one or more characters of [[\w-]] is
      looked up with [getElementById] and not parsed (jQuery's
      [rquickExpr]): the call does not throw. *)
  jQuery_id :
    ∀ id, truthy id = true → all_chars id_char id = true →
      jQuery (String "#" id) = Normal ();
}.

(** ** The store *)

Module Table.
Record t : Type := mk {
  allRecordIds : list string;
  selectedRecordIds : list string;
  allSelected : bool;
}.

Definition set_selectedRecordIds (ids : list string) (tb : t) : t :=
  mk (allRecordIds tb) ids (allSelected tb).

Definition set_allSelected (b : bool) (tb : t) : t :=
  mk (allRecordIds tb) (selectedRecordIds tb) b.
End Table.

Inductive log_entry : Type :=
  | Warn (message : string)
  | Error (message : string) (viewId : string) (e : exn).

Record State : Type := mkState {
  tableData : gmap string Table.t;
  sessionStorage : gmap string string;
  console : list log_entry;
}.

Definition empty_state : State := mkState ∅ ∅ [].

(** A statement: from a state to a completion and the state it leaves. *)
Definition M (A : Type) : Type := State → completion A * State.

#[global] Instance M_ret : MRet M := λ A a st, (Normal a, st).

#[global] Instance M_bind : MBind M :=
  λ A B f c st,
    match c st with
    | (Normal a, st') => f a st'
    | (Throw e, st') => (Throw e, st')
    end.

Definition lift {A} (c : completion A) : M A := λ st, (c, st).

Definition try_catch {A} (body : M A) (handler : exn → M A) : M A :=
  λ st,
    match body st with
    | (Normal a, st') => (Normal a, st')
    | (Throw e, st') => handler e st'
    end.

Definition tableData_get (viewId : string) : M (option Table.t) :=
  λ st, (Normal (tableData st !! viewId), st).

Definition tableData_set (viewId : string) (tb : Table.t) : M unit :=
  λ st, (Normal (), mkState (<[viewId := tb]> (tableData st)) (sessionStorage st) (console st)).

(** An assignment to a field of the table object held under [viewId]. *)
Definition table_assign (viewId : string) (f : Table.t → Table.t) : M unit :=
  λ st, (Normal (), mkState (alter f viewId (tableData st)) (sessionStorage st) (console st)).

Definition sessionStorage_getItem (key : string) : M (option string) :=
  λ st, (Normal (sessionStorage st !! key), st).

Definition sessionStorage_setItem (key value : string) : M unit :=
  λ st, (Normal (), mkState (tableData st) (<[key := value]> (sessionStorage st)) (console st)).

Definition sessionStorage_removeItem (key : string) : M unit :=
  λ st, (Normal (), mkState (tableData st) (delete key (sessionStorage st)) (console st)).

Definition console_log (entry : log_entry) : M unit :=
  λ st, (Normal (), mkState (tableData st) (sessionStorage st) (console st ++ [entry])).

(** The key [`selectedRecordIds_${viewId}`]. *)
Definition storageKey (viewId : string) : string := "selectedRecordIds_" +:+ viewId.

(** The selector [`#table-container-${viewId}`]. *)
Definition container_selector (viewId : string) : string := "#table-container-" +:+ viewId.

(** [updateCheckboxStates] and [updateActionButtonsVisibility] read the
    table of the view and set DOM properties.  In [selectAll],
    [clearSelections] and the row handler they, and the jQuery calls
    beside them, come after the last write to the store: whatever they
    do, the store is as the function left it. *)
Definition updateCheckboxStates (viewId : string) : M unit := mret ().

Definition updateActionButtonsVisibility (viewId : string) : M unit := mret ().

(** [selectedRecordIds(viewId)] *)
Definition selectedRecordIds (viewId : string) (st : State) : list string :=
  match tableData st !! viewId with
  | Some tb => Table.selectedRecordIds tb
  | None => []
  end.

Section Store.
Context `{Platform}.

(** [initializeRecordIds(recordIds, viewId)].  The jQuery call on the
    selector of the table container stands between [tableData.set] and
    the reading of session storage: when jQuery refuses the selector,
    the function throws with the table as it was filed. *)
Definition initializeRecordIds (recordIds : jsval) (viewId : string) : M unit :=
  if negb (truthy viewId) then console_log (Warn "No viewId provided")
  else
    allIds ← lift (recordIds_strings recordIds);
    tableData_set viewId (Table.mk allIds [] false);;
    lift (jQuery (container_selector viewId));;
    match allIds with
    | [] => mret ()
    | _ :: _ =>
        storedSelections ← sessionStorage_getItem (storageKey viewId);
        match storedSelections with
        | Some stored =>
            if truthy stored then
              try_catch
                (parsed ← lift (JSON_parse stored);
                 selected ← lift (Array_map_String parsed);
                 table_assign viewId (Table.set_selectedRecordIds selected);;
                 table_assign viewId
                   (Table.set_allSelected
                      (Nat.eqb (length selected) (length allIds)
                       && every (λ id, includes selected id) allIds)))
                (λ e,
                 console_log (Error "Error parsing stored selections for viewId" viewId e);;
                 table_assign viewId (Table.set_selectedRecordIds []))
            else mret ()
        | None => mret ()
        end;;
        updateCheckboxStates viewId;;
        updateActionButtonsVisibility viewId
    end.

(** [selectAll(checked, viewId)] *)
Definition selectAll (checked : bool) (viewId : string) : M unit :=
  if negb (truthy viewId) then mret ()
  else
    table ← tableData_get viewId;
    match table with
    | None => mret ()
    | Some tb =>
        table_assign viewId (Table.set_allSelected checked);;
        let selected := if checked then Table.allRecordIds tb else [] in
        table_assign viewId (Table.set_selectedRecordIds selected);;
        sessionStorage_setItem (storageKey viewId) (JSON_stringify selected);;
        updateActionButtonsVisibility viewId
    end.

(** [clearSelections(viewId)] *)
Definition clearSelections (viewId : string) : M unit :=
  if negb (truthy viewId) then mret ()
  else
    table ← tableData_get viewId;
    match table with
    | None => mret ()
    | Some _ =>
        table_assign viewId (Table.set_selectedRecordIds []);;
        table_assign viewId (Table.set_allSelected false);;
        sessionStorage_removeItem (storageKey viewId);;
        updateActionButtonsVisibility viewId
    end.

(** The [change] handler of [input[data-role='row-select']], the
    [setRowSelected] of the specification: [viewId] is
    [getCurrentViewId(this)], [id] the value of the box and [checked]
    its [checked] property. *)
Definition setRowSelected (viewId id : string) (checked : bool) : M unit :=
  table ← tableData_get viewId;
  match table with
  | None => mret ()
  | Some tb =>
      let selected :=
        if checked then
          if negb (includes (Table.selectedRecordIds tb) id)
          then Table.selectedRecordIds tb ++ [id]
          else Table.selectedRecordIds tb
        else filter (λ selectedId, selectedId ≠ id) (Table.selectedRecordIds tb) in
      table_assign viewId (Table.set_selectedRecordIds selected);;
      (if checked then mret () else table_assign viewId (Table.set_allSelected false));;
      sessionStorage_setItem (storageKey viewId) (JSON_stringify selected);;
      updateCheckboxStates viewId;;
      updateActionButtonsVisibility viewId
  end.

(** [processInfiniteScrollRows(viewId, $newRows)]: the [checked]
    property given to the box of every new row; the rows are then put
    in order in the DOM.  [newRows] lists the values of the boxes. *)
Definition processInfiniteScrollRows (viewId : string) (newRows : list string)
  : M (list (string * bool)) :=
  if negb (truthy viewId) then mret []
  else
    table ← tableData_get viewId;
    match table with
    | None => mret []
    | Some tb => mret ((λ id, (id, includes (Table.selectedRecordIds tb) id)) <$> newRows)
    end.

(** [processNewRecords(viewId)]: DOM only. *)
Definition processNewRecords (viewId : string) : M unit :=
  updateCheckboxStates viewId;;
  updateActionButtonsVisibility viewId.

(** The [htmx:afterSwap] handler, for a swap that holds the data
    container of [viewId], once jQuery has found the table container.
    [isInfiniteScroll] tells whether the sentinel row made the request,
    [newRows] are the rows of the response and [dataRecordIds] the
    attribute [data-record-ids] of the table container. *)
Definition afterSwap (viewId : string) (isInfiniteScroll : bool)
    (newRows : list string) (dataRecordIds : option string) : M unit :=
  if truthy viewId then
    if isInfiniteScroll then processInfiniteScrollRows viewId newRows;; mret ()
    else
      recordIds ← lift (JSON_parse
                          (match dataRecordIds with
                           | Some a => if truthy a then a else "[]"
                           | None => "[]"
                           end));
      initializeRecordIds recordIds viewId;;
      processNewRecords viewId
  else mret ().

(** *** Sequences of calls *)

Inductive op : Type :=
  | Initialize (recordIds : jsval) (viewId : string)
  | SetRowSelected (viewId id : string) (checked : bool)
  | SelectAll (checked : bool) (viewId : string)
  | ClearSelections (viewId : string)
  | InfiniteScroll (viewId : string) (newRows : list string).

Definition exec (o : op) : M unit :=
  match o with
  | Initialize recordIds viewId => initializeRecordIds recordIds viewId
  | SetRowSelected viewId id checked => setRowSelected viewId id checked
  | SelectAll checked viewId => selectAll checked viewId
  | ClearSelections viewId => clearSelections viewId
  | InfiniteScroll viewId newRows => processInfiniteScrollRows viewId newRows;; mret ()
  end.

Fixpoint run (ops : list op) : M unit :=
  match ops with
  | [] => mret ()
  | o :: ops' => exec o;; run ops'
  end.

(** Toggling row [id]: the handler called with the opposite of the
    present state of [id], as a click does on a box that shows this
    state. *)
Definition toggle (viewId id : string) : M unit :=
  λ st, setRowSelected viewId id (negb (includes (selectedRecordIds viewId st) id)) st.

(** *** Notions the statements use *)

(** The selection a persisted text stands for:
    [JSON.parse(stored).map(String)]. *)
Definition parse_selection (stored : string) : completion (list string) :=
  parsed ← JSON_parse stored; Array_map_String parsed.

(** The selection [initializeRecordIds] reads back from what
    [sessionStorage.getItem] returned. *)
Definition rehydrate (storedSelections : option string) : list string :=
  match storedSelections with
  | Some stored =>
      if truthy stored then
        match parse_selection stored with
        | Normal selected => selected
        | Throw _ => []
        end
      else []
  | None => []
  end.

(** The selection has as many entries as the view has records, and
    every record of the view is in it. *)
Definition covers (selected allIds : list string) : bool :=
  Nat.eqb (length selected) (length allIds) && every (λ id, includes selected id) allIds.

(** What session storage holds for the view, if it has records, is its
    selection. *)
Definition mirrored (viewId : string) (st : State) : Prop :=
  ∀ tb, tableData st !! viewId = Some tb →
    Table.allRecordIds tb ≠ [] →
    rehydrate (sessionStorage st !! storageKey viewId) = Table.selectedRecordIds tb.

(** No view is filed under a falsy identifier. *)
Definition keys_truthy (st : State) : Prop :=
  ∀ viewId, is_Some (tableData st !! viewId) → truthy viewId = true.

(** The table [initializeRecordIds] leaves for a view with records
    [allIds], given what [sessionStorage.getItem] returned. *)
Definition initial_table (allIds : list string) (storedSelections : option string) : Table.t :=
  match allIds with
  | [] => Table.mk [] [] false
  | _ :: _ =>
      Table.mk allIds (rehydrate storedSelections) (covers (rehydrate storedSelections) allIds)
  end.

(** What [initializeRecordIds] writes with [console.error]. *)
Definition initial_log (allIds : list string) (viewId : string)
    (storedSelections : option string) : list log_entry :=
  match allIds, storedSelections with
  | _ :: _, Some stored =>
      if truthy stored then
        match parse_selection stored with
        | Normal _ => []
        | Throw e => [Error "Error parsing stored selections for viewId" viewId e]
        end
      else []
  | _, _ => []
  end.

(** The table [initializeRecordIds] leaves for a view, jQuery taken
    into account: the one above when the selector of the container is
    accepted, the table as filed when the call throws. *)
Definition filed_table (viewId : string) (allIds : list string)
    (storedSelections : option string) : Table.t :=
  match jQuery (container_selector viewId) with
  | Normal _ => initial_table allIds storedSelections
  | Throw _ => Table.mk allIds [] false
  end.

(** The list the row handler leaves as selection. *)
Definition marked (selected : list string) (id : string) (checked : bool) : list string :=
  if checked then
    if negb (includes selected id) then selected ++ [id] else selected
  else filter (λ selectedId, selectedId ≠ id) selected.
End Store.

(** [table.allSelected] of a view, [false] for an unknown one. *)
Definition allSelected (viewId : string) (st : State) : bool :=
  match tableData st !! viewId with
  | Some tb => Table.allSelected tb
  | None => false
  end.

(** [table.allRecordIds] of a view. *)
Definition allRecordIds (viewId : string) (st : State) : list string :=
  match tableData st !! viewId with
  | Some tb => Table.allRecordIds tb
  | None => []
  end.

(** The store proper, console apart, is as it was. *)
Definition same_store (st st' : State) : Prop :=
  tableData st' = tableData st ∧ sessionStorage st' = sessionStorage st.

(** The step a call makes when it does write to the store. *)
Definition writes `{Platform} (o : op) (st st' : State) : Prop :=
  match o with
  | Initialize recordIds viewId =>
      truthy viewId = true ∧
      ∃ allIds, recordIds_strings recordIds = Normal allIds ∧
        tableData st'
        = <[viewId := filed_table viewId allIds (sessionStorage st !! storageKey viewId)]>
            (tableData st) ∧
        sessionStorage st' = sessionStorage st
  | SetRowSelected viewId id checked =>
      ∃ tb, tableData st !! viewId = Some tb ∧
        tableData st'
        = <[viewId := Table.mk (Table.allRecordIds tb)
                        (marked (Table.selectedRecordIds tb) id checked)
                        (checked && Table.allSelected tb)]> (tableData st) ∧
        sessionStorage st'
        = <[storageKey viewId := JSON_stringify (marked (Table.selectedRecordIds tb) id checked)]>
            (sessionStorage st)
  | SelectAll checked viewId =>
      truthy viewId = true ∧
      ∃ tb, tableData st !! viewId = Some tb ∧
        tableData st'
        = <[viewId := Table.mk (Table.allRecordIds tb)
                        (if checked then Table.allRecordIds tb else []) checked]> (tableData st) ∧
        sessionStorage st'
        = <[storageKey viewId := JSON_stringify (if checked then Table.allRecordIds tb else [])]>
            (sessionStorage st)
  | ClearSelections viewId =>
      truthy viewId = true ∧
      ∃ tb, tableData st !! viewId = Some tb ∧
        tableData st' = <[viewId := Table.mk (Table.allRecordIds tb) [] false]> (tableData st) ∧
        sessionStorage st' = delete (storageKey viewId) (sessionStorage st)
  | InfiniteScroll _ _ => False
  end.

(** The calls of the row handler on one view, one per box and state. *)
Definition row_calls (viewId : string) (calls : list (string * bool)) : list op :=
  (λ call, SetRowSelected viewId (fst call) (snd call)) <$> calls.

(** What the last call for [id] marked it, if there is one. *)
Fixpoint last_mark (calls : list (string * bool)) (id : string) : option bool :=
  match calls with
  | [] => None
  | (x, checked) :: calls' =>
      match last_mark calls' id with
      | Some b => Some b
      | None => if String.eqb x id then Some checked else None
      end
  end.

(** A call a user makes on the view: a row box, select-all or clear. *)
Definition user_action (viewId : string) (o : op) : Prop :=
  match o with
  | SetRowSelected v _ _ => v = viewId
  | SelectAll _ v => v = viewId
  | ClearSelections v => v = viewId
  | Initialize _ _ | InfiniteScroll _ _ => False
  end.

(** Record [x] belongs to the view, and the view is not flagged as all
    selected while [x] is not selected. *)
Definition flag_needs (x viewId : string) (st : State) : Prop :=
  x ∈ allRecordIds viewId st ∧
  (allSelected viewId st = true → x ∈ selectedRecordIds viewId st).

(** The call does not re-initialise the view with a list that lacks
    record [x]. *)
Definition keeps_record (x viewId : string) (o : op) : Prop :=
  match o with
  | Initialize recordIds v =>
      v = viewId → ∀ allIds, recordIds_strings recordIds = Normal allIds → x ∈ allIds
  | _ => True
  end.

(** No record id twice: not among the records of a view, not in its
    selection, not in a selection session storage holds. *)
Definition distinct_ids `{Platform} (st : State) : Prop :=
  (∀ viewId tb, tableData st !! viewId = Some tb →
     NoDup (Table.allRecordIds tb) ∧ NoDup (Table.selectedRecordIds tb)) ∧
  (∀ viewId, NoDup (rehydrate (sessionStorage st !! storageKey viewId))).

(** The record ids a view is initialised with are distinct. *)
Definition distinct_records (o : op) : Prop :=
  match o with
  | Initialize recordIds _ =>
      ∀ allIds, recordIds_strings recordIds = Normal allIds → NoDup allIds
  | _ => True
  end.

(** ** The download extension *)

Module Download.

Definition dquote : ascii := ascii_of_nat 34.
Definition apostrophe : ascii := ascii_of_nat 39.
Definition LF : ascii := ascii_of_nat 10.
Definition CR : ascii := ascii_of_nat 13.

(** The class [[^;=\n]]. *)
Definition name_tail_char (c : ascii) : bool :=
  negb (Ascii.eqb c ";" || Ascii.eqb c "=" || Ascii.eqb c LF).

(** The class [[^;\n]]. *)
Definition bare_value_char (c : ascii) : bool :=
  negb (Ascii.eqb c ";" || Ascii.eqb c LF).

(** What [.] refuses: a line terminator.  A header value is a byte
    string, so of the four line terminators only LF and CR can stand
    in it. *)
Definition line_terminator (c : ascii) : bool := Ascii.eqb c LF || Ascii.eqb c CR.

(** The class of the two quote characters, the apostrophe and the
    double quote, written [Q] below. *)
Definition is_quote (c : ascii) : bool := Ascii.eqb c apostrophe || Ascii.eqb c dquote.

(** [s] without the prefix [p], when it starts with it. *)
Fixpoint after_prefix (p s : string) : option string :=
  match p, s with
  | EmptyString, _ => Some s
  | String a p', String b s' => if Ascii.eqb a b then after_prefix p' s' else None
  | String _ _, EmptyString => None
  end.

(** [[^;=\n]*], greedy: what is left once it has taken all it can. *)
Fixpoint skip_name_tail (s : string) : string :=
  match s with
  | String c r => if name_tail_char c then skip_name_tail r else s
  | EmptyString => s
  end.

(** [.*?\2] after the opening quote [q]: the text up to the next [q],
    if no line terminator comes first. *)
Fixpoint quoted_body (q : ascii) (s : string) : option string :=
  match s with
  | EmptyString => None
  | String c r =>
      if Ascii.eqb c q then Some EmptyString
      else if line_terminator c then None
      else match quoted_body q r with
           | Some body => Some (String c body)
           | None => None
           end
  end.

(** [[^;\n]*], greedy. *)
Fixpoint bare_value (s : string) : string :=
  match s with
  | String c r => if bare_value_char c then String c (bare_value r) else EmptyString
  | EmptyString => EmptyString
  end.

(** Group 1, the alternation of [(Q).*?\2] and [[^;\n]*]: the quoted
    alternative first, quotes included, else the bare one. *)
Definition value_group (s : string) : string :=
  match s with
  | String q r =>
      if is_quote q then
        match quoted_body q r with
        | Some body => String q (body +:+ String q EmptyString)
        | None => bare_value s
        end
      else bare_value s
  | EmptyString => EmptyString
  end.

(** The pattern tried at the start of [s]: group 1 when it matches. *)
Definition match_here (s : string) : option string :=
  match after_prefix "filename" s with
  | Some r =>
      match skip_name_tail r with
      | String c r' => if Ascii.eqb c "=" then Some (value_group r') else None
      | EmptyString => None
      end
  | None => None
  end.

(** [contentDisposition.match(re)] for the pattern [re], which is
    [filename[^;=\n]*=] followed by group 1: group 1 of the leftmost
    match. *)
Fixpoint filename_match (s : string) : option string :=
  match match_here s with
  | Some g => Some g
  | None =>
      match s with
      | String _ r => filename_match r
      | EmptyString => None
      end
  end.

(** The text holds a quote character. *)
Fixpoint has_quote (s : string) : bool :=
  match s with
  | String c r => is_quote c || has_quote r
  | EmptyString => false
  end.

(** [.replace(/Q/g, '')] *)
Fixpoint strip_quotes (s : string) : string :=
  match s with
  | String c r => if is_quote c then strip_quotes r else String c (strip_quotes r)
  | EmptyString => EmptyString
  end.

(** [.replace(/^UTF-8''/, '')] *)
Definition strip_utf8_mark (s : string) : string :=
  match after_prefix "UTF-8''" s with
  | Some r => r
  | None => s
  end.

(** [s.startsWith(p)] *)
Definition startsWith (s p : string) : bool :=
  match after_prefix p s with Some _ => true | None => false end.

Section Filename.
Context `{Platform}.

(** The name [xhr.onload] gives the download, from the value of the
    [Content-Disposition] header. *)
Definition download_filename (contentDisposition : string) : completion string :=
  match filename_match contentDisposition with
  | Some group1 =>
      if truthy group1 then
        let filename := strip_quotes group1 in
        if startsWith filename "UTF-8''"
        then decodeURIComponent (strip_utf8_mark filename)
        else Normal filename
      else Normal "download"
  | None => Normal "download"
  end.

(** The test [xhr.onload] makes before it treats a response as a
    download, and the name it then uses. *)
Definition onload_filename (status : nat) (contentDisposition : option string)
  : option (completion string) :=
  if (200 <=? status) && (status <? 300) then
    match contentDisposition with
    | Some cd =>
        if truthy cd && bool_decide (String.index 0 "attachment" cd ≠ None)
        then Some (download_filename cd)
        else None
    | None => None
    end
  else None.
End Filename.

End Download.

(** ** A platform that computes *)

Module Reference.

Definition dquote : ascii := ascii_of_nat 34.
Definition backslash : ascii := ascii_of_nat 92.

Definition hex_digit (n : nat) : ascii :=
  ascii_of_nat (if n <? 10 then 48 + n else 87 + n).

(** The characters [JSON.stringify] writes for one character of a string. *)
Definition escape_to (c : ascii) (k : string) : string :=
  let n := nat_of_ascii c in
  if n =? 34 then String backslash (String dquote k)
  else if n =? 92 then String backslash (String backslash k)
  else if n =? 8 then String backslash (String "b" k)
  else if n =? 9 then String backslash (String "t" k)
  else if n =? 10 then String backslash (String "n" k)
  else if n =? 12 then String backslash (String "f" k)
  else if n =? 13 then String backslash (String "r" k)
  else if n <? 32 then
    String backslash (String "u" (String "0" (String "0"
      (String (hex_digit (n / 16)) (String (hex_digit (n mod 16)) k)))))
  else String c k.

Fixpoint quote_body_to (s k : string) : string :=
  match s with
  | EmptyString => k
  | String c r => escape_to c (quote_body_to r k)
  end.

Definition quote_to (s k : string) : string :=
  String dquote (quote_body_to s (String dquote k)).

Fixpoint elements_to (l : list string) (k : string) : string :=
  match l with
  | [] => k
  | [x] => quote_to x k
  | x :: l' => quote_to x (String "," (elements_to l' k))
  end.

(** [JSON.stringify] on an array of strings. *)
Definition stringify (l : list string) : string := String "[" (elements_to l "]").

Definition is_ws (c : ascii) : bool :=
  let n := nat_of_ascii c in (n =? 32) || (n =? 9) || (n =? 10) || (n =? 13).

Fixpoint skip_ws (s : string) : string :=
  match s with
  | String c r => if is_ws c then skip_ws r else s
  | EmptyString => s
  end.

Definition hex_value (c : ascii) : option nat :=
  let n := nat_of_ascii c in
  if (48 <=? n) && (n <=? 57) then Some (n - 48)
  else if (97 <=? n) && (n <=? 102) then Some (n - 87)
  else if (65 <=? n) && (n <=? 70) then Some (n - 55)
  else None.

(** The character a one-letter escape stands for. *)
Definition simple_escape (e : ascii) : option ascii :=
  let n := nat_of_ascii e in
  if n =? 34 then Some dquote
  else if n =? 92 then Some backslash
  else if n =? 47 then Some "/"%char
  else if n =? 98 then Some (ascii_of_nat 8)
  else if n =? 116 then Some (ascii_of_nat 9)
  else if n =? 110 then Some (ascii_of_nat 10)
  else if n =? 102 then Some (ascii_of_nat 12)
  else if n =? 114 then Some (ascii_of_nat 13)
  else None.

Definition cons_char (c : ascii) (r : option (string * string)) : option (string * string) :=
  match r with
  | Some (s, rest) => Some (String c s, rest)
  | None => None
  end.

(** A string literal after its opening quote: its value and the text
    that follows the closing quote.  Of the [\u] escapes only those of
    a code point below 128 are read. *)
Fixpoint string_literal (s : string) : option (string * string) :=
  match s with
  | EmptyString => None
  | String c r =>
      if nat_of_ascii c =? 34 then Some (EmptyString, r)
      else if nat_of_ascii c =? 92 then
        match r with
        | String e r' =>
            match simple_escape e with
            | Some x => cons_char x (string_literal r')
            | None =>
                if nat_of_ascii e =? 117 then
                  match r' with
                  | String h1 (String h2 (String h3 (String h4 r''))) =>
                      match hex_value h1, hex_value h2, hex_value h3, hex_value h4 with
                      | Some 0, Some 0, Some a, Some b =>
                          if a <? 8 then cons_char (ascii_of_nat (16 * a + b)) (string_literal r'')
                          else None
                      | _, _, _, _ => None
                      end
                  | _ => None
                  end
                else None
            end
        | EmptyString => None
        end
      else if nat_of_ascii c <? 32 then None
      else cons_char c (string_literal r)
  end.

Definition is_digit (c : ascii) : bool :=
  (48 <=? nat_of_ascii c) && (nat_of_ascii c <=? 57).

Fixpoint digits (s : string) : string * string :=
  match s with
  | String c r =>
      if is_digit c then let '(ds, rest) := digits r in (String c ds, rest)
      else (EmptyString, s)
  | EmptyString => (EmptyString, s)
  end.

(** An integer literal of at most fifteen digits, with what [String]
    gives for the number; a fraction, an exponent or more digits are
    not read. *)
Definition integer_literal (s : string) : option (jsval * string) :=
  let '(negative, body) :=
    match s with
    | String "-" r => (true, r)
    | _ => (false, s)
    end in
  let '(ds, rest) := digits body in
  match ds with
  | EmptyString => None
  | String "0" (String _ _) => None
  | _ =>
      match rest with
      | String c _ =>
          if Ascii.eqb c "." || Ascii.eqb c "e" || Ascii.eqb c "E" then None
          else if 15 <? String.length ds then None
          else Some (JNum (if negative && negb (String.eqb ds "0") then String "-" ds else ds), rest)
      | EmptyString =>
          if 15 <? String.length ds then None
          else Some (JNum (if negative && negb (String.eqb ds "0") then String "-" ds else ds), rest)
      end
  end.

Definition literal (name : string) (v : jsval) (s : string) : option (jsval * string) :=
  match Download.after_prefix name s with
  | Some rest => Some (v, rest)
  | None => None
  end.

(** A JSON value at the start of [s], and the text after it. *)
Fixpoint value (fuel : nat) (s : string) : option (jsval * string) :=
  match fuel with
  | 0 => None
  | S fuel' =>
      match skip_ws s with
      | EmptyString => None
      | String c r =>
          if Ascii.eqb c "[" then
            match skip_ws r with
            | String "]" r' => Some (JArr [], r')
            | _ =>
                match elements fuel' r with
                | Some (vs, rest) => Some (JArr vs, rest)
                | None => None
                end
            end
          else if Ascii.eqb c "{" then
            match skip_ws r with
            | String "}" r' => Some (JObj [], r')
            | _ =>
                match members fuel' r with
                | Some (kvs, rest) => Some (JObj kvs, rest)
                | None => None
                end
            end
          else if Ascii.eqb c dquote then
            match string_literal r with
            | Some (str, rest) => Some (JStr str, rest)
            | None => None
            end
          else if Ascii.eqb c "n" then literal "null" JNull (String c r)
          else if Ascii.eqb c "t" then literal "true" (JBool true) (String c r)
          else if Ascii.eqb c "f" then literal "false" (JBool false) (String c r)
          else integer_literal (String c r)
      end
  end
with elements (fuel : nat) (s : string) : option (list jsval * string) :=
  match fuel with
  | 0 => None
  | S fuel' =>
      match value fuel' s with
      | Some (v, rest) =>
          match skip_ws rest with
          | String "," rest' =>
              match elements fuel' rest' with
              | Some (vs, rest'') => Some (v :: vs, rest'')
              | None => None
              end
          | String "]" rest' => Some ([v], rest')
          | _ => None
          end
      | None => None
      end
  end
with members (fuel : nat) (s : string) : option (list (string * jsval) * string) :=
  match fuel with
  | 0 => None
  | S fuel' =>
      match skip_ws s with
      | String c r =>
          if Ascii.eqb c dquote then
            match string_literal r with
            | Some (key, rest) =>
                match skip_ws rest with
                | String ":" rest' =>
                    match value fuel' rest' with
                    | Some (v, rest'') =>
                        match skip_ws rest'' with
                        | String "," rest3 =>
                            match members fuel' rest3 with
                            | Some (kvs, rest4) => Some ((key, v) :: kvs, rest4)
                            | None => None
                            end
                        | String "}" rest3 => Some ([(key, v)], rest3)
                        | _ => None
                        end
                    | None => None
                    end
                | _ => None
                end
            | None => None
            end
          else None
      | EmptyString => None
      end
  end.

(** [JSON.parse] on the texts this codec reads: JSON whose numbers are
    integer literals of at most fifteen digits and whose [\u] escapes
    are below 128.  Any other text is reported as a [SyntaxError]. *)
Definition parse (s : string) : completion jsval :=
  match value (2 * String.length s + 2) s with
  | Some (v, rest) =>
      match skip_ws rest with
      | EmptyString => Normal v
      | String _ _ => Throw SyntaxError
      end
  | None => Throw SyntaxError
  end.

Definition hex_pair (a b : ascii) : option ascii :=
  match hex_value a, hex_value b with
  | Some x, Some y => Some (ascii_of_nat (16 * x + y))
  | _, _ => None
  end.

(** [decodeURIComponent] on escapes of code points below 128; an
    escape that is cut short, ill-formed or of a higher byte is
    reported as a [URIError]. *)
Fixpoint decode (s : string) : completion string :=
  match s with
  | EmptyString => Normal EmptyString
  | String c r =>
      if Ascii.eqb c "%" then
        match r with
        | String a (String b r') =>
            match hex_pair a b with
            | Some x =>
                if nat_of_ascii x <? 128 then
                  match decode r' with
                  | Normal t => Normal (String x t)
                  | Throw e => Throw e
                  end
                else Throw URIError
            | None => Throw URIError
            end
        | _ => Throw URIError
        end
      else
        match decode r with
        | Normal t => Normal (String c t)
        | Throw e => Throw e
        end
  end.

(** [$(selector)] on the selectors this stand-in knows: the empty
    selector and the selectors of jQuery's quick path, [#] and an
    identifier, are accepted.  Any other selector is refused, as jQuery
    refuses the selectors with a bracket that is not closed. *)
Definition jQuery (selector : string) : completion unit :=
  match selector with
  | EmptyString => Normal ()
  | String c id =>
      if Ascii.eqb c "#" && truthy id && all_chars id_char id then Normal ()
      else Throw UnrecognizedExpression
  end.

End Reference.

(** ** More of the file: strings *)

(** [s.split(sep)] for a separator of one character. *)
Fixpoint split (sep : ascii) (s : string) : list string :=
  match s with
  | EmptyString => [EmptyString]
  | String c r =>
      if Ascii.eqb c sep then EmptyString :: split sep r
      else
        match split sep r with
        | piece :: pieces => String c piece :: pieces
        | [] => [String c EmptyString]
        end
  end.

(** [s.replace(pattern, '')] for a string [pattern]: the first
    occurrence is taken out. *)
Fixpoint replace_first (pattern s : string) : string :=
  match Download.after_prefix pattern s with
  | Some rest => rest
  | None =>
      match s with
      | String c r => String c (replace_first pattern r)
      | EmptyString => EmptyString
      end
  end.

(** ** More of the file: callers of the store *)

Inductive export_outcome : Type :=
  | NoItemsAlert
  | ExportOpened (exportRecordIds : string).

Inductive bulk_delete_outcome : Type :=
  | DoRequestTriggered
  | NoRowsSelectedShown.

Section Callers.
Context `{Platform}.

(** [exportSelected(viewId)].  [checkedBoxes] are the values of the
    checked row boxes of the table container; the result is the alert,
    or the value given to the field [exportRecordIds] once the export
    dialog is open. *)
Definition exportSelected (viewId : string) (checkedBoxes : list string) : M export_outcome :=
  table ← tableData_get viewId;
  lift (jQuery (container_selector viewId));;
  let selectedIds :=
    match table with
    | Some tb =>
        match Table.selectedRecordIds tb with
        | _ :: _ => Table.selectedRecordIds tb
        | [] => checkedBoxes
        end
    | None => checkedBoxes
    end in
  match selectedIds with
  | [] => mret NoItemsAlert
  | _ :: _ => mret (ExportOpened (JSON_stringify selectedIds))
  end.

(** [doBulkDeleteRequest(element)]; [elementId] is the [id] attribute
    of the button, [None] when it has none. *)
Definition doBulkDeleteRequest (elementId : option string) : M bulk_delete_outcome :=
  match elementId with
  | None => lift (Throw TypeError)
  | Some id =>
      let viewId := replace_first "bulk-delete-btn-" id in
      λ st,
        match selectedRecordIds viewId st with
        | _ :: _ => (Normal DoRequestTriggered, st)
        | [] => (Normal NoRowsSelectedShown, st)
        end
  end.

(** The attribute [data-record-ids] of a table container, or the text
    of an empty array. *)
Definition record_ids_text (dataRecordIds : option string) : string :=
  match dataRecordIds with
  | Some a => if truthy a then a else "[]"
  | None => "[]"
  end.

(** The body of the loop over the table containers in the
    document-ready handler; a container is given by its view identifier
    and its attribute [data-record-ids]. *)
Definition initializeTable (container : string * option string) : M unit :=
  recordIds ← lift (JSON_parse (record_ids_text (snd container)));
  initializeRecordIds recordIds (fst container).

(** The loop itself, container after container. *)
Fixpoint initializeTables (containers : list (string * option string)) : M unit :=
  match containers with
  | [] => mret ()
  | container :: containers' => initializeTable container;; initializeTables containers'
  end.

(** The view a call works on. *)
Definition op_view (o : op) : string :=
  match o with
  | Initialize _ viewId => viewId
  | SetRowSelected viewId _ _ => viewId
  | SelectAll _ viewId => viewId
  | ClearSelections viewId => viewId
  | InfiniteScroll viewId _ => viewId
  end.

(** The call can set [allSelected] of the view: select-all, or an
    initialisation. *)
Definition may_raise_flag (viewId : string) (o : op) : Prop :=
  match o with
  | SelectAll true v => v = viewId
  | Initialize _ v => v = viewId
  | _ => False
  end.
End Callers.

(** [allSelected] says no more than the selection holds: a view
    flagged as all selected has every one of its records selected. *)
Definition flag_sound (st : State) : Prop :=
  ∀ viewId tb, tableData st !! viewId = Some tb →
    Table.allSelected tb = true →
    ∀ x, x ∈ Table.allRecordIds tb → x ∈ Table.selectedRecordIds tb.

(** ** More of the file: what the store shows *)

(** What [updateCheckboxStates(viewId)] writes: the [checked] property
    of every row box of the table container, and that of the select-all
    box.  [rowBoxes] lists the values of the row boxes; [None] when the
    function returns at once. *)
Definition updateCheckboxStates_dom (viewId : string) (rowBoxes : list string) (st : State)
  : option (list bool * bool) :=
  if negb (truthy viewId) then None
  else
    match tableData st !! viewId with
    | None => None
    | Some tb =>
        let checked := (λ id, includes (Table.selectedRecordIds tb) id) <$> rowBoxes in
        let checkedCount := length (List.filter (λ b, b) checked) in
        let totalVisible := length rowBoxes in
        Some (checked, Nat.eqb checkedCount totalVisible && (0 <? totalVisible))
    end.

(** What the body of [updateActionButtonsVisibility] writes, once the
    delay is over: whether the buttons that act on the selection are
    shown, the bulk-delete button among them, the count written beside
    them if one is written, and whether the select-all button is
    shown. *)
Record action_buttons : Type := mkButtons {
  selection_buttons_shown : bool;
  selected_text : option nat;
  select_all_btn_shown : bool;
}.

Definition updateActionButtonsVisibility_dom (viewId : string) (st : State)
  : option action_buttons :=
  if negb (truthy viewId) then None
  else
    match tableData st !! viewId with
    | None => None
    | Some tb =>
        let totalSelectedCount := length (Table.selectedRecordIds tb) in
        let hasSelections := 0 <? totalSelectedCount in
        Some (mkButtons hasSelections
                (if hasSelections then Some totalSelectedCount else None)
                ((0 <? length (Table.allRecordIds tb)) && negb (Table.allSelected tb)))
    end.

(** ** More of the file: the rows of a table *)

Section TableRows.
(** A row of the table body is looked at through three questions: is
    it a separator, is it the sentinel of the infinite scroll, and what
    is the value of its row box, if it has one.  No row stands inside
    another one. *)
Context {Row : Type} `{EqDecision Row}.
Context (is_separator : Row → bool) (is_sentinel : Row → bool) (box_value : Row → option string).

(** [$tbody.append($row)]: the row leaves the place it has in the body,
    if it has one, and becomes the last row. *)
Definition append (body : list Row) (r : Row) : list Row :=
  List.filter (λ x, negb (bool_decide (x = r))) body ++ [r].

Definition row_selected (tb : Table.t) (r : Row) : bool :=
  match box_value r with
  | Some id => includes (Table.selectedRecordIds tb) id
  | None => false
  end.

(** The last sentinel among the rows, as the loop leaves it in
    [sentinelRow]. *)
Definition last_sentinel (rows : list Row) : option Row :=
  last (List.filter is_sentinel rows).

(** What the loop over [allRows] collects, in the order in which the
    rows are then appended: [selectedRows], [unselectedRows] and
    [sentinelRow]. *)
Definition collected (tb : Table.t) (allRows : list Row) : list Row :=
  let dataRows := List.filter (λ r, negb (is_sentinel r)) allRows in
  List.filter (row_selected tb) dataRows
  ++ List.filter (λ r, negb (row_selected tb r)) dataRows
  ++ match last_sentinel allRows with
     | Some sentinelRow => [sentinelRow]
     | None => []
     end.

(** [reorderTableRows(viewId, $rowsToAdd)]: the rows of the table body
    after the call, from the table of the view, the rows of the body
    before it and the rows to add. *)
Definition reorderTableRows (viewId : string) (table : option Table.t)
    (bodyRows rowsToAdd : list Row) : list Row :=
  if negb (truthy viewId) then bodyRows
  else
    match table with
    | None => bodyRows
    | Some tb =>
        let existingRows := List.filter (λ r, negb (is_separator r)) bodyRows in
        fold_left append (collected tb (existingRows ++ rowsToAdd)) []
    end.
End TableRows.

(** ** More of the file: the download extension and the swap *)

Module DownloadSwap.
Import Download.

(** The test on one element of the walk from the element of the request
    to the root: [extValue] is its attribute [hx-ext], [None] when it
    has none. *)
Definition names_download (extValue : option string) : bool :=
  match extValue with
  | Some v =>
      truthy v && (String.eqb v "download" || bool_decide (String.index 0 "download" v ≠ None))
  | None => false
  end.

(** [hasDownloadExt] after the loop of [htmx:beforeRequest]; [chain]
    lists the attribute [hx-ext] of the element and of its ancestors. *)
Definition hasDownloadExt (chain : list (option string)) : bool := existsb names_download chain.

(** [htmx:beforeRequest]: whether [responseType] becomes [blob] and
    [onload] is replaced. *)
Definition beforeRequest (chain : list (option string)) (has_xhr : bool) : bool :=
  hasDownloadExt chain && has_xhr.

(** The test [contentDisposition && contentDisposition.indexOf('attachment') !== -1]. *)
Definition is_attachment (contentDisposition : option string) : bool :=
  match contentDisposition with
  | Some cd => truthy cd && bool_decide (String.index 0 "attachment" cd ≠ None)
  | None => false
  end.

(** [htmx:beforeSwap]: [shouldSwap] after the handler.  [xhr] is
    [None] for a missing request, else whether its [responseType] is
    [blob] and its [Content-Disposition] header. *)
Definition beforeSwap (xhr : option (bool * option string)) (shouldSwap : bool) : bool :=
  match xhr with
  | Some (true, contentDisposition) => if is_attachment contentDisposition then false else shouldSwap
  | _ => shouldSwap
  end.

(** [transformResponse(text, xhr, elt)] *)
Definition transformResponse (text : string) (xhr : option (bool * option string))
  : completion string :=
  match xhr with
  | Some (true, _) => Normal ""
  | Some (false, contentDisposition) =>
      if is_attachment contentDisposition then Normal "" else Normal text
  | None => Throw TypeError
  end.

(** One request of an element, with a request object: the name
    [onload] downloads the response under, if it does, and [shouldSwap]
    after [htmx:beforeSwap].  [responseType] is what
    [htmx:beforeRequest] left. *)
Definition request_outcome `{Platform} (chain : list (option string)) (status : nat)
    (contentDisposition : option string) (shouldSwap : bool)
  : option (completion string) * bool :=
  let blob := beforeRequest chain true in
  (if blob then onload_filename status contentDisposition else None,
   beforeSwap (Some (blob, contentDisposition)) shouldSwap).

End DownloadSwap.

(** ** More of the file: the sidebar *)

Module SidebarManager.

(** [getAppLabelFromUrl()], from [window.location.pathname]. *)
Definition getAppLabelFromUrl (pathname : string) : string :=
  match List.filter (λ part, negb (Nat.eqb (String.length part) 0)) (split "/" pathname) with
  | part :: _ => if truthy part then part else "horilla_core"
  | [] => "horilla_core"
  end.

(** [Array.isArray(apps) && apps.includes(appLabel)] *)
Definition apps_include (apps : jsval) (appLabel : string) : bool :=
  match apps with
  | JArr l =>
      existsb (λ v, match v with JStr s => String.eqb s appLabel | _ => false end) l
  | _ => false
  end.

(** [getSectionFromAppLabel(appLabel)]; [mapping] lists the entries of
    [window.APP_SECTION_MAPPING], none for a missing mapping. *)
Fixpoint getSectionFromAppLabel (mapping : list (string * jsval)) (appLabel : string) : string :=
  match mapping with
  | [] => "home"
  | (section, apps) :: mapping' =>
      if apps_include apps appLabel then section else getSectionFromAppLabel mapping' appLabel
  end.

(** [a || b] on what [getItem] or an attribute gives. *)
Definition or_else (a b : option string) : option string :=
  match a with
  | Some x => if truthy x then a else b
  | None => b
  end.

(** [getActiveSection()]; [sectionFromUrl] is the parameter [section]
    of the query. *)
Definition getActiveSection (sectionFromUrl : option string) (pathname : string)
    (mapping : list (string * jsval)) (localStorage : gmap string string) : string :=
  match sectionFromUrl with
  | Some s =>
      if truthy s then s
      else default "home"
             (or_else (or_else (Some (getSectionFromAppLabel mapping (getAppLabelFromUrl pathname)))
                               (localStorage !! "currentActiveSection"))
                      (Some "home"))
  | None =>
      default "home"
        (or_else (or_else (Some (getSectionFromAppLabel mapping (getAppLabelFromUrl pathname)))
                          (localStorage !! "currentActiveSection"))
                 (Some "home"))
  end.

(** The key [`activeSidebarLinkId_${sectionId}`]. *)
Definition linkKey (sectionId : string) : string := "activeSidebarLinkId_" +:+ sectionId.

(** [getSectionSpecificSubsectionId(sectionId)] *)
Definition getSectionSpecificSubsectionId (sectionId : string)
    (localStorage : gmap string string) : option string :=
  or_else (localStorage !! linkKey sectionId) (localStorage !! "activeSidebarLinkId").

(** [setActiveNavLink($link, sectionId)], on local storage. *)
Definition setActiveNavLink (sectionId : string) (localStorage : gmap string string)
  : gmap string string :=
  let stored := <["currentActiveSection" := sectionId]> (<["activeNavLinkId" := sectionId]> localStorage) in
  if String.eqb sectionId "home" then
    delete "activeSidebarLinkId_home"
      (delete "activeSidebarLinkId" (<["sidebarClicked" := "false"]> stored))
  else stored.

(** [setActiveSubsectionLink($link, sectionId)], on local storage;
    [linkId] is the attribute [id] of the link. *)
Definition setActiveSubsectionLink (linkId : option string) (sectionId : string)
    (localStorage : gmap string string) : gmap string string :=
  match linkId with
  | Some l =>
      if truthy l && truthy sectionId then
        <["sidebarClicked" := "true"]>
          (<["activeSidebarLinkId" := l]> (<[linkKey sectionId := l]> localStorage))
      else localStorage
  | None => localStorage
  end.

End SidebarManager.

(** ** More of the file: the columns of the kanban board *)

Section Kanban.
Context {Node : Type} `{EqDecision Node}.

(** [allBlocks.index(x)]: the place of [x] among the children, [-1]
    when it is not one of them. *)
Fixpoint index (children : list Node) (x : Node) : Z :=
  match children with
  | [] => (-1)%Z
  | y :: children' =>
      if decide (y = x) then 0%Z
      else
        let i := index children' x in
        if (i <? 0)%Z then (-1)%Z else (i + 1)%Z
  end.

(** A node leaves the place it has before it is put elsewhere. *)
Definition detach (x : Node) (children : list Node) : list Node :=
  List.filter (λ y, negb (bool_decide (y = x))) children.

Fixpoint place_before (x block : Node) (children : list Node) : list Node :=
  match children with
  | [] => []
  | y :: children' =>
      if decide (y = block) then x :: y :: children'
      else y :: place_before x block children'
  end.

Fixpoint place_after (x block : Node) (children : list Node) : list Node :=
  match children with
  | [] => []
  | y :: children' =>
      if decide (y = block) then y :: x :: children'
      else y :: place_after x block children'
  end.

(** [draggedColumn.insertAfter(block)] and
    [draggedColumn.insertBefore(block)], on the children of the parent
    of [block]. *)
Definition insertAfter (dragged block : Node) (children : list Node) : list Node :=
  place_after dragged block (detach dragged children).

Definition insertBefore (dragged block : Node) (children : list Node) : list Node :=
  place_before dragged block (detach dragged children).

(** The [drop] handler of a kanban block: the children of the parent of
    [block] after the drop.  [draggedColumn] is the variable of this
    name, [None] for [null], else the block [columnDragStart] found. *)
Definition block_drop (draggedColumn : option Node) (block : Node) (children : list Node)
  : list Node :=
  match draggedColumn with
  | None => children
  | Some dragged =>
      if decide (dragged = block) then children
      else if (index children dragged <? index children block)%Z
           then insertAfter dragged block children
           else insertBefore dragged block children
  end.
End Kanban.

(** [drop(ev)] tells a column from an item by the text of the drag.
    [columnDragStart] writes [`column-${columnKey}`], [drag] the [id] of
    the dragged element. *)
Inductive dragged_thing : Type :=
  | DraggedColumn (columnKey : string)
  | DraggedItem (itemId : option string).

Definition columnDragStart_text (columnKey : string) : string := "column-" +:+ columnKey.

Definition drop_reads (data : string) : dragged_thing :=
  if Download.startsWith data "column-" then DraggedColumn (replace_first "column-" data)
  else DraggedItem (split "-" data !! 1).

(** ** Stores used as examples *)

Module Scenario.

(** View [v1] with records 1, 2 and 3, nothing selected, nothing
    persisted. *)
Definition fresh_v1 : State :=
  mkState {["v1" := Table.mk ["1"; "2"; "3"] [] false]} ∅ [].

(** No view yet; session storage holds a selection of record 1 for
    [v1]. *)
Definition stored_1 : State :=
  mkState ∅ {[storageKey "v1" := Reference.stringify ["1"]]} [].

(** No view yet; what session storage holds for [v1] is no JSON text. *)
Definition stored_garbage : State :=
  mkState ∅ {[storageKey "v1" := "{oops"]} [].

(** No view yet; session storage holds a selection of record 1 for the
    view [v[1], whose container has a selector jQuery refuses. *)
Definition stored_bracket : State :=
  mkState ∅ {[storageKey "v[1" := Reference.stringify ["1"]]} [].

End Scenario.

(** ** Rows used as examples *)

Module RowScenario.

(** A row with a row box of the given value, a separator row, or a
    sentinel row of the infinite scroll; the number tells two rows of
    a kind apart. *)
Inductive row : Type :=
  | Data (id : string)
  | Separator (n : nat)
  | Sentinel (n : nat).

#[global] Instance row_eq_dec : EqDecision row.
Proof. solve_decision. Defined.

Definition is_separator (r : row) : bool :=
  match r with Separator _ => true | _ => false end.

Definition is_sentinel (r : row) : bool :=
  match r with Sentinel _ => true | _ => false end.

Definition box_value (r : row) : option string :=
  match r with Data id => Some id | _ => None end.

(** Records 2 and 4 are selected. *)
Definition table_2_4 : Table.t := Table.mk ["1"; "2"; "3"; "4"] ["2"; "4"] false.

End RowScenario.

(** ** The claims that fail, as the specification words them *)

(** The first claim as the specification words it: whatever the list
    of record ids, the selection is the one persisted for the view and
    [allSelected] tells whether it covers the list. *)
Definition initialize_always_rehydrates `{Platform} : Prop :=
  ∀ (st : State) (viewId : string) (allIds : list string),
    truthy viewId = true →
    ∃ st', initializeRecordIds (JArr (JStr <$> allIds)) viewId st = (Normal (), st') ∧
      allRecordIds viewId st' = allIds ∧
      selectedRecordIds viewId st' = rehydrate (sessionStorage st !! storageKey viewId) ∧
      (allSelected viewId st' = true ↔
         length (rehydrate (sessionStorage st !! storageKey viewId)) = length allIds ∧
         ∀ id, id ∈ allIds → id ∈ rehydrate (sessionStorage st !! storageKey viewId)).

(** The second claim as the specification words it: after any row
    selections, select-all and clears on a view, a reload with the
    same record ids gives back the selection and the [allSelected]
    flag. *)
Definition reload_keeps_flag `{Platform} : Prop :=
  ∀ (allIds : list string) (ops : list op) (st st' : State),
    Forall (user_action "v1") ops →
    run (Initialize (JArr (JStr <$> allIds)) "v1" :: ops) empty_state = (Normal (), st) →
    initializeRecordIds (JArr (JStr <$> allIds)) "v1" st = (Normal (), st') →
    selectedRecordIds "v1" st' = selectedRecordIds "v1" st ∧
    allSelected "v1" st' = allSelected "v1" st.

(** The third claim as the specification words it: however the page
    that brings record 4 is loaded, the view then has four records and
    [allSelected] is false. *)
Definition new_page_recomputes `{Platform} : Prop :=
  ∀ (isInfiniteScroll : bool) (st1 st2 : State),
    selectAll true "v1" Scenario.fresh_v1 = (Normal (), st1) →
    afterSwap "v1" isInfiniteScroll ["4"] (Some (Reference.stringify ["1"; "2"; "3"; "4"])) st1
    = (Normal (), st2) →
    length (allRecordIds "v1" st2) = 4 ∧ allSelected "v1" st2 = false.

(** The eighth claim as the specification words it: whenever the
    persisted text cannot be read as a selection, the failure is caught
    and logged and the selection is empty. *)
Definition malformed_always_logged `{Platform} : Prop :=
  ∀ (st : State) (viewId : string) (allIds : list string) (stored : string) (e : exn),
    jQuery (container_selector viewId) = Normal () →
    truthy viewId = true →
    sessionStorage st !! storageKey viewId = Some stored →
    parse_selection stored = Throw e →
    ∃ st', initializeRecordIds (JArr (JStr <$> allIds)) viewId st = (Normal (), st') ∧
      selectedRecordIds viewId st' = [] ∧
      allSelected viewId st' = false ∧
      Error "Error parsing stored selections for viewId" viewId e ∈ console st'.

(** ** Elementary facts *)

Lemma truthy_true (s : string) : truthy s = true ↔ s ≠ "".
Proof. destruct s; simpl; split; intros; congruence. Qed.

Lemma truthy_false (s : string) : truthy s = false ↔ s = "".
Proof. destruct s; simpl; split; intros; congruence. Qed.

Lemma includes_elem_of (l : list string) (x : string) : includes l x = true ↔ x ∈ l.
Proof.
  unfold includes. rewrite existsb_exists. split.
  - intros (y & Hin & Heq). apply String.eqb_eq in Heq. subst y.
    by apply list_elem_of_In.
  - intros Hin. exists x. split; [by apply list_elem_of_In | apply String.eqb_refl].
Qed.

Lemma includes_not_elem_of (l : list string) (x : string) : includes l x = false ↔ x ∉ l.
Proof.
  rewrite <- includes_elem_of. destruct (includes l x); split; intros; congruence.
Qed.

Lemma every_includes (selected all : list string) :
  every (λ id, includes selected id) all = true ↔ ∀ id, id ∈ all → id ∈ selected.
Proof.
  unfold every. rewrite forallb_forall. split.
  - intros Hall id Hin. apply includes_elem_of, Hall. by apply list_elem_of_In.
  - intros Hall id Hin. apply includes_elem_of, Hall. by apply list_elem_of_In.
Qed.

Lemma storageKey_inj (v w : string) : storageKey v = storageKey w → v = w.
Proof. unfold storageKey. simpl. intros Heq. by simplify_eq. Qed.

Lemma map_String_JStr (l : list string) : map_String (JStr <$> l) = Normal l.
Proof. induction l as [|x l IH]; csimpl; [done|]. by rewrite IH. Qed.

Lemma recordIds_strings_JStr (l : list string) :
  recordIds_strings (JArr (JStr <$> l)) = Normal l.
Proof. destruct l as [|x l]; [done|]. exact (map_String_JStr (x :: l)). Qed.

Lemma alter_lookup_insert {A} (f : A → A) (m : gmap string A) (i : string) (x : A) :
  m !! i = Some x → alter f i m = <[i := f x]> m.
Proof.
  intros Hi. apply map_eq. intros j. destruct (decide (i = j)) as [->|Hne].
  - by rewrite lookup_alter_eq, lookup_insert_eq, Hi.
  - by rewrite lookup_alter_ne, lookup_insert_ne.
Qed.

(** ** The reference codec reads what it writes *)

Module ReferenceFacts.
Import Reference.

Lemma string_literal_escape (c : ascii) (k : string) :
  string_literal (escape_to c k) = cons_char c (string_literal k).
Proof. destruct c as [[] [] [] [] [] [] [] []]; reflexivity. Qed.

Lemma string_literal_quote_body (s k : string) :
  string_literal (quote_body_to s (String dquote k)) = Some (s, k).
Proof.
  induction s as [|c s IH]; [reflexivity|].
  simpl quote_body_to. by rewrite string_literal_escape, IH.
Qed.

Lemma value_quote (n : nat) (x k : string) :
  1 ≤ n → value n (quote_to x k) = Some (JStr x, k).
Proof.
  intros Hn. destruct n as [|n]; [lia|].
  pose proof (string_literal_quote_body x k) as Hlit.
  unfold quote_to, dquote in *. simpl. by rewrite Hlit.
Qed.

Lemma elements_step (n : nat) (s : string) :
  elements (S n) s =
  match value n s with
  | Some (v, rest) =>
      match skip_ws rest with
      | String "," rest' =>
          match elements n rest' with
          | Some (vs, rest'') => Some (v :: vs, rest'')
          | None => None
          end
      | String "]" rest' => Some ([v], rest')
      | _ => None
      end
  | None => None
  end.
Proof. reflexivity. Qed.

Lemma elements_to_cons (x y : string) (l : list string) (k : string) :
  elements_to (x :: y :: l) k = quote_to x (String "," (elements_to (y :: l) k)).
Proof. reflexivity. Qed.

Lemma skip_ws_comma (r : string) : skip_ws (String "," r) = String "," r.
Proof. reflexivity. Qed.

Lemma skip_ws_bracket (r : string) : skip_ws (String "]" r) = String "]" r.
Proof. reflexivity. Qed.

Lemma elements_quoted (l : list string) :
  ∀ (x : string) (n : nat) (k : string),
    length l + 2 ≤ n →
    elements n (elements_to (x :: l) (String "]" k)) = Some (JStr <$> (x :: l), k).
Proof.
  induction l as [|y l IH]; intros x n k Hn.
  - destruct n as [|n]; [simpl in Hn; lia|].
    rewrite elements_step. change (elements_to [x] (String "]" k)) with (quote_to x (String "]" k)).
    rewrite value_quote by (simpl in Hn; lia).
    by rewrite skip_ws_bracket.
  - destruct n as [|n]; [simpl in Hn; lia|].
    rewrite elements_step, elements_to_cons.
    rewrite value_quote by (simpl in Hn; lia).
    rewrite skip_ws_comma. cbv beta iota.
    rewrite IH by (simpl in Hn; lia). reflexivity.
Qed.

Lemma length_quote_body_to (s t : string) :
  String.length t ≤ String.length (quote_body_to s t).
Proof.
  induction s as [|c s IH]; [simpl; lia|].
  simpl quote_body_to.
  assert (∀ u, String.length u ≤ String.length (escape_to c u)) as He.
  { intros u. unfold escape_to. repeat case_match; simpl; lia. }
  specialize (He (quote_body_to s t)). lia.
Qed.

Lemma length_elements_to (l : list string) (k : string) :
  length l ≤ String.length (elements_to l k).
Proof.
  induction l as [|x l IH]; [simpl; lia|].
  destruct l as [|y l].
  - simpl. lia.
  - rewrite elements_to_cons. remember (elements_to (y :: l) k) as rest.
    unfold quote_to. simpl String.length.
    pose proof (length_quote_body_to x (String dquote (String "," rest))) as Hq.
    simpl String.length in Hq. simpl length in *. lia.
Qed.

Lemma value_bracket_quote (n : nat) (s r : string) :
  s = String dquote r →
  value (S n) (String "[" s) =
  match elements n s with
  | Some (vs, rest) => Some (JArr vs, rest)
  | None => None
  end.
Proof. intros ->. reflexivity. Qed.

Lemma value_array (n : nat) (x : string) (l : list string) (k : string) :
  length l + 2 ≤ n →
  value (S n) (String "[" (elements_to (x :: l) (String "]" k)))
  = Some (JArr (JStr <$> (x :: l)), k).
Proof.
  intros Hn.
  assert (∃ r, elements_to (x :: l) (String "]" k) = String dquote r) as [r Hr].
  { destruct l as [|y l]; eexists; reflexivity. }
  rewrite (value_bracket_quote n _ r Hr).
  by rewrite elements_quoted.
Qed.

Lemma parse_stringify (l : list string) :
  parse (stringify l) = Normal (JArr (JStr <$> l)).
Proof.
  destruct l as [|x l]; [reflexivity|].
  unfold parse, stringify.
  pose proof (length_elements_to (x :: l) "]") as Hlen.
  remember (String.length (String "[" (elements_to (x :: l) "]"))) as n eqn:Hn.
  simpl String.length in Hn.
  replace (2 * n + 2) with (S (2 * n + 1)) by lia.
  rewrite (value_array _ x l EmptyString) by (simpl in Hlen; lia).
  reflexivity.
Qed.

Lemma parse_empty : parse "" = Throw SyntaxError.
Proof. reflexivity. Qed.

Lemma jQuery_id (id : string) :
  truthy id = true → all_chars id_char id = true → jQuery (String "#" id) = Normal ().
Proof. intros Ht Hid. unfold jQuery. by rewrite Ascii.eqb_refl, Ht, Hid. Qed.

End ReferenceFacts.

#[global] Instance reference_platform : Platform := {|
  JSON_parse := Reference.parse;
  JSON_stringify := Reference.stringify;
  decodeURIComponent := Reference.decode;
  jQuery := Reference.jQuery;
  JSON_parse_stringify := ReferenceFacts.parse_stringify;
  JSON_parse_empty := ReferenceFacts.parse_empty;
  jQuery_id := ReferenceFacts.jQuery_id;
|}.

(** ** What each operation does to the state *)

Ltac unfold_M :=
  unfold mbind, mret, M_bind, M_ret, lift, try_catch, tableData_get, tableData_set,
    table_assign, sessionStorage_getItem, sessionStorage_setItem,
    sessionStorage_removeItem, console_log, updateCheckboxStates,
    updateActionButtonsVisibility.

Ltac unfold_M_in Hyp :=
  unfold mbind, mret, M_bind, M_ret, lift, try_catch, tableData_get, tableData_set,
    table_assign, sessionStorage_getItem, sessionStorage_setItem,
    sessionStorage_removeItem, console_log, updateCheckboxStates,
    updateActionButtonsVisibility in Hyp.

Section StoreFacts.
Context `{Platform}.

Lemma JSON_stringify_truthy (l : list string) : truthy (JSON_stringify l) = true.
Proof.
  destruct (truthy (JSON_stringify l)) eqn:Ht; [done|].
  apply truthy_false in Ht. pose proof (JSON_parse_stringify l) as Hp.
  rewrite Ht, JSON_parse_empty in Hp. discriminate.
Qed.

Lemma parse_selection_stringify (l : list string) :
  parse_selection (JSON_stringify l) = Normal l.
Proof.
  unfold parse_selection. rewrite JSON_parse_stringify. simpl.
  apply map_String_JStr.
Qed.

Lemma rehydrate_stringify (l : list string) : rehydrate (Some (JSON_stringify l)) = l.
Proof.
  unfold rehydrate. by rewrite JSON_stringify_truthy, parse_selection_stringify.
Qed.

Lemma covers_true (selected allIds : list string) :
  covers selected allIds = true ↔
  length selected = length allIds ∧ ∀ id, id ∈ allIds → id ∈ selected.
Proof.
  unfold covers. rewrite andb_true_iff, Nat.eqb_eq, every_includes. done.
Qed.

Lemma initializeRecordIds_falsy (recordIds : jsval) (viewId : string) (st : State) :
  truthy viewId = false →
  initializeRecordIds recordIds viewId st
  = (Normal (), mkState (tableData st) (sessionStorage st)
                  (console st ++ [Warn "No viewId provided"])).
Proof. intros Hv. unfold initializeRecordIds. by rewrite Hv. Qed.

Lemma initializeRecordIds_throws (recordIds : jsval) (viewId : string) (st : State) (e : exn) :
  truthy viewId = true →
  recordIds_strings recordIds = Throw e →
  initializeRecordIds recordIds viewId st = (Throw e, st).
Proof.
  intros Hv Hr. unfold initializeRecordIds. rewrite Hv. simpl.
  unfold_M. by rewrite Hr.
Qed.

(** The selector of the container of a view whose identifier is made
    of letters, digits, underscores and dashes is accepted. *)
Lemma container_selector_accepted (viewId : string) :
  all_chars id_char viewId = true → jQuery (container_selector viewId) = Normal ().
Proof.
  intros Hid.
  change (container_selector viewId) with (String "#" ("table-container-" +:+ viewId)).
  apply jQuery_id; [done|]. exact Hid.
Qed.

Lemma initializeRecordIds_refused (recordIds : jsval) (viewId : string) (allIds : list string)
    (st : State) (e : exn) :
  truthy viewId = true →
  recordIds_strings recordIds = Normal allIds →
  jQuery (container_selector viewId) = Throw e →
  initializeRecordIds recordIds viewId st
  = (Throw e,
     mkState (<[viewId := Table.mk allIds [] false]> (tableData st))
             (sessionStorage st) (console st)).
Proof.
  intros Hv Hr Hj. unfold initializeRecordIds. rewrite Hv. simpl.
  unfold_M. rewrite Hr. simpl. by rewrite Hj.
Qed.

Lemma initializeRecordIds_run (recordIds : jsval) (viewId : string) (allIds : list string)
    (st : State) :
  truthy viewId = true →
  recordIds_strings recordIds = Normal allIds →
  jQuery (container_selector viewId) = Normal () →
  initializeRecordIds recordIds viewId st
  = (Normal (),
     mkState (<[viewId := initial_table allIds (sessionStorage st !! storageKey viewId)]>
                (tableData st))
             (sessionStorage st)
             (console st ++ initial_log allIds viewId (sessionStorage st !! storageKey viewId))).
Proof.
  intros Hv Hr Hj. unfold initializeRecordIds. rewrite Hv. simpl.
  unfold_M. rewrite Hr. simpl. rewrite Hj.
  destruct allIds as [|x allIds]; simpl.
  { by rewrite app_nil_r. }
  unfold initial_table, initial_log, rehydrate, parse_selection.
  destruct (sessionStorage st !! storageKey viewId) as [stored|]; simpl;
    [|by rewrite app_nil_r].
  destruct (truthy stored); simpl; [|by rewrite app_nil_r].
  destruct (JSON_parse stored) as [parsed|e]; simpl.
  - destruct (Array_map_String parsed) as [selected|e]; simpl.
    + by rewrite !alter_insert_eq, app_nil_r.
    + by rewrite !alter_insert_eq.
  - by rewrite !alter_insert_eq.
Qed.

Lemma selectAll_run (checked : bool) (viewId : string) (tb : Table.t) (st : State) :
  truthy viewId = true →
  tableData st !! viewId = Some tb →
  selectAll checked viewId st
  = (Normal (),
     mkState (<[viewId := Table.mk (Table.allRecordIds tb)
                             (if checked then Table.allRecordIds tb else []) checked]>
                (tableData st))
             (<[storageKey viewId := JSON_stringify (if checked then Table.allRecordIds tb else [])]>
                (sessionStorage st))
             (console st)).
Proof.
  intros Hv Htb. unfold selectAll. rewrite Hv. simpl. unfold_M. rewrite Htb. simpl.
  by rewrite (alter_lookup_insert _ _ _ _ Htb), alter_insert_eq.
Qed.

Lemma clearSelections_run (viewId : string) (tb : Table.t) (st : State) :
  truthy viewId = true →
  tableData st !! viewId = Some tb →
  clearSelections viewId st
  = (Normal (),
     mkState (<[viewId := Table.mk (Table.allRecordIds tb) [] false]> (tableData st))
             (delete (storageKey viewId) (sessionStorage st))
             (console st)).
Proof.
  intros Hv Htb. unfold clearSelections. rewrite Hv. simpl. unfold_M. rewrite Htb. simpl.
  by rewrite (alter_lookup_insert _ _ _ _ Htb), alter_insert_eq.
Qed.

Lemma setRowSelected_run (viewId id : string) (checked : bool) (tb : Table.t) (st : State) :
  tableData st !! viewId = Some tb →
  setRowSelected viewId id checked st
  = (Normal (),
     mkState (<[viewId := Table.mk (Table.allRecordIds tb)
                             (marked (Table.selectedRecordIds tb) id checked)
                             (checked && Table.allSelected tb)]>
                (tableData st))
             (<[storageKey viewId := JSON_stringify (marked (Table.selectedRecordIds tb) id checked)]>
                (sessionStorage st))
             (console st)).
Proof.
  intros Htb. unfold setRowSelected. unfold_M. rewrite Htb. simpl.
  rewrite (alter_lookup_insert _ _ _ _ Htb). unfold marked.
  destruct checked; simpl; [done|]. by rewrite alter_insert_eq.
Qed.

Lemma selectAll_unknown (checked : bool) (viewId : string) (st : State) :
  tableData st !! viewId = None → selectAll checked viewId st = (Normal (), st).
Proof.
  intros Hnone. unfold selectAll. destruct (truthy viewId); simpl; [|done].
  unfold_M. by rewrite Hnone.
Qed.

Lemma clearSelections_unknown (viewId : string) (st : State) :
  tableData st !! viewId = None → clearSelections viewId st = (Normal (), st).
Proof.
  intros Hnone. unfold clearSelections. destruct (truthy viewId); simpl; [|done].
  unfold_M. by rewrite Hnone.
Qed.

Lemma setRowSelected_unknown (viewId id : string) (checked : bool) (st : State) :
  tableData st !! viewId = None → setRowSelected viewId id checked st = (Normal (), st).
Proof. intros Hnone. unfold setRowSelected. unfold_M. by rewrite Hnone. Qed.

Lemma processInfiniteScrollRows_state (viewId : string) (newRows : list string) (st : State) :
  ∃ boxes, processInfiniteScrollRows viewId newRows st = (Normal boxes, st).
Proof.
  unfold processInfiniteScrollRows. destruct (truthy viewId); simpl; [|by eexists].
  unfold_M. destruct (tableData st !! viewId); by eexists.
Qed.

End StoreFacts.

(** ** Steps and what they keep *)

Section Steps.
Context `{Platform}.

Lemma exec_effect (o : op) (st st' : State) (c : completion unit) :
  exec o st = (c, st') → same_store st st' ∨ writes o st st'.
Proof.
  intros Hexec. destruct o as [recordIds viewId|viewId id checked|checked viewId|viewId|viewId newRows];
    simpl in Hexec.
  - destruct (truthy viewId) eqn:Hv.
    + destruct (recordIds_strings recordIds) as [allIds|e] eqn:Hr.
      * right. simpl. split; [done|]. exists allIds. split; [done|].
        unfold filed_table. destruct (jQuery (container_selector viewId)) as [[]|e] eqn:Hj.
        -- rewrite (initializeRecordIds_run _ _ _ _ Hv Hr Hj) in Hexec. by simplify_eq.
        -- rewrite (initializeRecordIds_refused _ _ _ _ _ Hv Hr Hj) in Hexec. by simplify_eq.
      * rewrite (initializeRecordIds_throws _ _ _ _ Hv Hr) in Hexec. simplify_eq. by left.
    + rewrite (initializeRecordIds_falsy _ _ _ Hv) in Hexec. simplify_eq. by left.
  - destruct (tableData st !! viewId) as [tb|] eqn:Htb.
    + rewrite (setRowSelected_run _ _ _ _ _ Htb) in Hexec. simplify_eq.
      right. by exists tb.
    + rewrite (setRowSelected_unknown _ _ _ _ Htb) in Hexec. simplify_eq. by left.
  - destruct (tableData st !! viewId) as [tb|] eqn:Htb.
    + destruct (truthy viewId) eqn:Hv.
      * rewrite (selectAll_run _ _ _ _ Hv Htb) in Hexec. simplify_eq.
        right. split; [done|]. by exists tb.
      * unfold selectAll in Hexec. rewrite Hv in Hexec. simpl in Hexec.
        unfold mret, M_ret in Hexec. simplify_eq. by left.
    + rewrite (selectAll_unknown _ _ _ Htb) in Hexec. simplify_eq. by left.
  - destruct (tableData st !! viewId) as [tb|] eqn:Htb.
    + destruct (truthy viewId) eqn:Hv.
      * rewrite (clearSelections_run _ _ _ Hv Htb) in Hexec. simplify_eq.
        right. split; [done|]. by exists tb.
      * unfold clearSelections in Hexec. rewrite Hv in Hexec. simpl in Hexec.
        unfold mret, M_ret in Hexec. simplify_eq. by left.
    + rewrite (clearSelections_unknown _ _ Htb) in Hexec. simplify_eq. by left.
  - destruct (processInfiniteScrollRows_state viewId newRows st) as [boxes Hb].
    unfold mbind, M_bind in Hexec. rewrite Hb in Hexec.
    unfold mret, M_ret in Hexec. simplify_eq. by left.
Qed.

(** A property of the store that every call keeps is kept by a
    sequence of calls, up to the call that throws if one does. *)
Lemma run_invariant (P : State → Prop) (ok : op → Prop) :
  (∀ o st c st', ok o → P st → exec o st = (c, st') → P st') →
  ∀ ops st c st', Forall ok ops → P st → run ops st = (c, st') → P st'.
Proof.
  intros Hstep ops. induction ops as [|o ops IH]; intros st c st' Hok HP Hrun.
  - simpl in Hrun. unfold_M_in Hrun. simplify_eq. done.
  - apply Forall_cons in Hok as [Ho Hok]. simpl in Hrun.
    unfold mbind, M_bind in Hrun.
    destruct (exec o st) as [[[]|e] st1] eqn:Hexec.
    + eapply IH; [done| |done]. by eapply Hstep.
    + simplify_eq. by eapply Hstep.
Qed.

Lemma rehydrate_insert_ne (st : gmap string string) (v w : string) (text : string) :
  v ≠ w → rehydrate (<[storageKey v := text]> st !! storageKey w) = rehydrate (st !! storageKey w).
Proof.
  intros Hne. rewrite lookup_insert_ne; [done|]. intros Heq. by apply storageKey_inj in Heq.
Qed.

Lemma rehydrate_delete_ne (st : gmap string string) (v w : string) :
  v ≠ w → rehydrate (delete (storageKey v) st !! storageKey w) = rehydrate (st !! storageKey w).
Proof.
  intros Hne. rewrite lookup_delete_ne; [done|]. intros Heq. by apply storageKey_inj in Heq.
Qed.

Lemma mirrored_exec (w : string) (o : op) (st st' : State) (c : completion unit) :
  jQuery (container_selector w) = Normal () →
  mirrored w st → exec o st = (c, st') → mirrored w st'.
Proof.
  intros Hj Hm Hexec. destruct (exec_effect _ _ _ _ Hexec) as [[Ht Hs]|Hw].
  { intros tb. rewrite Ht, Hs. apply Hm. }
  intros tbw Hw1 Hw2. destruct o as [recordIds v|v id checked|checked v|v|v newRows]; simpl in Hw.
  - destruct Hw as (Hv & allIds & Hr & Ht & Hs). rewrite Ht in Hw1. rewrite Hs.
    destruct (decide (v = w)) as [->|Hne].
    + rewrite lookup_insert_eq in Hw1. unfold filed_table in Hw1. rewrite Hj in Hw1.
      simplify_eq. unfold initial_table in *. by destruct allIds.
    + rewrite lookup_insert_ne in Hw1 by done. by apply Hm.
  - destruct Hw as (tb & Htb & Ht & Hs). rewrite Ht in Hw1. rewrite Hs.
    destruct (decide (v = w)) as [->|Hne].
    + rewrite lookup_insert_eq in Hw1. simplify_eq.
      rewrite lookup_insert_eq. apply rehydrate_stringify.
    + rewrite lookup_insert_ne in Hw1 by done. rewrite rehydrate_insert_ne by done. by apply Hm.
  - destruct Hw as (Hv & tb & Htb & Ht & Hs). rewrite Ht in Hw1. rewrite Hs.
    destruct (decide (v = w)) as [->|Hne].
    + rewrite lookup_insert_eq in Hw1. simplify_eq.
      rewrite lookup_insert_eq. apply rehydrate_stringify.
    + rewrite lookup_insert_ne in Hw1 by done. rewrite rehydrate_insert_ne by done. by apply Hm.
  - destruct Hw as (Hv & tb & Htb & Ht & Hs). rewrite Ht in Hw1. rewrite Hs.
    destruct (decide (v = w)) as [->|Hne].
    + rewrite lookup_insert_eq in Hw1. simplify_eq.
      by rewrite lookup_delete_eq.
    + rewrite lookup_insert_ne in Hw1 by done. rewrite rehydrate_delete_ne by done. by apply Hm.
  - done.
Qed.

Lemma mirrored_run (w : string) (ops : list op) (st st' : State) (c : completion unit) :
  jQuery (container_selector w) = Normal () →
  mirrored w st → run ops st = (c, st') → mirrored w st'.
Proof.
  intros Hj Hm Hrun.
  eapply (run_invariant (mirrored w) (λ _, True)); [|by apply Forall_true|done|done].
  intros o s c' s' _. by apply mirrored_exec.
Qed.

Lemma mirrored_fresh (w : string) (st : State) : tableData st = ∅ → mirrored w st.
Proof. intros He tb. by rewrite He, lookup_empty. Qed.

Lemma keys_truthy_exec (o : op) (st st' : State) (c : completion unit) :
  keys_truthy st → exec o st = (c, st') → keys_truthy st'.
Proof.
  intros Hk Hexec. destruct (exec_effect _ _ _ _ Hexec) as [[Ht Hs]|Hw].
  { intros w. rewrite Ht. apply Hk. }
  intros w Hsome.
  assert (∀ v tb', tableData st' = <[v := tb']> (tableData st) →
            (truthy v = true ∨ is_Some (tableData st !! v)) → truthy w = true) as Hins.
  { intros v tb' Ht Hvk. rewrite Ht in Hsome. destruct (decide (v = w)) as [->|Hne].
    - destruct Hvk as [Hv|Hv]; [done|by apply Hk].
    - rewrite lookup_insert_ne in Hsome by done. by apply Hk. }
  destruct o as [recordIds v|v id checked|checked v|v|v newRows]; simpl in Hw.
  - destruct Hw as (Hv & allIds & Hr & Ht & Hs). eapply Hins; eauto.
  - destruct Hw as (tb & Htb & Ht & Hs). eapply Hins; eauto.
  - destruct Hw as (Hv & tb & Htb & Ht & Hs). eapply Hins; eauto.
  - destruct Hw as (Hv & tb & Htb & Ht & Hs). eapply Hins; eauto.
  - done.
Qed.

Lemma keys_truthy_run (ops : list op) (st st' : State) (c : completion unit) :
  keys_truthy st → run ops st = (c, st') → keys_truthy st'.
Proof.
  intros Hk Hrun.
  eapply (run_invariant keys_truthy (λ _, True)); [|by apply Forall_true|done|done].
  intros o s c' s' _. apply keys_truthy_exec.
Qed.

Lemma keys_truthy_fresh (st : State) : tableData st = ∅ → keys_truthy st.
Proof. intros He v [tb Htb]. by rewrite He, lookup_empty in Htb. Qed.

End Steps.

(** ** The operations on a known and on an unknown view *)

(** C5: for a known view (a truthy identifier with a table in the
    store) and whatever the state, [selectAll(true, viewId)] makes the
    selection equal to the record ids of the view, so
    [selectedRecordIds(viewId)] returns them, and sets [allSelected];
    [selectAll(false, viewId)] empties the selection and clears
    [allSelected]; either way the selection is written to session
    storage, from which it reads back. *)
Theorem selectAll_known `{Platform} (st : State) (viewId : string) (tb : Table.t)
    (checked : bool) :
  truthy viewId = true →
  tableData st !! viewId = Some tb →
  ∃ st', selectAll checked viewId st = (Normal (), st') ∧
    selectedRecordIds viewId st' = (if checked then Table.allRecordIds tb else []) ∧
    allRecordIds viewId st' = Table.allRecordIds tb ∧
    allSelected viewId st' = checked ∧
    sessionStorage st' !! storageKey viewId
    = Some (JSON_stringify (selectedRecordIds viewId st')) ∧
    rehydrate (sessionStorage st' !! storageKey viewId) = selectedRecordIds viewId st'.
Proof.
  intros Hv Htb. eexists. split; [by apply selectAll_run|].
  unfold selectedRecordIds, allRecordIds, allSelected. simpl.
  rewrite !lookup_insert_eq. simpl. repeat split; [done..|].
  apply rehydrate_stringify.
Qed.

Lemma selectAll_known_witness :
  selectedRecordIds "v1" (snd (selectAll true "v1" Scenario.fresh_v1)) = ["1"; "2"; "3"]
  ∧ allSelected "v1" (snd (selectAll true "v1" Scenario.fresh_v1)) = true
  ∧ selectedRecordIds "v1" (snd (selectAll false "v1" Scenario.fresh_v1)) = [].
Proof.
  destruct (selectAll_known Scenario.fresh_v1 "v1" (Table.mk ["1"; "2"; "3"] [] false) true
              eq_refl eq_refl) as (st1 & Hrun1 & Hsel1 & _ & Hall1 & _).
  destruct (selectAll_known Scenario.fresh_v1 "v1" (Table.mk ["1"; "2"; "3"] [] false) false
              eq_refl eq_refl) as (st2 & Hrun2 & Hsel2 & _).
  rewrite Hrun1, Hrun2. simpl. by rewrite Hsel1, Hall1, Hsel2.
Defined.

(** C6: for a known view and whatever the state, [clearSelections]
    leaves the selection empty and [allSelected] false and removes the
    entry of the view from session storage. *)
Theorem clearSelections_known `{Platform} (st : State) (viewId : string) (tb : Table.t) :
  truthy viewId = true →
  tableData st !! viewId = Some tb →
  ∃ st', clearSelections viewId st = (Normal (), st') ∧
    selectedRecordIds viewId st' = [] ∧
    allSelected viewId st' = false ∧
    allRecordIds viewId st' = Table.allRecordIds tb ∧
    sessionStorage st' !! storageKey viewId = None ∧
    ∀ key, key ≠ storageKey viewId → sessionStorage st' !! key = sessionStorage st !! key.
Proof.
  intros Hv Htb. eexists. split; [by apply clearSelections_run|].
  unfold selectedRecordIds, allRecordIds, allSelected. simpl.
  rewrite !lookup_insert_eq, lookup_delete_eq. simpl. repeat split; [done..|].
  intros key Hne. by rewrite lookup_delete_ne.
Qed.

Lemma clearSelections_known_witness :
  selectedRecordIds "v1" (snd (clearSelections "v1" (snd (selectAll true "v1" Scenario.fresh_v1))))
  = []
  ∧ sessionStorage (snd (clearSelections "v1" (snd (selectAll true "v1" Scenario.fresh_v1))))
    !! storageKey "v1" = None.
Proof.
  destruct (selectAll_run true "v1" _ Scenario.fresh_v1 eq_refl eq_refl) as [].
  match goal with
  | |- context [clearSelections "v1" ?s] =>
      destruct (clearSelections_known s "v1" (Table.mk ["1"; "2"; "3"] ["1"; "2"; "3"] true)
                  eq_refl eq_refl) as (st' & Hrun & Hsel & _ & _ & Hgone & _)
  end.
  rewrite Hrun. simpl. by rewrite Hsel, Hgone.
Defined.

(** C7: on a view identifier with no table in the store, [selectAll],
    [clearSelections] and the row handler return normally and leave
    [tableData], session storage and the console as they are, and
    [selectedRecordIds] returns the empty list. *)
Theorem unknown_view_noop `{Platform} (st : State) (viewId id : string) (checked : bool) :
  tableData st !! viewId = None →
  selectAll checked viewId st = (Normal (), st) ∧
  clearSelections viewId st = (Normal (), st) ∧
  setRowSelected viewId id checked st = (Normal (), st) ∧
  selectedRecordIds viewId st = [].
Proof.
  intros Hnone. split; [by apply selectAll_unknown|].
  split; [by apply clearSelections_unknown|].
  split; [by apply setRowSelected_unknown|].
  unfold selectedRecordIds. by rewrite Hnone.
Qed.

Lemma unknown_view_noop_witness :
  selectAll true "v2" Scenario.fresh_v1 = (Normal (), Scenario.fresh_v1) ∧
  clearSelections "v2" Scenario.fresh_v1 = (Normal (), Scenario.fresh_v1) ∧
  setRowSelected "v2" "7" true Scenario.fresh_v1 = (Normal (), Scenario.fresh_v1) ∧
  selectedRecordIds "v2" Scenario.fresh_v1 = [].
Proof. apply (unknown_view_noop Scenario.fresh_v1 "v2" "7" true). reflexivity. Defined.

(** ** Initialisation *)

Section Initialisation.
Context `{Platform}.

Lemma initial_table_allRecordIds (allIds : list string) (stored : option string) :
  Table.allRecordIds (initial_table allIds stored) = allIds.
Proof. by destruct allIds. Qed.

Lemma initial_table_selected (allIds : list string) (stored : option string) :
  Table.selectedRecordIds (initial_table allIds stored)
  = match allIds with [] => [] | _ :: _ => rehydrate stored end.
Proof. by destruct allIds. Qed.

Lemma initial_table_allSelected (allIds : list string) (stored : option string) :
  Table.allSelected (initial_table allIds stored)
  = match allIds with [] => false | _ :: _ => covers (rehydrate stored) allIds end.
Proof. by destruct allIds. Qed.

Lemma filed_table_cases (viewId : string) (allIds : list string) (stored : option string) :
  filed_table viewId allIds stored = initial_table allIds stored
  ∨ filed_table viewId allIds stored = Table.mk allIds [] false.
Proof. unfold filed_table. destruct (jQuery (container_selector viewId)); [by left|by right]. Qed.

Lemma filed_table_allRecordIds (viewId : string) (allIds : list string)
    (stored : option string) :
  Table.allRecordIds (filed_table viewId allIds stored) = allIds.
Proof.
  destruct (filed_table_cases viewId allIds stored) as [-> | ->]; [|done].
  apply initial_table_allRecordIds.
Qed.

Lemma rehydrate_malformed (stored : string) (e : exn) :
  parse_selection stored = Throw e → rehydrate (Some stored) = [].
Proof. intros Hp. unfold rehydrate. rewrite Hp. by destruct (truthy stored). Qed.

End Initialisation.

(** C1, as the code has it: for a truthy view identifier and a list of
    record ids, [initializeRecordIds] sets the entry of the view to the
    ids (each through [String]), with an empty selection and
    [allSelected] false, and leaves session storage as it is.  Then
    jQuery is called on the selector of the table container.
    - When jQuery accepts the selector, the function returns, and
      - when the list is not empty, the selection is the one read back
        from the persisted entry of the view (empty when there is none
        or it cannot be read), and [allSelected] is true exactly when
        that selection has as many entries as the view has records and
        holds every record id of the view;
      - when the list is empty, session storage is not looked at: the
        selection is empty and [allSelected] false.
    - When jQuery refuses the selector, the function throws what jQuery
      threw, session storage is not looked at, and the entry of the
      view stays as it was set: selection empty, [allSelected] false. *)
Theorem initializeRecordIds_rehydrates `{Platform} (st : State) (viewId : string)
    (recordIds : jsval) (allIds : list string) :
  truthy viewId = true →
  recordIds_strings recordIds = Normal allIds →
  ∃ c st', initializeRecordIds recordIds viewId st = (c, st') ∧
    sessionStorage st' = sessionStorage st ∧
    (∀ w, w ≠ viewId → tableData st' !! w = tableData st !! w) ∧
    allRecordIds viewId st' = allIds ∧
    match jQuery (container_selector viewId) with
    | Normal _ =>
        c = Normal () ∧
        selectedRecordIds viewId st'
        = match allIds with
          | [] => []
          | _ :: _ => rehydrate (sessionStorage st !! storageKey viewId)
          end ∧
        (allSelected viewId st' = true ↔
           allIds ≠ [] ∧
           length (rehydrate (sessionStorage st !! storageKey viewId)) = length allIds ∧
           ∀ id, id ∈ allIds → id ∈ rehydrate (sessionStorage st !! storageKey viewId))
    | Throw e =>
        c = Throw e ∧
        selectedRecordIds viewId st' = [] ∧
        allSelected viewId st' = false
    end.
Proof.
  intros Hv Hr. destruct (jQuery (container_selector viewId)) as [[]|e] eqn:Hj.
  - eexists _, _. split; [by apply initializeRecordIds_run|].
    unfold selectedRecordIds, allRecordIds, allSelected. simpl.
    rewrite !lookup_insert_eq.
    rewrite initial_table_allRecordIds, initial_table_selected, initial_table_allSelected.
    split; [done|]. split; [intros w Hne; by rewrite lookup_insert_ne|].
    split; [done|]. split; [done|]. split; [done|].
    destruct allIds as [|x allIds]; [by split; [|intros []]|].
    rewrite covers_true. split; [by intros []|by intros (_ & ? & ?)].
  - eexists _, _. split; [by apply initializeRecordIds_refused|].
    unfold selectedRecordIds, allRecordIds, allSelected. simpl.
    rewrite !lookup_insert_eq. simpl.
    split; [done|]. split; [intros w Hne; by rewrite lookup_insert_ne|]. done.
Qed.

Lemma initializeRecordIds_rehydrates_witness :
  (selectedRecordIds "v1"
     (snd (initializeRecordIds (JArr [JNum "1"; JStr "2"]) "v1" Scenario.stored_1)) = ["1"]
   ∧ allRecordIds "v1"
       (snd (initializeRecordIds (JArr [JNum "1"; JStr "2"]) "v1" Scenario.stored_1))
     = ["1"; "2"]
   ∧ allSelected "v1"
       (snd (initializeRecordIds (JArr [JNum "1"; JStr "2"]) "v1" Scenario.stored_1)) = false)
  ∧ fst (initializeRecordIds (JArr [JStr "1"]) "v[1" Scenario.stored_bracket)
    = Throw UnrecognizedExpression
  ∧ selectedRecordIds "v[1"
      (snd (initializeRecordIds (JArr [JStr "1"]) "v[1" Scenario.stored_bracket)) = [].
Proof.
  split.
  - destruct (initializeRecordIds_rehydrates Scenario.stored_1 "v1" (JArr [JNum "1"; JStr "2"])
                ["1"; "2"] eq_refl eq_refl) as (c & st' & Hrun & _ & _ & Hall & Hcase).
    assert (jQuery (container_selector "v1") = Normal ()) as Hj by reflexivity.
    rewrite Hj in Hcase. destruct Hcase as (_ & Hsel & Hflag).
    rewrite Hrun. simpl. rewrite Hall, Hsel. repeat split.
    destruct (allSelected "v1" st'); [|done].
    destruct Hflag as [Hflag _]. destruct (Hflag eq_refl) as (_ & Hlen & _).
    vm_compute in Hlen. discriminate.
  - destruct (initializeRecordIds_rehydrates Scenario.stored_bracket "v[1" (JArr [JStr "1"])
                ["1"] eq_refl eq_refl) as (c & st' & Hrun & _ & _ & _ & Hcase).
    assert (jQuery (container_selector "v[1") = Throw UnrecognizedExpression) as Hj
      by reflexivity.
    rewrite Hj in Hcase. destruct Hcase as (-> & Hsel & _).
    rewrite Hrun. simpl. by rewrite Hsel.
Defined.

(** With an empty list of record ids the persisted selection of record
    1 is not read back. *)
Lemma initialize_empty_list_counterexample :
  ¬ @initialize_always_rehydrates reference_platform.
Proof.
  intros Hclaim.
  destruct (Hclaim Scenario.stored_1 "v1" [] eq_refl) as (st' & Hrun & _ & Hsel & _).
  rewrite (initializeRecordIds_run (JArr []) "v1" [] Scenario.stored_1 eq_refl eq_refl
             (container_selector_accepted "v1" eq_refl)) in Hrun.
  injection Hrun as <-. vm_compute in Hsel. discriminate.
Qed.

(** C8, as the code has it: for a view whose container has a selector
    jQuery accepts, when what session storage holds for the view cannot
    be read as a selection ([JSON.parse] throws, or the value it
    returns has no [map], or [String] throws on an element),
    [initializeRecordIds] still returns normally, session storage is
    left as it is, and the view has an empty selection and
    [allSelected] false.  The exception is caught and written with
    [console.error] exactly when the text is read at all: the view has
    records and the text is not empty; otherwise nothing is parsed and
    nothing is written. *)
Theorem initializeRecordIds_malformed `{Platform} (st : State) (viewId : string)
    (recordIds : jsval) (allIds : list string) (stored : string) (e : exn) :
  truthy viewId = true →
  jQuery (container_selector viewId) = Normal () →
  recordIds_strings recordIds = Normal allIds →
  sessionStorage st !! storageKey viewId = Some stored →
  parse_selection stored = Throw e →
  ∃ st', initializeRecordIds recordIds viewId st = (Normal (), st') ∧
    allRecordIds viewId st' = allIds ∧
    selectedRecordIds viewId st' = [] ∧
    allSelected viewId st' = false ∧
    sessionStorage st' = sessionStorage st ∧
    console st'
    = console st ++
      (if bool_decide (allIds ≠ []) && truthy stored
       then [Error "Error parsing stored selections for viewId" viewId e] else []).
Proof.
  intros Hv Hj Hr Hs Hp. eexists. split; [by apply initializeRecordIds_run|].
  unfold selectedRecordIds, allRecordIds, allSelected. simpl.
  rewrite !lookup_insert_eq, Hs.
  rewrite initial_table_allRecordIds, initial_table_selected, initial_table_allSelected.
  rewrite (rehydrate_malformed _ _ Hp). unfold initial_log. rewrite Hp.
  destruct allIds as [|x allIds]; simpl; [done|].
  by destruct (truthy stored).
Qed.

Lemma initializeRecordIds_malformed_witness :
  initializeRecordIds (JArr [JStr "1"; JStr "2"]) "v1" Scenario.stored_garbage
  = (Normal (),
     mkState {["v1" := Table.mk ["1"; "2"] [] false]}
       (sessionStorage Scenario.stored_garbage)
       [Error "Error parsing stored selections for viewId" "v1" SyntaxError]).
Proof.
  assert (parse_selection "{oops" = Throw SyntaxError) as Hbad by reflexivity.
  destruct (initializeRecordIds_malformed Scenario.stored_garbage "v1"
              (JArr [JStr "1"; JStr "2"]) ["1"; "2"] "{oops" SyntaxError
              eq_refl (container_selector_accepted "v1" eq_refl) eq_refl eq_refl Hbad)
    as (st' & Hrun & _).
  rewrite Hrun. f_equal.
  rewrite (initializeRecordIds_run (JArr [JStr "1"; JStr "2"]) "v1" ["1"; "2"]
             Scenario.stored_garbage eq_refl eq_refl
             (container_selector_accepted "v1" eq_refl)) in Hrun.
  injection Hrun as <-. reflexivity.
Defined.

(** With an empty list of record ids the text that cannot be read is
    not read: nothing is caught and nothing is written to the
    console. *)
Lemma malformed_not_read_counterexample : ¬ @malformed_always_logged reference_platform.
Proof.
  intros Hclaim.
  assert (parse_selection "{oops" = Throw SyntaxError) as Hbad by reflexivity.
  destruct (Hclaim Scenario.stored_garbage "v1" [] "{oops" SyntaxError
              (container_selector_accepted "v1" eq_refl) eq_refl eq_refl Hbad)
    as (st' & Hrun & _ & _ & Hlog).
  rewrite (initializeRecordIds_run (JArr []) "v1" [] Scenario.stored_garbage
             eq_refl eq_refl (container_selector_accepted "v1" eq_refl)) in Hrun.
  injection Hrun as <-. simpl in Hlog. by apply elem_of_nil in Hlog.
Qed.

(** ** Row selection *)

Section Rows.
Context `{Platform}.

Lemma elem_of_marked (selected : list string) (id x : string) (checked : bool) :
  x ∈ marked selected id checked ↔
  if checked then x ∈ selected ∨ x = id else x ∈ selected ∧ x ≠ id.
Proof.
  unfold marked. destruct checked.
  - destruct (includes selected id) eqn:Hin; simpl.
    + apply includes_elem_of in Hin. split; [by left|]. by intros [?| ->].
    + rewrite elem_of_app, list_elem_of_singleton. done.
  - rewrite list_elem_of_filter. tauto.
Qed.

Lemma run_row_calls (viewId : string) (calls : list (string * bool)) :
  ∀ (st : State) (tb : Table.t),
    tableData st !! viewId = Some tb →
    ∃ st', run (row_calls viewId calls) st = (Normal (), st') ∧
      allRecordIds viewId st' = Table.allRecordIds tb ∧
      ∀ x, x ∈ selectedRecordIds viewId st' ↔
           match last_mark calls x with
           | Some b => b = true
           | None => x ∈ Table.selectedRecordIds tb
           end.
Proof.
  induction calls as [|[id checked] calls IH]; intros st tb Htb.
  - exists st. split; [done|]. unfold selectedRecordIds, allRecordIds. by rewrite Htb.
  - simpl. unfold mbind at 1, M_bind at 1.
    rewrite (setRowSelected_run _ _ _ _ _ Htb).
    match goal with
    | |- context [run _ ?s] =>
        destruct (IH s _ (lookup_insert_eq (tableData st) viewId _))
          as (st' & Hrun & Hall & Hsel)
    end.
    exists st'. split; [done|]. split; [done|].
    intros x. rewrite Hsel. destruct (last_mark calls x) as [b|]; [done|].
    simpl. rewrite elem_of_marked.
    destruct (String.eqb id x) eqn:Heq.
    + apply String.eqb_eq in Heq as ->. destruct checked; [by split; [|right]|].
      split; [by intros []|done].
    + apply String.eqb_neq in Heq. destruct checked.
      * split; [by intros [?| ->]|by left].
      * split; [by intros []|done].
Qed.

Lemma marked_toggle_twice (selected : list string) (id x : string) :
  x ∈ marked (marked selected id (negb (includes selected id))) id
        (negb (includes (marked selected id (negb (includes selected id))) id))
  ↔ x ∈ selected.
Proof.
  destruct (includes selected id) eqn:Hin; cbn [negb].
  - apply includes_elem_of in Hin.
    assert (includes (marked selected id false) id = false) as ->.
    { apply includes_not_elem_of. rewrite elem_of_marked. by intros []. }
    cbn [negb]. rewrite !elem_of_marked. split.
    + by intros [[? _]| ->].
    + intros Hx. destruct (decide (x = id)); [by right|by left].
  - apply includes_not_elem_of in Hin.
    assert (includes (marked selected id true) id = true) as ->.
    { apply includes_elem_of. rewrite elem_of_marked. by right. }
    cbn [negb]. rewrite !elem_of_marked. split.
    + by intros [[?| ->] ?].
    + intros Hx. split; [by left|]. by intros ->.
Qed.

End Rows.

(** C4: on a known view, one call of the row handler for [id] returns
    normally, adds [id] to the selection (once) when the box is checked
    and removes it when it is not, clears [allSelected] on a removal
    and leaves it on an addition, and writes the selection to session
    storage, from which it reads back; after any sequence of calls an
    id is selected exactly when its last call marked it selected, or,
    if it had no call, when it was selected before (so from an empty
    selection the selected ids are exactly those last marked
    selected); and toggling a row twice gives back the selection as a
    set. *)
Theorem setRowSelected_last_mark `{Platform} (st : State) (viewId : string) (tb : Table.t) :
  tableData st !! viewId = Some tb →
  (∀ id checked,
     ∃ st', setRowSelected viewId id checked st = (Normal (), st') ∧
       selectedRecordIds viewId st' = marked (Table.selectedRecordIds tb) id checked ∧
       (∀ x, x ∈ selectedRecordIds viewId st' ↔
             if checked then x ∈ Table.selectedRecordIds tb ∨ x = id
             else x ∈ Table.selectedRecordIds tb ∧ x ≠ id) ∧
       allSelected viewId st' = (checked && Table.allSelected tb) ∧
       sessionStorage st' !! storageKey viewId
       = Some (JSON_stringify (selectedRecordIds viewId st')) ∧
       rehydrate (sessionStorage st' !! storageKey viewId) = selectedRecordIds viewId st') ∧
  (∀ calls,
     ∃ st', run (row_calls viewId calls) st = (Normal (), st') ∧
       (∀ x, x ∈ selectedRecordIds viewId st' ↔
             match last_mark calls x with
             | Some b => b = true
             | None => x ∈ Table.selectedRecordIds tb
             end) ∧
       (Table.selectedRecordIds tb = [] →
        ∀ x, x ∈ selectedRecordIds viewId st' ↔ last_mark calls x = Some true)) ∧
  (∀ id,
     ∃ st', (toggle viewId id;; toggle viewId id) st = (Normal (), st') ∧
       ∀ x, x ∈ selectedRecordIds viewId st' ↔ x ∈ Table.selectedRecordIds tb).
Proof.
  intros Htb. split; [|split].
  - intros id checked. eexists. split; [by apply setRowSelected_run|].
    unfold selectedRecordIds, allSelected. simpl. rewrite !lookup_insert_eq. simpl.
    split; [done|]. split; [intros x; apply elem_of_marked|].
    split; [done|]. split; [done|]. apply rehydrate_stringify.
  - intros calls. destruct (run_row_calls viewId calls st tb Htb) as (st' & Hrun & _ & Hsel).
    exists st'. split; [done|]. split; [done|].
    intros Hempty x. rewrite Hsel, Hempty.
    destruct (last_mark calls x) as [[]|]; split; try done.
    by intros ?%elem_of_nil.
  - intros id. unfold mbind, M_bind, toggle.
    rewrite (setRowSelected_run _ _ _ _ _ Htb).
    match goal with
    | |- context [setRowSelected _ _ _ ?s] =>
        rewrite (setRowSelected_run viewId id _ _ s (lookup_insert_eq (tableData st) viewId _))
    end.
    eexists. split; [done|].
    unfold selectedRecordIds. cbn [tableData snd]. rewrite !lookup_insert_eq, Htb.
    cbn [Table.selectedRecordIds]. apply marked_toggle_twice.
Qed.

Lemma setRowSelected_last_mark_witness :
  selectedRecordIds "v1"
    (snd (run (row_calls "v1" [("2", true); ("3", true); ("2", false); ("1", true)])
            Scenario.fresh_v1))
  = ["3"; "1"].
Proof.
  destruct (setRowSelected_last_mark Scenario.fresh_v1 "v1"
              (Table.mk ["1"; "2"; "3"] [] false) eq_refl) as (_ & Hseq & _).
  destruct (Hseq [("2", true); ("3", true); ("2", false); ("1", true)]) as (st' & Hrun & _).
  rewrite Hrun. simpl. vm_compute in Hrun. injection Hrun as <-. reflexivity.
Defined.

(** ** Reload *)

Section Reload.
Context `{Platform}.

Lemma covers_refl (l : list string) : covers l l = true.
Proof. apply covers_true. done. Qed.

Lemma reload_mirrored (st : State) (viewId : string) (tb : Table.t) (recordIds : jsval) :
  mirrored viewId st →
  jQuery (container_selector viewId) = Normal () →
  truthy viewId = true →
  tableData st !! viewId = Some tb →
  Table.allRecordIds tb ≠ [] →
  recordIds_strings recordIds = Normal (Table.allRecordIds tb) →
  ∃ st', initializeRecordIds recordIds viewId st = (Normal (), st') ∧
    allRecordIds viewId st' = Table.allRecordIds tb ∧
    selectedRecordIds viewId st' = Table.selectedRecordIds tb ∧
    allSelected viewId st' = covers (Table.selectedRecordIds tb) (Table.allRecordIds tb).
Proof.
  intros Hm Hj Hv Htb Hne Hr. eexists. split; [by apply initializeRecordIds_run|].
  unfold selectedRecordIds, allRecordIds, allSelected. simpl. rewrite !lookup_insert_eq.
  rewrite initial_table_allRecordIds, initial_table_selected, initial_table_allSelected.
  rewrite (Hm _ Htb Hne). by destruct (Table.allRecordIds tb).
Qed.

Lemma scenario_select_2 (st0 : State) :
  sessionStorage st0 !! storageKey "v1" = None →
  ∃ st', run [Initialize (JArr (JStr <$> ["1"; "2"; "3"])) "v1";
              SetRowSelected "v1" "2" true;
              Initialize (JArr (JStr <$> ["1"; "2"; "3"])) "v1"] st0 = (Normal (), st') ∧
    allRecordIds "v1" st' = ["1"; "2"; "3"] ∧
    selectedRecordIds "v1" st' = ["2"] ∧
    allSelected "v1" st' = false.
Proof.
  intros Hnone. cbn [run exec]. unfold mbind at 1, M_bind at 1.
  rewrite (initializeRecordIds_run _ "v1" ["1"; "2"; "3"] st0 eq_refl
             (recordIds_strings_JStr ["1"; "2"; "3"])
             (container_selector_accepted "v1" eq_refl)).
  unfold mbind at 1, M_bind at 1.
  match goal with
  | |- context [setRowSelected _ _ _ ?s] =>
      rewrite (setRowSelected_run "v1" "2" true _ s (lookup_insert_eq (tableData st0) "v1" _))
  end.
  unfold mbind at 1, M_bind at 1.
  match goal with
  | |- context [initializeRecordIds _ _ ?s] =>
      rewrite (initializeRecordIds_run _ "v1" ["1"; "2"; "3"] s eq_refl
                 (recordIds_strings_JStr ["1"; "2"; "3"])
                 (container_selector_accepted "v1" eq_refl))
  end.
  eexists. split; [done|].
  unfold selectedRecordIds, allRecordIds, allSelected. cbn [tableData sessionStorage].
  rewrite !lookup_insert_eq, Hnone.
  rewrite initial_table_allRecordIds, initial_table_selected, initial_table_allSelected.
  cbn [initial_table Table.selectedRecordIds]. unfold marked. cbn [includes existsb negb app].
  rewrite rehydrate_stringify. done.
Qed.

End Reload.

(** C2, as the code has it: in every state a sequence of calls leads to
    from an empty store (the state a call that throws leaves included),
    re-initialising a view that has records, and whose container has a
    selector jQuery accepts, with the same record ids returns normally
    and gives the same record ids and the same selection as before;
    [allSelected] is computed anew, true exactly when the selection has
    as many entries as the view has records and holds each of them, so
    it is true again when the selection is the list select-all made.
    In particular, for view v1 with records 1, 2 and 3 and no persisted
    entry, selecting 2 and reloading gives the selection 2 alone and
    [allSelected] false.  (For a selector jQuery refuses the reload
    throws and leaves the selection empty: this is the second case of
    C1.) *)
Theorem reload_keeps_selection `{Platform} :
  (∀ (ops : list op) (st0 st : State) (c : completion unit) (viewId : string) (tb : Table.t)
     (recordIds : jsval),
     tableData st0 = ∅ →
     run ops st0 = (c, st) →
     jQuery (container_selector viewId) = Normal () →
     tableData st !! viewId = Some tb →
     Table.allRecordIds tb ≠ [] →
     recordIds_strings recordIds = Normal (Table.allRecordIds tb) →
     ∃ st', initializeRecordIds recordIds viewId st = (Normal (), st') ∧
       allRecordIds viewId st' = Table.allRecordIds tb ∧
       selectedRecordIds viewId st' = Table.selectedRecordIds tb ∧
       allSelected viewId st'
       = covers (Table.selectedRecordIds tb) (Table.allRecordIds tb) ∧
       (Table.selectedRecordIds tb = Table.allRecordIds tb → allSelected viewId st' = true)) ∧
  (∀ st0 : State,
     sessionStorage st0 !! storageKey "v1" = None →
     ∃ st', run [Initialize (JArr (JStr <$> ["1"; "2"; "3"])) "v1";
                 SetRowSelected "v1" "2" true;
                 Initialize (JArr (JStr <$> ["1"; "2"; "3"])) "v1"] st0 = (Normal (), st') ∧
       allRecordIds "v1" st' = ["1"; "2"; "3"] ∧
       selectedRecordIds "v1" st' = ["2"] ∧
       allSelected "v1" st' = false).
Proof.
  split; [|apply scenario_select_2].
  intros ops st0 st c viewId tb recordIds Hfresh Hrun Hj Htb Hne Hr.
  assert (mirrored viewId st) as Hm by (eapply mirrored_run; [done|by apply mirrored_fresh|done]).
  assert (truthy viewId = true) as Hv.
  { eapply (keys_truthy_run ops st0 st); [by apply keys_truthy_fresh|done|by eexists]. }
  destruct (reload_mirrored st viewId tb recordIds Hm Hj Hv Htb Hne Hr)
    as (st' & Hinit & Hall & Hsel & Hflag).
  exists st'. repeat split; try done.
  intros Heq. rewrite Hflag, Heq. apply covers_refl.
Qed.

Lemma reload_keeps_selection_witness :
  selectedRecordIds "v1"
    (snd (initializeRecordIds (JArr [JStr "1"; JStr "2"; JStr "3"]) "v1"
            (snd (run [Initialize (JArr [JStr "1"; JStr "2"; JStr "3"]) "v1";
                       SelectAll true "v1";
                       SetRowSelected "v1" "2" false] empty_state))))
  = ["1"; "3"].
Proof.
  destruct (proj1 reload_keeps_selection
              [Initialize (JArr [JStr "1"; JStr "2"; JStr "3"]) "v1";
               SelectAll true "v1"; SetRowSelected "v1" "2" false]
              empty_state
              (snd (run [Initialize (JArr [JStr "1"; JStr "2"; JStr "3"]) "v1";
                         SelectAll true "v1";
                         SetRowSelected "v1" "2" false] empty_state))
              (Normal ()) "v1" (Table.mk ["1"; "2"; "3"] ["1"; "3"] false)
              (JArr [JStr "1"; JStr "2"; JStr "3"]))
    as (st' & Hrun & _ & Hsel & _).
  - reflexivity.
  - vm_compute. reflexivity.
  - reflexivity.
  - vm_compute. reflexivity.
  - discriminate.
  - reflexivity.
  - rewrite Hrun. exact Hsel.
Defined.

(** Ticking the three rows one by one leaves [allSelected] false; the
    reload sets it. *)
Lemma reload_flag_counterexample : ¬ @reload_keeps_flag reference_platform.
Proof.
  intros Hclaim.
  pose (ops := [SetRowSelected "v1" "1" true; SetRowSelected "v1" "2" true;
                SetRowSelected "v1" "3" true]).
  pose (st := snd (run (Initialize (JArr (JStr <$> ["1"; "2"; "3"])) "v1" :: ops) empty_state)).
  pose (st' := snd (initializeRecordIds (JArr (JStr <$> ["1"; "2"; "3"])) "v1" st)).
  destruct (Hclaim ["1"; "2"; "3"] ops st st') as [_ Hflag].
  - repeat constructor.
  - vm_compute. reflexivity.
  - vm_compute. reflexivity.
  - vm_compute in Hflag. discriminate.
Qed.

(** ** A new record after select-all *)

Section NewRecord.
Context `{Platform}.

Lemma afterSwap_scroll (viewId : string) (newRows : list string) (attr : option string)
    (st : State) :
  afterSwap viewId true newRows attr st = (Normal (), st).
Proof.
  unfold afterSwap. destruct (truthy viewId); [|done].
  destruct (processInfiniteScrollRows_state viewId newRows st) as [boxes Hb].
  unfold mbind, M_bind. by rewrite Hb.
Qed.

Lemma afterSwap_reload (viewId : string) (newRows allIds : list string) (st : State) :
  truthy viewId = true →
  afterSwap viewId false newRows (Some (JSON_stringify allIds)) st
  = initializeRecordIds (JArr (JStr <$> allIds)) viewId st.
Proof.
  intros Hv. unfold afterSwap. rewrite Hv, JSON_stringify_truthy.
  unfold mbind at 1, M_bind at 1, lift. rewrite JSON_parse_stringify.
  unfold processNewRecords. unfold_M.
  by destruct (initializeRecordIds (JArr (JStr <$> allIds)) viewId st) as [[[]|e] st'].
Qed.

Lemma flag_needs_exec (x viewId : string) (o : op) (st st' : State) (c : completion unit) :
  keeps_record x viewId o → flag_needs x viewId st → exec o st = (c, st') →
  flag_needs x viewId st'.
Proof.
  intros Hkeep Hneeds Hexec. unfold flag_needs, allRecordIds, allSelected, selectedRecordIds in *.
  destruct (exec_effect _ _ _ _ Hexec) as [[Ht Hs]|Hw]; [by rewrite Ht|].
  destruct o as [recordIds v|v id checked|checked v|v|v newRows]; simpl in Hw.
  - destruct Hw as (Hv & allIds & Hr & Ht & Hs). rewrite Ht.
    destruct (decide (v = viewId)) as [->|Hne]; [|by rewrite lookup_insert_ne].
    rewrite lookup_insert_eq. pose proof (Hkeep eq_refl allIds Hr) as Hx.
    unfold filed_table. destruct (jQuery (container_selector viewId)); [|by split].
    rewrite initial_table_allRecordIds, initial_table_selected, initial_table_allSelected.
    split; [done|].
    destruct allIds as [|y allIds]; [done|]. intros Hc. apply covers_true in Hc as [_ Hall].
    by apply Hall.
  - destruct Hw as (tb & Htb & Ht & Hs). rewrite Ht.
    destruct (decide (v = viewId)) as [->|Hne]; [|by rewrite lookup_insert_ne].
    rewrite lookup_insert_eq. rewrite Htb in Hneeds. simpl in *.
    destruct Hneeds as [Hin Hflag]. split; [done|].
    intros [-> Hold]%andb_true_iff. apply elem_of_marked. left. by apply Hflag.
  - destruct Hw as (Hv & tb & Htb & Ht & Hs). rewrite Ht.
    destruct (decide (v = viewId)) as [->|Hne]; [|by rewrite lookup_insert_ne].
    rewrite lookup_insert_eq. rewrite Htb in Hneeds. simpl in *.
    destruct Hneeds as [Hin Hflag]. split; [done|]. by intros ->.
  - destruct Hw as (Hv & tb & Htb & Ht & Hs). rewrite Ht.
    destruct (decide (v = viewId)) as [->|Hne]; [|by rewrite lookup_insert_ne].
    rewrite lookup_insert_eq. rewrite Htb in Hneeds. simpl in *.
    destruct Hneeds as [Hin Hflag]. split; [done|]. done.
  - done.
Qed.

Lemma flag_needs_run (x viewId : string) (ops : list op) (st st' : State)
    (c : completion unit) :
  Forall (keeps_record x viewId) ops → flag_needs x viewId st → run ops st = (c, st') →
  flag_needs x viewId st'.
Proof.
  intros Hok Hneeds Hrun.
  eapply (run_invariant (flag_needs x viewId) (keeps_record x viewId)); [|done..].
  intros o s c' s'. apply flag_needs_exec.
Qed.

End NewRecord.

(** C3, as the code has it: on view v1 with records 1, 2 and 3,
    [selectAll(true, v1)] selects 1, 2 and 3 and sets [allSelected].
    When the view is then loaded anew with records 1 to 4 (a swap that
    is no infinite scroll, so that [initializeRecordIds] runs), the
    view has four records, the selection read back is still 1, 2
    and 3, [allSelected] is computed as false, and in every later
    state in which 4 is not selected it is false.  When the fourth row
    arrives by infinite scroll the store is left as it is: three
    records, [allSelected] still true. *)
Theorem select_all_then_fourth_record `{Platform} (st : State) (tb : Table.t) :
  tableData st !! "v1" = Some tb →
  Table.allRecordIds tb = ["1"; "2"; "3"] →
  ∃ st1, selectAll true "v1" st = (Normal (), st1) ∧
    selectedRecordIds "v1" st1 = ["1"; "2"; "3"] ∧
    allSelected "v1" st1 = true ∧
    (∃ st2,
       afterSwap "v1" false ["1"; "2"; "3"; "4"] (Some (JSON_stringify ["1"; "2"; "3"; "4"])) st1
       = (Normal (), st2) ∧
       allRecordIds "v1" st2 = ["1"; "2"; "3"; "4"] ∧
       selectedRecordIds "v1" st2 = ["1"; "2"; "3"] ∧
       allSelected "v1" st2 = false ∧
       ∀ ops c st3,
         Forall (keeps_record "4" "v1") ops →
         run ops st2 = (c, st3) →
         "4" ∉ selectedRecordIds "v1" st3 →
         allSelected "v1" st3 = false) ∧
    (∀ newRows attr,
       afterSwap "v1" true newRows attr st1 = (Normal (), st1) ∧
       allRecordIds "v1" st1 = ["1"; "2"; "3"]).
Proof.
  intros Htb Hall.
  rewrite (selectAll_run true "v1" tb st eq_refl Htb), Hall.
  eexists. split; [done|].
  unfold selectedRecordIds at 1, allSelected at 1. cbn [tableData].
  rewrite !lookup_insert_eq. split; [done|]. split; [done|]. split.
  - rewrite afterSwap_reload by done.
    rewrite (initializeRecordIds_run _ "v1" ["1"; "2"; "3"; "4"] _ eq_refl
               (recordIds_strings_JStr ["1"; "2"; "3"; "4"])
               (container_selector_accepted "v1" eq_refl)).
    cbn [sessionStorage]. rewrite lookup_insert_eq.
    cbn [initial_table]. rewrite rehydrate_stringify.
    eexists. split; [done|].
    assert (∀ m : gmap string Table.t,
              <["v1" := Table.mk ["1"; "2"; "3"; "4"] ["1"; "2"; "3"]
                          (covers ["1"; "2"; "3"] ["1"; "2"; "3"; "4"])]> m !! "v1"
              = Some (Table.mk ["1"; "2"; "3"; "4"] ["1"; "2"; "3"] false)) as Hnow.
    { intros m. by rewrite lookup_insert_eq. }
    unfold allRecordIds at 1, selectedRecordIds at 1, allSelected at 1. cbn [tableData].
    rewrite !Hnow. cbn [Table.allRecordIds Table.selectedRecordIds Table.allSelected].
    split; [done|]. split; [done|]. split; [done|].
    intros ops c st3 Hops Hrun3 Hnot.
    match type of Hrun3 with
    | run ops ?s = _ =>
        assert (flag_needs "4" "v1" s) as Hneeds
    end.
    { unfold flag_needs, allRecordIds, allSelected, selectedRecordIds. cbn [tableData].
      rewrite !Hnow. cbn [Table.allRecordIds Table.selectedRecordIds Table.allSelected].
      split; [rewrite !elem_of_cons; do 3 right; by left|done]. }
    destruct (flag_needs_run "4" "v1" ops _ st3 c Hops Hneeds Hrun3) as [_ Himp].
    destruct (allSelected "v1" st3); [|done]. by destruct Hnot; apply Himp.
  - intros newRows attr. split; [apply afterSwap_scroll|].
    unfold allRecordIds. cbn [tableData]. by rewrite lookup_insert_eq.
Qed.

Lemma select_all_then_fourth_record_witness :
  allSelected "v1"
    (snd (run [SelectAll true "v1";
               Initialize (JArr [JStr "1"; JStr "2"; JStr "3"; JStr "4"]) "v1";
               SetRowSelected "v1" "2" false;
               SetRowSelected "v1" "2" true] Scenario.fresh_v1))
  = false.
Proof.
  destruct (select_all_then_fourth_record Scenario.fresh_v1
              (Table.mk ["1"; "2"; "3"] [] false) eq_refl eq_refl)
    as (st1 & Hrun1 & _ & _ & (st2 & Hrun2 & _ & _ & _ & Hlater) & _).
  rewrite (afterSwap_reload "v1" _ ["1"; "2"; "3"; "4"] st1 eq_refl) in Hrun2.
  cbn [run]. unfold mbind at 1, M_bind at 1. cbn [exec]. rewrite Hrun1.
  unfold mbind at 1, M_bind at 1. cbn [exec].
  change (JArr [JStr "1"; JStr "2"; JStr "3"; JStr "4"])
    with (JArr (JStr <$> ["1"; "2"; "3"; "4"])).
  rewrite Hrun2.
  apply (Hlater [SetRowSelected "v1" "2" false; SetRowSelected "v1" "2" true]
           (fst (run [SetRowSelected "v1" "2" false; SetRowSelected "v1" "2" true] st2))).
  - repeat constructor.
  - apply surjective_pairing.
  - vm_compute in Hrun1. injection Hrun1 as <-.
    vm_compute in Hrun2. injection Hrun2 as <-.
    vm_compute. intros Hin. inversion Hin as [|? ? ? Hin1]; subst.
    inversion Hin1 as [|? ? ? Hin2]; subst. inversion Hin2 as [|? ? ? Hin3]; subst.
    inversion Hin3.
Defined.

(** An infinite-scroll swap leaves three records and [allSelected] true. *)
Lemma infinite_scroll_counterexample : ¬ @new_page_recomputes reference_platform.
Proof.
  intros Hclaim.
  pose (st1 := snd (selectAll true "v1" Scenario.fresh_v1)).
  destruct (Hclaim true st1 st1) as [_ Hflag].
  - vm_compute. reflexivity.
  - apply afterSwap_scroll.
  - vm_compute in Hflag. discriminate.
Qed.

(** ** The selection is a set *)

Section Distinct.
Context `{Platform}.

Lemma NoDup_marked (selected : list string) (id : string) (checked : bool) :
  NoDup selected → NoDup (marked selected id checked).
Proof.
  intros Hnd. unfold marked. destruct checked.
  - destruct (includes selected id) eqn:Hin; simpl; [done|].
    apply includes_not_elem_of in Hin. apply NoDup_app. split; [done|]. split.
    + intros x Hx ->%list_elem_of_singleton. done.
    + apply NoDup_singleton.
  - by apply NoDup_filter.
Qed.

Lemma marked_again (selected : list string) (id : string) :
  id ∈ selected → marked selected id true = selected.
Proof. intros Hin%includes_elem_of. unfold marked. by rewrite Hin. Qed.

Lemma distinct_ids_selected (st : State) (viewId : string) :
  distinct_ids st → NoDup (selectedRecordIds viewId st).
Proof.
  intros [Htab _]. unfold selectedRecordIds.
  destruct (tableData st !! viewId) as [tb|] eqn:Htb; [by apply (Htab _ _ Htb)|].
  apply NoDup_nil_2.
Qed.

Lemma distinct_ids_exec (o : op) (st st' : State) (c : completion unit) :
  distinct_records o → distinct_ids st → exec o st = (c, st') → distinct_ids st'.
Proof.
  intros Hrec [Htab Hsto] Hexec.
  destruct (exec_effect _ _ _ _ Hexec) as [[Ht Hs]|Hw].
  { split; [intros w tbw; rewrite Ht; apply Htab|intros w; rewrite Hs; apply Hsto]. }
  assert (∀ v tb',
            tableData st' = <[v := tb']> (tableData st) →
            NoDup (Table.allRecordIds tb') → NoDup (Table.selectedRecordIds tb') →
            (∀ w, NoDup (rehydrate (sessionStorage st' !! storageKey w))) →
            distinct_ids st') as Hins.
  { intros v tb' Ht Hall Hsel Hsto'. split; [|done].
    intros w tbw. rewrite Ht. destruct (decide (v = w)) as [->|Hne].
    - rewrite lookup_insert_eq. by intros [= <-].
    - rewrite lookup_insert_ne by done. apply Htab. }
  destruct o as [recordIds v|v id checked|checked v|v|v newRows]; simpl in Hw.
  - destruct Hw as (Hv & allIds & Hr & Ht & Hs).
    eapply Hins; [done|..].
    + rewrite filed_table_allRecordIds. by apply Hrec.
    + destruct (filed_table_cases v allIds (sessionStorage st !! storageKey v)) as [-> | ->];
        [|apply NoDup_nil_2].
      rewrite initial_table_selected. destruct allIds; [apply NoDup_nil_2|apply Hsto].
    + intros w. rewrite Hs. apply Hsto.
  - destruct Hw as (tb & Htb & Ht & Hs). destruct (Htab _ _ Htb) as [Hall Hsel].
    eapply Hins; [done|done|by apply NoDup_marked|].
    intros w. rewrite Hs. destruct (decide (v = w)) as [->|Hne].
    + rewrite lookup_insert_eq, rehydrate_stringify. by apply NoDup_marked.
    + rewrite rehydrate_insert_ne by done. apply Hsto.
  - destruct Hw as (Hv & tb & Htb & Ht & Hs). destruct (Htab _ _ Htb) as [Hall Hsel].
    assert (NoDup (if checked then Table.allRecordIds tb else [])) as Hnew.
    { destruct checked; [done|apply NoDup_nil_2]. }
    eapply Hins; [done|done|done|].
    intros w. rewrite Hs. destruct (decide (v = w)) as [->|Hne].
    + by rewrite lookup_insert_eq, rehydrate_stringify.
    + rewrite rehydrate_insert_ne by done. apply Hsto.
  - destruct Hw as (Hv & tb & Htb & Ht & Hs). destruct (Htab _ _ Htb) as [Hall Hsel].
    eapply Hins; [done|done|apply NoDup_nil_2|].
    intros w. rewrite Hs. destruct (decide (v = w)) as [->|Hne].
    + rewrite lookup_delete_eq. apply NoDup_nil_2.
    + rewrite rehydrate_delete_ne by done. apply Hsto.
  - done.
Qed.

Lemma distinct_ids_empty : distinct_ids empty_state.
Proof.
  split.
  - intros v tb Htb. simpl in Htb. by rewrite lookup_empty in Htb.
  - intros v. simpl. rewrite lookup_empty. apply NoDup_nil_2.
Qed.

(** What one call leaves as selection of a view, from the selection,
    the records and the persisted selection it found. *)
Lemma selected_after_exec (o : op) (viewId : string) (st st' : State) (c : completion unit) :
  exec o st = (c, st') →
  selectedRecordIds viewId st' = selectedRecordIds viewId st ∨
  (∃ id checked, selectedRecordIds viewId st' = marked (selectedRecordIds viewId st) id checked) ∨
  (selectedRecordIds viewId st' = allRecordIds viewId st ∧ o = SelectAll true viewId) ∨
  selectedRecordIds viewId st' = [] ∨
  (selectedRecordIds viewId st' = rehydrate (sessionStorage st !! storageKey viewId) ∧
   ∃ recordIds, o = Initialize recordIds viewId).
Proof.
  intros Hexec. unfold selectedRecordIds, allRecordIds.
  destruct (exec_effect _ _ _ _ Hexec) as [[Ht Hs]|Hw]; [left; by rewrite Ht|].
  destruct o as [recordIds v|v id checked|checked v|v|v newRows]; simpl in Hw.
  - destruct Hw as (Hv & allIds & Hr & Ht & Hs). rewrite Ht.
    destruct (decide (v = viewId)) as [->|Hne]; [|left; by rewrite lookup_insert_ne].
    rewrite lookup_insert_eq.
    destruct (filed_table_cases viewId allIds (sessionStorage st !! storageKey viewId))
      as [-> | ->]; [|by do 3 right; left].
    rewrite initial_table_selected.
    destruct allIds; [by do 3 right; left|]. do 4 right. split; [done|by eexists].
  - destruct Hw as (tb & Htb & Ht & Hs). rewrite Ht.
    destruct (decide (v = viewId)) as [->|Hne]; [|left; by rewrite lookup_insert_ne].
    rewrite lookup_insert_eq, Htb. right. left. by exists id, checked.
  - destruct Hw as (Hv & tb & Htb & Ht & Hs). rewrite Ht.
    destruct (decide (v = viewId)) as [->|Hne]; [|left; by rewrite lookup_insert_ne].
    rewrite lookup_insert_eq, Htb. destruct checked; [by do 2 right; left|by do 3 right; left].
  - destruct Hw as (Hv & tb & Htb & Ht & Hs). rewrite Ht.
    destruct (decide (v = viewId)) as [->|Hne]; [|left; by rewrite lookup_insert_ne].
    rewrite lookup_insert_eq. by do 3 right; left.
  - done.
Qed.

End Distinct.

(** C10: a selection without duplicates stays one.  The row handler on
    a selection without duplicates leaves one (marking an id that is
    already selected changes nothing); [selectAll] leaves one when the
    records of the view are distinct; [clearSelections] leaves one;
    [initializeRecordIds] leaves one when the selection persisted for
    the view has no duplicates.  Hence, when no record id occurs twice
    in a state (in the records and the selection of a view, in a
    persisted selection), none does after any sequence of calls that
    initialise views with distinct record ids, and from the empty
    store every selection is a set. *)
Theorem selection_stays_a_set `{Platform} :
  (∀ st viewId id checked,
     NoDup (selectedRecordIds viewId st) →
     NoDup (selectedRecordIds viewId (snd (setRowSelected viewId id checked st))) ∧
     (id ∈ selectedRecordIds viewId st →
      selectedRecordIds viewId (snd (setRowSelected viewId id true st))
      = selectedRecordIds viewId st)) ∧
  (∀ st viewId checked,
     NoDup (selectedRecordIds viewId st) → NoDup (allRecordIds viewId st) →
     NoDup (selectedRecordIds viewId (snd (selectAll checked viewId st)))) ∧
  (∀ st viewId,
     NoDup (selectedRecordIds viewId st) →
     NoDup (selectedRecordIds viewId (snd (clearSelections viewId st)))) ∧
  (∀ st viewId recordIds,
     NoDup (selectedRecordIds viewId st) →
     NoDup (rehydrate (sessionStorage st !! storageKey viewId)) →
     NoDup (selectedRecordIds viewId (snd (initializeRecordIds recordIds viewId st)))) ∧
  (∀ ops st c st',
     distinct_ids st → Forall distinct_records ops → run ops st = (c, st') →
     distinct_ids st') ∧
  (∀ ops c st viewId,
     Forall distinct_records ops → run ops empty_state = (c, st) →
     NoDup (selectedRecordIds viewId st)).
Proof.
  assert (∀ o viewId st,
            NoDup (selectedRecordIds viewId st) →
            (∀ checked v, o = SelectAll checked v → NoDup (allRecordIds viewId st)) →
            (∀ recordIds v, o = Initialize recordIds v →
               NoDup (rehydrate (sessionStorage st !! storageKey viewId))) →
            NoDup (selectedRecordIds viewId (snd (exec o st)))) as Hone.
  { intros o viewId st Hsel Hall Hsto.
    destruct (exec o st) as [c st'] eqn:Hexec. simpl.
    destruct (selected_after_exec o viewId st st' c Hexec)
      as [->|[(id & checked & ->)|[[-> ->]|[->|[-> [recordIds ->]]]]]].
    - done.
    - by apply NoDup_marked.
    - by eapply Hall.
    - apply NoDup_nil_2.
    - by eapply Hsto. }
  split; [|split; [|split; [|split; [|split]]]].
  - intros st viewId id checked Hsel. split.
    + apply (Hone (SetRowSelected viewId id checked) viewId st Hsel); by intros.
    + intros Hin. unfold selectedRecordIds in *.
      destruct (tableData st !! viewId) as [tb|] eqn:Htb.
      * rewrite (setRowSelected_run _ _ _ _ _ Htb). simpl.
        rewrite lookup_insert_eq. simpl. by apply marked_again.
      * by apply elem_of_nil in Hin.
  - intros st viewId checked Hsel Hall.
    apply (Hone (SelectAll checked viewId) viewId st Hsel); by intros.
  - intros st viewId Hsel.
    apply (Hone (ClearSelections viewId) viewId st Hsel); by intros.
  - intros st viewId recordIds Hsel Hsto.
    apply (Hone (Initialize recordIds viewId) viewId st Hsel); by intros.
  - intros ops st c st' Hd Hops Hrun.
    eapply (run_invariant distinct_ids distinct_records); [|done..].
    intros o s c' s'. apply distinct_ids_exec.
  - intros ops c st viewId Hops Hrun. apply distinct_ids_selected.
    eapply (run_invariant distinct_ids distinct_records); [|done|apply distinct_ids_empty|done].
    intros o s c' s'. apply distinct_ids_exec.
Qed.

Lemma selection_stays_a_set_witness :
  NoDup (selectedRecordIds "v1"
           (snd (run [Initialize (JArr [JStr "1"; JStr "2"; JStr "3"]) "v1";
                      SetRowSelected "v1" "2" true;
                      SetRowSelected "v1" "2" true;
                      SelectAll true "v1";
                      SetRowSelected "v1" "3" false;
                      Initialize (JArr [JStr "1"; JStr "2"; JStr "3"]) "v1"] empty_state))).
Proof.
  destruct selection_stays_a_set as (_ & _ & _ & _ & _ & Hrun).
  eapply Hrun; [|apply surjective_pairing].
  assert (distinct_records (Initialize (JArr [JStr "1"; JStr "2"; JStr "3"]) "v1")) as Hinit.
  { intros allIds [= <-]. apply NoDup_ListNoDup.
    repeat constructor; simpl; intros Hin; repeat destruct Hin as [[=]|Hin]; done. }
  repeat constructor; exact Hinit.
Defined.

(** ** The name of a download *)

Module DownloadFacts.
Import Download.

Lemma has_quote_strip_quotes (s : string) : has_quote (strip_quotes s) = false.
Proof.
  induction s as [|c s IH]; [done|]. simpl.
  destruct (is_quote c) eqn:Hq; [done|]. simpl. by rewrite Hq, IH.
Qed.

Lemma startsWith_mark_has_quote (s : string) :
  startsWith s "UTF-8''" = true → has_quote s = true.
Proof.
  unfold startsWith.
  destruct s as [|c0 [|c1 [|c2 [|c3 [|c4 [|c5 r]]]]]]; simpl; try done;
    repeat (case_match; try done).
Qed.

Lemma startsWith_strip_quotes (s : string) :
  startsWith (strip_quotes s) "UTF-8''" = false.
Proof.
  destruct (startsWith (strip_quotes s) "UTF-8''") eqn:Hs; [|done].
  apply startsWith_mark_has_quote in Hs. by rewrite has_quote_strip_quotes in Hs.
Qed.

End DownloadFacts.

(** C9, what the code does: the name is group 1 of the match with
    every apostrophe and double quote taken out, or [download] when
    there is no match or group 1 is empty; since no apostrophe is
    left, the test for the mark of the encoded form never holds and
    [decodeURIComponent] is never called.  For the header
    [attachment; filename*=UTF-8''report%20Q1.csv] the name is
    [UTF-8report%20Q1.csv]. *)
Theorem encoded_filename_not_decoded `{Platform} :
  Download.download_filename "attachment; filename*=UTF-8''report%20Q1.csv"
  = Normal "UTF-8report%20Q1.csv"
  ∧ Download.onload_filename 200 (Some "attachment; filename*=UTF-8''report%20Q1.csv")
    = Some (Normal "UTF-8report%20Q1.csv")
  ∧ ∀ contentDisposition,
      Download.download_filename contentDisposition
      = match Download.filename_match contentDisposition with
        | Some group1 =>
            if truthy group1 then Normal (Download.strip_quotes group1) else Normal "download"
        | None => Normal "download"
        end.
Proof.
  split; [reflexivity|]. split; [reflexivity|].
  intros contentDisposition. unfold Download.download_filename.
  destruct (Download.filename_match contentDisposition) as [group1|]; [|done].
  destruct (truthy group1); [|done].
  by rewrite DownloadFacts.startsWith_strip_quotes.
Qed.

(** The other names of C9: a quoted name loses its quotes, a bare name
    is taken as it is, and without a name the download is called
    [download]. *)
Lemma plain_filenames `{Platform} :
  Download.download_filename
    ("attachment; filename=" +:+ String Download.dquote ("report.csv" +:+ String Download.dquote ""))
  = Normal "report.csv"
  ∧ Download.download_filename "attachment; filename=report.csv; size=12" = Normal "report.csv"
  ∧ Download.download_filename "attachment" = Normal "download"
  ∧ Download.download_filename "attachment; filename=" = Normal "download".
Proof. repeat split; reflexivity. Qed.

(** What the claim asks for the header above, on the reference
    platform. *)
Lemma encoded_filename_expected :
  Reference.decode (Download.strip_utf8_mark "UTF-8''report%20Q1.csv") = Normal "report Q1.csv".
Proof. reflexivity. Qed.

(** ** Values and texts, by example *)

Example ToString_nested :
  ToString (JArr [JNum "1"; JNull; JArr [JBool true; JStr "a"]]) = Normal "1,,true,a".
Proof. reflexivity. Qed.

Example ToString_own_toString :
  map_String [JStr "1"; JObj [("toString", JNum "1")]] = Throw TypeError.
Proof. reflexivity. Qed.

Example rehydrate_numbers : rehydrate (Some "[1, 2 ,3]") = ["1"; "2"; "3"].
Proof. reflexivity. Qed.

Example parse_selection_number : parse_selection "5" = Throw TypeError.
Proof. reflexivity. Qed.

Example parse_selection_object : parse_selection "{ }" = Throw TypeError.
Proof. reflexivity. Qed.

Example parse_selection_cut_short :
  parse_selection (String "[" (String Reference.dquote "1")) = Throw SyntaxError.
Proof. reflexivity. Qed.

Example stringify_escapes :
  Reference.parse (Reference.stringify [String Reference.dquote "a\b"; ""; "c,d"])
  = Normal (JArr [JStr (String Reference.dquote "a\b"); JStr ""; JStr "c,d"]).
Proof. reflexivity. Qed.

Example filename_second_parameter :
  Download.filename_match "attachment; filename; filename=a.txt" = Some "a.txt".
Proof. reflexivity. Qed.

Example filename_inner_apostrophe `{Platform} :
  Download.download_filename "attachment; filename=it's.txt" = Normal "its.txt".
Proof. reflexivity. Qed.

(** ** More on the store: what no call does *)

Section StoreMore.
Context `{Platform}.

Lemma marked_idempotent (selected : list string) (id : string) (checked : bool) :
  marked (marked selected id checked) id checked = marked selected id checked.
Proof.
  unfold marked. destruct checked.
  - destruct (includes selected id) eqn:Hin; simpl.
    + by rewrite Hin.
    + assert (includes (selected ++ [id]) id = true) as ->; [|done].
      apply includes_elem_of, elem_of_app. right. by apply list_elem_of_singleton.
  - apply list_eq. intros i. f_equal.
    induction selected as [|x l IH]; [done|].
    rewrite !filter_cons. destruct (decide (x ≠ id)) as [Hx|Hx].
    + rewrite filter_cons. destruct (decide (x ≠ id)); [|done]. by f_equal.
    + done.
Qed.

Lemma exec_other_view (o : op) (w : string) (st st' : State) (c : completion unit) :
  op_view o ≠ w →
  exec o st = (c, st') →
  tableData st' !! w = tableData st !! w
  ∧ sessionStorage st' !! storageKey w = sessionStorage st !! storageKey w.
Proof.
  intros Hw Hexec. destruct (exec_effect _ _ _ _ Hexec) as [[Ht Hs]|Hwr].
  - by rewrite Ht, Hs.
  - assert (storageKey (op_view o) ≠ storageKey w) as Hk.
    { intros Heq. by apply storageKey_inj in Heq. }
    destruct o as [recordIds viewId|viewId id checked|checked viewId|viewId|viewId newRows];
      simpl in *.
    + destruct Hwr as (_ & allIds & _ & -> & ->). by rewrite lookup_insert_ne.
    + destruct Hwr as (tb & _ & -> & ->). by rewrite !lookup_insert_ne.
    + destruct Hwr as (_ & tb & _ & -> & ->). by rewrite !lookup_insert_ne.
    + destruct Hwr as (_ & tb & _ & -> & ->). by rewrite lookup_insert_ne, lookup_delete_ne.
    + done.
Qed.

End StoreMore.

Section CallersFacts.
Context `{Platform}.

Lemma after_prefix_app (p s : string) : Download.after_prefix p (p +:+ s) = Some s.
Proof. induction p as [|a p IH]; [by destruct s|]. simpl. by rewrite Ascii.eqb_refl. Qed.

Lemma replace_first_prefix (p s : string) : replace_first p (p +:+ s) = s.
Proof.
  destruct p as [|a p]; [by destruct s|].
  simpl. rewrite Ascii.eqb_refl. by rewrite after_prefix_app.
Qed.

Lemma initializeRecordIds_other_view (recordIds : jsval) (viewId w : string) (st st' : State)
    (c : completion unit) :
  viewId ≠ w →
  initializeRecordIds recordIds viewId st = (c, st') →
  tableData st' !! w = tableData st !! w.
Proof.
  intros Hw Hrun.
  by destruct (exec_other_view (Initialize recordIds viewId) w st st' c Hw Hrun).
Qed.

Lemma initializeTable_parse_throws (container : string * option string) (e : exn) (st : State) :
  JSON_parse (record_ids_text (snd container)) = Throw e →
  initializeTable container st = (Throw e, st).
Proof. intros Hp. unfold initializeTable. unfold_M. by rewrite Hp. Qed.

Lemma initializeTable_parsed (container : string * option string) (v : jsval) (st : State) :
  JSON_parse (record_ids_text (snd container)) = Normal v →
  initializeTable container st = initializeRecordIds v (fst container) st.
Proof. intros Hp. unfold initializeTable. unfold_M. by rewrite Hp. Qed.

Lemma initializeTable_other_view (container : string * option string) (w : string)
    (st st' : State) (c : completion unit) :
  fst container ≠ w →
  initializeTable container st = (c, st') →
  tableData st' !! w = tableData st !! w.
Proof.
  intros Hw Hrun.
  destruct (JSON_parse (record_ids_text (snd container))) as [v|e] eqn:Hp.
  - rewrite (initializeTable_parsed _ _ _ Hp) in Hrun.
    by eapply initializeRecordIds_other_view.
  - rewrite (initializeTable_parse_throws _ _ _ Hp) in Hrun. by simplify_eq.
Qed.

Lemma initial_table_rehydrate (allIds : list string) (stored stored' : option string) :
  rehydrate stored = rehydrate stored' →
  initial_table allIds stored = initial_table allIds stored'.
Proof. intros Heq. unfold initial_table. by rewrite Heq. Qed.

End CallersFacts.

(** ** More on the store: the theorems *)

(** X1: a sequence of calls none of which is on view [w] leaves the
    table of [w] and what session storage holds for [w] as they
    were: the views do not interfere. *)
Theorem other_views_untouched `{Platform} (ops : list op) (w : string) (st st' : State)
    (c : completion unit) :
  Forall (λ o, op_view o ≠ w) ops →
  run ops st = (c, st') →
  tableData st' !! w = tableData st !! w
  ∧ sessionStorage st' !! storageKey w = sessionStorage st !! storageKey w.
Proof.
  intros Hops Hrun.
  apply (run_invariant
           (λ s, tableData s !! w = tableData st !! w
                 ∧ sessionStorage s !! storageKey w = sessionStorage st !! storageKey w)
           (λ o, op_view o ≠ w)) with (ops := ops) (st := st) (c := c); [|done..].
  intros o s c' s' Ho [Ht Hs] Hexec.
  destruct (exec_other_view o w s s' c' Ho Hexec) as [Ht' Hs'].
  by rewrite Ht', Hs'.
Qed.

Lemma other_views_untouched_witness :
  tableData (snd (run [Initialize (JArr [JStr "7"; JStr "8"]) "v2"; SelectAll true "v2";
                       SetRowSelected "v2" "7" false; ClearSelections "v3"]
                    Scenario.fresh_v1)) !! "v1"
  = Some (Table.mk ["1"; "2"; "3"] [] false).
Proof.
  pose (ops := [Initialize (JArr [JStr "7"; JStr "8"]) "v2"; SelectAll true "v2";
                SetRowSelected "v2" "7" false; ClearSelections "v3"]).
  destruct (@other_views_untouched reference_platform ops "v1" Scenario.fresh_v1
              (snd (run ops Scenario.fresh_v1)) (fst (run ops Scenario.fresh_v1)))
    as [Ht _].
  - repeat constructor; discriminate.
  - apply surjective_pairing.
  - exact Ht.
Defined.

(** X2: whatever session storage holds when the page loads, after any
    sequence of calls on a store that had no table yet, session storage
    holds, for every view with records whose container has a selector
    jQuery accepts, a text that reads back as the selection the view
    has in memory.  (For a selector jQuery refuses,
    [initializeRecordIds] throws before it reads session storage, and
    the selection in memory is empty whatever is persisted.) *)
Theorem persisted_selection_in_step `{Platform} (ops : list op) (st st' : State)
    (c : completion unit) (viewId : string) (tb : Table.t) :
  tableData st = ∅ →
  run ops st = (c, st') →
  jQuery (container_selector viewId) = Normal () →
  tableData st' !! viewId = Some tb →
  Table.allRecordIds tb ≠ [] →
  rehydrate (sessionStorage st' !! storageKey viewId) = Table.selectedRecordIds tb.
Proof.
  intros Hfresh Hrun Hj Htb Hne.
  assert (mirrored viewId st') as Hm
    by (eapply mirrored_run; [done|by apply mirrored_fresh|done]).
  by apply Hm.
Qed.

Lemma persisted_selection_in_step_witness :
  rehydrate
    (sessionStorage
       (snd (run [Initialize (JArr [JStr "1"; JStr "2"; JStr "3"]) "v1";
                  SetRowSelected "v1" "3" true; SetRowSelected "v1" "1" true]
               Scenario.stored_1)) !! storageKey "v1")
  = ["1"; "3"].
Proof.
  pose (ops := [Initialize (JArr [JStr "1"; JStr "2"; JStr "3"]) "v1";
                SetRowSelected "v1" "3" true; SetRowSelected "v1" "1" true]).
  apply (@persisted_selection_in_step reference_platform ops Scenario.stored_1
           (snd (run ops Scenario.stored_1)) (fst (run ops Scenario.stored_1))
           "v1" (Table.mk ["1"; "2"; "3"] ["1"; "3"] false)).
  - reflexivity.
  - apply surjective_pairing.
  - reflexivity.
  - vm_compute. reflexivity.
  - discriminate.
Defined.

(** X3: [allSelected] of a view goes from false to true only in
    [selectAll(true, viewId)] or in an initialisation of the view: the
    row handler, [clearSelections], [selectAll(false, ...)], the
    infinite scroll and every call on another view never set it. *)
Theorem allSelected_set_only_by `{Platform} (o : op) (viewId : string) (st st' : State)
    (c : completion unit) :
  exec o st = (c, st') →
  allSelected viewId st = false →
  allSelected viewId st' = true →
  may_raise_flag viewId o.
Proof.
  intros Hexec Hold Hnew. unfold allSelected in *.
  destruct (exec_effect _ _ _ _ Hexec) as [[Ht _]|Hwr].
  - rewrite Ht, Hold in Hnew. done.
  - destruct o as [recordIds v|v id checked|checked v|v|v newRows]; simpl in *.
    + destruct (decide (v = viewId)) as [Hv|Hv]; [done|].
      destruct Hwr as (_ & allIds & _ & Ht & _).
      rewrite Ht, lookup_insert_ne, Hold in Hnew; done.
    + destruct Hwr as (tb & Htb & Ht & _). rewrite Ht in Hnew.
      destruct (decide (v = viewId)) as [->|Hv].
      * rewrite lookup_insert_eq in Hnew. simpl in Hnew. rewrite Htb in Hold.
        rewrite Hold in Hnew. by destruct checked.
      * rewrite lookup_insert_ne, Hold in Hnew; done.
    + destruct Hwr as (_ & tb & Htb & Ht & _). rewrite Ht in Hnew.
      destruct (decide (v = viewId)) as [->|Hv].
      * rewrite lookup_insert_eq in Hnew. simpl in Hnew. by rewrite Hnew.
      * rewrite lookup_insert_ne, Hold in Hnew; done.
    + destruct Hwr as (_ & tb & Htb & Ht & _). rewrite Ht in Hnew.
      destruct (decide (v = viewId)) as [->|Hv].
      * by rewrite lookup_insert_eq in Hnew.
      * rewrite lookup_insert_ne, Hold in Hnew; done.
    + done.
Qed.

Lemma allSelected_set_only_by_witness :
  may_raise_flag "v1" (SelectAll true "v1").
Proof.
  apply (@allSelected_set_only_by reference_platform (SelectAll true "v1") "v1"
           Scenario.fresh_v1 (snd (selectAll true "v1" Scenario.fresh_v1))
           (fst (selectAll true "v1" Scenario.fresh_v1))).
  - apply surjective_pairing.
  - reflexivity.
  - vm_compute. reflexivity.
Defined.

(** X4: every call is idempotent on the store: made a second time
    right after the first, it leaves the tables and session storage as
    the first call left them (only the console may grow). *)
Theorem call_twice_same_store `{Platform} (o : op) (st : State) :
  same_store (snd (exec o st)) (snd (exec o (snd (exec o st)))).
Proof.
  destruct o as [recordIds viewId|viewId id checked|checked viewId|viewId|viewId newRows];
    simpl.
  - destruct (truthy viewId) eqn:Hv.
    + destruct (recordIds_strings recordIds) as [allIds|e] eqn:Hr.
      * destruct (jQuery (container_selector viewId)) as [[]|e] eqn:Hj.
        -- rewrite (initializeRecordIds_run _ _ _ _ Hv Hr Hj). simpl.
           rewrite (initializeRecordIds_run _ _ _ _ Hv Hr Hj). simpl.
           split; [|done]. simpl. by rewrite insert_insert_eq.
        -- rewrite (initializeRecordIds_refused _ _ _ _ _ Hv Hr Hj). simpl.
           rewrite (initializeRecordIds_refused _ _ _ _ _ Hv Hr Hj). simpl.
           split; [|done]. simpl. by rewrite insert_insert_eq.
      * rewrite (initializeRecordIds_throws _ _ _ _ Hv Hr). simpl.
        by rewrite (initializeRecordIds_throws _ _ _ _ Hv Hr).
    + rewrite (initializeRecordIds_falsy _ _ _ Hv). simpl.
      by rewrite (initializeRecordIds_falsy _ _ _ Hv).
  - destruct (tableData st !! viewId) as [tb|] eqn:Htb.
    + rewrite (setRowSelected_run _ _ _ _ _ Htb). simpl.
      erewrite setRowSelected_run; [|by simpl; rewrite lookup_insert_eq]. simpl.
      rewrite marked_idempotent, !insert_insert_eq.
      by destruct checked, (Table.allSelected tb).
    + rewrite (setRowSelected_unknown _ _ _ _ Htb). simpl.
      by rewrite (setRowSelected_unknown _ _ _ _ Htb).
  - destruct (tableData st !! viewId) as [tb|] eqn:Htb.
    + destruct (truthy viewId) eqn:Hv.
      * rewrite (selectAll_run _ _ _ _ Hv Htb). simpl.
        erewrite selectAll_run; [|done|by simpl; rewrite lookup_insert_eq]. simpl.
        by rewrite !insert_insert_eq.
      * unfold selectAll. rewrite Hv. simpl. by rewrite ?Hv.
    + rewrite (selectAll_unknown _ _ _ Htb). simpl.
      by rewrite (selectAll_unknown _ _ _ Htb).
  - destruct (tableData st !! viewId) as [tb|] eqn:Htb.
    + destruct (truthy viewId) eqn:Hv.
      * rewrite (clearSelections_run _ _ _ Hv Htb). simpl.
        erewrite clearSelections_run; [|done|by simpl; rewrite lookup_insert_eq]. simpl.
        rewrite !insert_insert_eq. split; [done|]. simpl. apply delete_delete_eq.
      * unfold clearSelections. rewrite Hv. simpl. by rewrite ?Hv.
    + rewrite (clearSelections_unknown _ _ Htb). simpl.
      by rewrite (clearSelections_unknown _ _ Htb).
  - destruct (processInfiniteScrollRows_state viewId newRows st) as [boxes Hb].
    unfold mbind, M_bind. rewrite Hb. simpl.
    destruct (processInfiniteScrollRows_state viewId newRows st) as [boxes' Hb'].
    by rewrite Hb'.
Qed.

(** X5: in the [htmx:afterSwap] handler the attribute
    [data-record-ids] is parsed outside any [try]: when the attribute is
    no JSON text, or the text of an array with an element [String]
    throws on, the handler throws on a swap that is no infinite scroll,
    and the store is left as it was. *)
Theorem afterSwap_malformed_record_ids `{Platform} (viewId : string) (newRows : list string)
    (a : string) (e : exn) (st : State) :
  truthy viewId = true →
  truthy a = true →
  JSON_parse a = Throw e ∨ (∃ v, JSON_parse a = Normal v ∧ recordIds_strings v = Throw e) →
  afterSwap viewId false newRows (Some a) st = (Throw e, st).
Proof.
  intros Hv Ha Hbad. unfold afterSwap. rewrite Hv, Ha. unfold_M.
  destruct Hbad as [Hp|(v & Hp & Hr)]; rewrite Hp; [done|].
  by rewrite (initializeRecordIds_throws _ _ _ _ Hv Hr).
Qed.

Lemma afterSwap_malformed_record_ids_witness :
  afterSwap "v1" false [] (Some "[1, 2") Scenario.fresh_v1 = (Throw SyntaxError, Scenario.fresh_v1)
  ∧ afterSwap "v1" false []
      (Some ("[{" +:+ String Reference.dquote ("toString" +:+ String Reference.dquote ":1}]")))
      Scenario.fresh_v1
    = (Throw TypeError, Scenario.fresh_v1).
Proof.
  split.
  - apply (@afterSwap_malformed_record_ids reference_platform "v1" [] "[1, 2" SyntaxError);
      [reflexivity|reflexivity|left; reflexivity].
  - apply (@afterSwap_malformed_record_ids reference_platform "v1" []
             ("[{" +:+ String Reference.dquote ("toString" +:+ String Reference.dquote ":1}]"))
             TypeError);
      [reflexivity|reflexivity|].
    right. exists (JArr [JObj [("toString", JNum "1")]]). split; reflexivity.
Defined.

(** X6: the document-ready handler initialises the table containers
    one after the other and parses each attribute [data-record-ids]
    outside any [try]: at the first container whose attribute is no JSON
    text the handler throws, and no view other than those of the
    containers before it has its table touched, the views of the
    containers after it included. *)
Theorem initializeTables_stops `{Platform} (before after : list (string * option string))
    (viewId a : string) (e : exn) (st : State) :
  truthy a = true →
  JSON_parse a = Throw e →
  ∃ e' st',
    initializeTables (before ++ (viewId, Some a) :: after) st = (Throw e', st')
    ∧ ∀ w, w ∉ fst <$> before → tableData st' !! w = tableData st !! w.
Proof.
  intros Ha Hp. revert st. induction before as [|container before IH]; intros st.
  - exists e, st. split; [|done]. simpl. unfold mbind, M_bind.
    rewrite (initializeTable_parse_throws (viewId, Some a) e); [done|].
    simpl. by rewrite Ha.
  - simpl. unfold mbind at 1, M_bind at 1.
    destruct (initializeTable container st) as [[[]|e1] st1] eqn:Hone.
    + destruct (IH st1) as (e' & st' & Hrun & Hrest).
      exists e', st'. split; [done|].
      intros w Hw. apply not_elem_of_cons in Hw as [Hw1 Hw2].
      rewrite (Hrest w Hw2).
      by apply (initializeTable_other_view container w st st1 (Normal ())).
    + exists e1, st1. split; [done|].
      intros w Hw. apply not_elem_of_cons in Hw as [Hw1 Hw2].
      by apply (initializeTable_other_view container w st st1 (Throw e1)).
Qed.

Lemma initializeTables_stops_witness :
  ∃ e' st',
    initializeTables [("v1", Some "[1,2]"); ("v2", Some "[1,"); ("v3", Some "[5]")] empty_state
    = (Throw e', st')
    ∧ ∀ w, w ∉ fst <$> [("v1", Some "[1,2]")] → tableData st' !! w = tableData empty_state !! w.
Proof.
  apply (@initializeTables_stops reference_platform [("v1", Some "[1,2]")] [("v3", Some "[5]")]
           "v2" "[1," SyntaxError empty_state); reflexivity.
Defined.

(** X7: [exportSelected] does not change the store.  It first calls
    jQuery on the selector of the table container: when jQuery refuses
    the selector, it throws what jQuery threw and nothing else happens.
    When jQuery accepts it, the function returns; it alerts exactly
    when the view has no selection in the store and no row box is
    checked; otherwise the text it hands to the export form reads back
    as the selection of the store when there is one, whatever boxes are
    checked, and as the checked boxes only when the store has none. *)
Theorem exportSelected_exports_selection `{Platform} (viewId : string)
    (checkedBoxes : list string) (st : State) :
  match jQuery (container_selector viewId) with
  | Throw e => exportSelected viewId checkedBoxes st = (Throw e, st)
  | Normal _ =>
      ∃ outcome,
        exportSelected viewId checkedBoxes st = (Normal outcome, st)
        ∧ (outcome = NoItemsAlert ↔ selectedRecordIds viewId st = [] ∧ checkedBoxes = [])
        ∧ ∀ text, outcome = ExportOpened text →
            parse_selection text
            = Normal (match selectedRecordIds viewId st with
                      | [] => checkedBoxes
                      | _ :: _ => selectedRecordIds viewId st
                      end)
  end.
Proof.
  unfold exportSelected, selectedRecordIds. unfold_M.
  destruct (jQuery (container_selector viewId)) as [[]|e]; [|done].
  destruct (tableData st !! viewId) as [tb|]; [destruct (Table.selectedRecordIds tb) as [|x l]|];
    try destruct checkedBoxes as [|y l']; eexists; (split; [done|]);
    (split; [split; [intros Hout|intros [Hsel Hboxes]]; by simplify_eq|]);
    intros text Hout; simplify_eq; apply parse_selection_stringify.
Qed.

(** X8: the bulk-delete button of a view, whose [id] is
    [bulk-delete-btn-] followed by the view identifier, triggers the
    request exactly when the store holds a selection for this view, and
    shows the notice otherwise; the store is not changed. *)
Theorem doBulkDeleteRequest_button (viewId : string) (st : State) :
  doBulkDeleteRequest (Some ("bulk-delete-btn-" +:+ viewId)) st
  = (Normal (match selectedRecordIds viewId st with
             | [] => NoRowsSelectedShown
             | _ :: _ => DoRequestTriggered
             end), st).
Proof.
  unfold doBulkDeleteRequest. rewrite replace_first_prefix.
  by destruct (selectedRecordIds viewId st).
Qed.

(** X9: on a known view [selectAll(false, viewId)] and
    [clearSelections(viewId)] leave the same tables; they differ in
    session storage, where the first writes the text of the empty
    selection and the second removes the entry; an initialisation of
    the view that follows gives the same tables after either. *)
Theorem deselect_all_or_clear `{Platform} (viewId : string) (tb : Table.t) (st : State)
    (recordIds : jsval) :
  truthy viewId = true →
  tableData st !! viewId = Some tb →
  tableData (snd (selectAll false viewId st)) = tableData (snd (clearSelections viewId st))
  ∧ sessionStorage (snd (selectAll false viewId st)) !! storageKey viewId
    = Some (JSON_stringify [])
  ∧ sessionStorage (snd (clearSelections viewId st)) !! storageKey viewId = None
  ∧ tableData (snd (initializeRecordIds recordIds viewId (snd (selectAll false viewId st))))
    = tableData (snd (initializeRecordIds recordIds viewId (snd (clearSelections viewId st)))).
Proof.
  intros Hv Htb.
  rewrite (selectAll_run _ _ _ _ Hv Htb), (clearSelections_run _ _ _ Hv Htb). simpl.
  split; [done|]. split; [by rewrite lookup_insert_eq|].
  split; [by rewrite lookup_delete_eq|].
  destruct (recordIds_strings recordIds) as [allIds|e] eqn:Hr.
  - destruct (jQuery (container_selector viewId)) as [[]|e] eqn:Hj.
    + rewrite !(initializeRecordIds_run _ _ _ _ Hv Hr Hj). simpl.
      rewrite lookup_insert_eq, lookup_delete_eq.
      f_equal. apply initial_table_rehydrate. by rewrite rehydrate_stringify.
    + by rewrite !(initializeRecordIds_refused _ _ _ _ _ Hv Hr Hj).
  - by rewrite !(initializeRecordIds_throws _ _ _ _ Hv Hr).
Qed.

Lemma deselect_all_or_clear_witness :
  sessionStorage (snd (selectAll false "v1" Scenario.fresh_v1)) !! storageKey "v1" = Some "[]"
  ∧ sessionStorage (snd (clearSelections "v1" Scenario.fresh_v1)) !! storageKey "v1" = None.
Proof.
  destruct (@deselect_all_or_clear reference_platform "v1" (Table.mk ["1"; "2"; "3"] [] false)
              Scenario.fresh_v1 (JArr []) eq_refl eq_refl) as (_ & Hs & Hc & _).
  split; [exact Hs|exact Hc].
Defined.

(** ** The flag and the selection *)

Section Flag.
Context `{Platform}.

Lemma flag_sound_exec (o : op) (st st' : State) (c : completion unit) :
  flag_sound st → exec o st = (c, st') → flag_sound st'.
Proof.
  intros Hs Hexec v t Ht Hflag y Hy.
  destruct (exec_effect _ _ _ _ Hexec) as [[Heq _]|Hwr].
  { rewrite Heq in Ht. by apply (Hs v t). }
  destruct o as [recordIds w|w id checked|checked w|w|w newRows]; simpl in Hwr.
  - destruct Hwr as (_ & allIds & _ & Htab & _). rewrite Htab in Ht.
    destruct (decide (w = v)) as [->|Hw].
    + rewrite lookup_insert_eq in Ht. simplify_eq.
      destruct (filed_table_cases v allIds (sessionStorage st !! storageKey v)) as [Heq|Heq];
        rewrite Heq in *; [|done].
      rewrite initial_table_allSelected in Hflag. rewrite initial_table_allRecordIds in Hy.
      rewrite initial_table_selected. destruct allIds as [|a allIds]; [done|].
      apply covers_true in Hflag as [_ Hall]. by apply Hall.
    + rewrite lookup_insert_ne in Ht by done. by apply (Hs v t).
  - destruct Hwr as (tb & Htb & Htab & _). rewrite Htab in Ht.
    destruct (decide (w = v)) as [->|Hw].
    + rewrite lookup_insert_eq in Ht. simplify_eq. simpl in *.
      apply andb_true_iff in Hflag as [-> Hflag].
      apply elem_of_marked. left. by apply (Hs v tb).
    + rewrite lookup_insert_ne in Ht by done. by apply (Hs v t).
  - destruct Hwr as (_ & tb & Htb & Htab & _). rewrite Htab in Ht.
    destruct (decide (w = v)) as [->|Hw].
    + rewrite lookup_insert_eq in Ht. simplify_eq. simpl in *. by subst checked.
    + rewrite lookup_insert_ne in Ht by done. by apply (Hs v t).
  - destruct Hwr as (_ & tb & Htb & Htab & _). rewrite Htab in Ht.
    destruct (decide (w = v)) as [->|Hw].
    + rewrite lookup_insert_eq in Ht. by simplify_eq.
    + rewrite lookup_insert_ne in Ht by done. by apply (Hs v t).
  - done.
Qed.

Lemma flag_sound_run (ops : list op) (st st' : State) (c : completion unit) :
  flag_sound st → run ops st = (c, st') → flag_sound st'.
Proof.
  intros Hs Hrun.
  apply (run_invariant flag_sound (λ _, True)) with (ops := ops) (st := st) (c := c);
    [|by apply Forall_forall|done..].
  intros o s c' s' _. apply flag_sound_exec.
Qed.

Lemma flag_sound_fresh (st : State) : tableData st = ∅ → flag_sound st.
Proof. intros Hfresh v t Ht. by rewrite Hfresh, lookup_empty in Ht. Qed.

End Flag.

(** X10: [allSelected] is sound: in every state reached by calls from
    a store without tables, a view flagged as all selected has every
    one of its records in its selection.  (The converse fails: rows
    ticked one by one select every record and leave the flag false.) *)
Theorem allSelected_is_sound `{Platform} (ops : list op) (st st' : State)
    (c : completion unit) (viewId : string) (tb : Table.t) (x : string) :
  tableData st = ∅ →
  run ops st = (c, st') →
  tableData st' !! viewId = Some tb →
  Table.allSelected tb = true →
  x ∈ Table.allRecordIds tb →
  x ∈ Table.selectedRecordIds tb.
Proof.
  intros Hfresh Hrun Htb Hflag Hx.
  assert (flag_sound st') as Hs by (eapply flag_sound_run; [by apply flag_sound_fresh|done]).
  by apply (Hs viewId tb).
Qed.

Lemma allSelected_is_sound_witness :
  "2" ∈ selectedRecordIds "v1"
          (snd (run [Initialize (JArr [JStr "1"; JStr "2"]) "v1"; SelectAll true "v1";
                     SetRowSelected "v1" "1" true]
                  empty_state)).
Proof.
  pose (ops := [Initialize (JArr [JStr "1"; JStr "2"]) "v1"; SelectAll true "v1";
                SetRowSelected "v1" "1" true]).
  apply (@allSelected_is_sound reference_platform ops empty_state
           (snd (run ops empty_state)) (fst (run ops empty_state))
           "v1" (Table.mk ["1"; "2"] ["1"; "2"] true) "2").
  - reflexivity.
  - apply surjective_pairing.
  - vm_compute. reflexivity.
  - reflexivity.
  - simpl. right. by left.
Defined.

(** ** What the store shows *)

(** X11: the select-all box follows the flag: in every state reached
    by calls from a store without tables, for a view flagged as all
    selected whose table shows at least one row box, all of records of
    the view, [updateCheckboxStates] checks every row box and the
    select-all box. *)
Theorem select_all_box_follows_flag `{Platform} (ops : list op) (st st' : State)
    (c : completion unit) (viewId : string) (tb : Table.t) (rowBoxes : list string) :
  tableData st = ∅ →
  run ops st = (c, st') →
  tableData st' !! viewId = Some tb →
  Table.allSelected tb = true →
  rowBoxes ≠ [] →
  Forall (λ id, id ∈ Table.allRecordIds tb) rowBoxes →
  updateCheckboxStates_dom viewId rowBoxes st' = Some (replicate (length rowBoxes) true, true).
Proof.
  intros Hfresh Hrun Htb Hflag Hne Hrows.
  assert (flag_sound st') as Hs by (eapply flag_sound_run; [by apply flag_sound_fresh|done]).
  assert (truthy viewId = true) as Hv.
  { eapply (keys_truthy_run ops st st'); [by apply keys_truthy_fresh|done|by eexists]. }
  unfold updateCheckboxStates_dom. rewrite Hv, Htb. simpl.
  assert ((λ id, includes (Table.selectedRecordIds tb) id) <$> rowBoxes
          = replicate (length rowBoxes) true) as ->.
  { clear Hne. induction Hrows as [|id l Hid Hl IH]; [done|].
    rewrite fmap_cons, IH. cbn [length replicate]. f_equal.
    apply includes_elem_of. by apply (Hs viewId tb). }
  f_equal. f_equal. destruct rowBoxes as [|id l]; [done|]. clear.
  assert (∀ n, length (List.filter (λ b : bool, b) (replicate n true)) = n) as Hcount.
  { intros n. induction n as [|n IH]; [done|]. simpl. by rewrite IH. }
  rewrite Hcount. simpl. by rewrite Nat.eqb_refl.
Qed.

Lemma select_all_box_follows_flag_witness :
  updateCheckboxStates_dom "v1" ["2"; "1"]
    (snd (run [Initialize (JArr [JStr "1"; JStr "2"]) "v1"; SelectAll true "v1"] empty_state))
  = Some ([true; true], true).
Proof.
  pose (ops := [Initialize (JArr [JStr "1"; JStr "2"]) "v1"; SelectAll true "v1"]).
  apply (@select_all_box_follows_flag reference_platform ops empty_state
           (snd (run ops empty_state)) (fst (run ops empty_state))
           "v1" (Table.mk ["1"; "2"] ["1"; "2"] true) ["2"; "1"]).
  - reflexivity.
  - apply surjective_pairing.
  - vm_compute. reflexivity.
  - reflexivity.
  - discriminate.
  - repeat constructor.
Defined.

(** X13: when the select-all button is hidden, nothing is left to
    select: in every state reached by calls from a store without
    tables, if [updateActionButtonsVisibility] hides the select-all
    button of a view, every record of the view is selected. *)
Theorem select_all_button_hidden `{Platform} (ops : list op) (st st' : State)
    (c : completion unit) (viewId : string) (buttons : action_buttons) (x : string) :
  tableData st = ∅ →
  run ops st = (c, st') →
  updateActionButtonsVisibility_dom viewId st' = Some buttons →
  select_all_btn_shown buttons = false →
  x ∈ allRecordIds viewId st' →
  x ∈ selectedRecordIds viewId st'.
Proof.
  intros Hfresh Hrun Hb Hhidden Hx.
  assert (flag_sound st') as Hs by (eapply flag_sound_run; [by apply flag_sound_fresh|done]).
  unfold updateActionButtonsVisibility_dom in Hb. unfold allRecordIds in Hx.
  unfold selectedRecordIds.
  destruct (truthy viewId); [|done]. simpl in Hb.
  destruct (tableData st' !! viewId) as [tb|] eqn:Htb; [|done].
  simplify_eq. simpl in Hhidden.
  apply andb_false_iff in Hhidden as [Hnone|Hflag].
  - destruct (Table.allRecordIds tb); [by apply elem_of_nil in Hx|done].
  - apply negb_false_iff in Hflag. by apply (Hs viewId tb).
Qed.

Lemma select_all_button_hidden_witness :
  "2" ∈ selectedRecordIds "v1"
          (snd (run [Initialize (JArr [JStr "1"; JStr "2"]) "v1"; SelectAll true "v1"]
                  empty_state)).
Proof.
  pose (ops := [Initialize (JArr [JStr "1"; JStr "2"]) "v1"; SelectAll true "v1"]).
  apply (@select_all_button_hidden reference_platform ops empty_state
           (snd (run ops empty_state)) (fst (run ops empty_state))
           "v1" (mkButtons true (Some 2) false) "2").
  - reflexivity.
  - apply surjective_pairing.
  - vm_compute. reflexivity.
  - reflexivity.
  - vm_compute. right. by left.
Defined.

(** ** The order of the rows *)

Section TableRowsFacts.
Context {Row : Type} `{EqDecision Row}.
Context (is_separator : Row → bool) (is_sentinel : Row → bool) (box_value : Row → option string).

Lemma elem_of_List_filter (p : Row → bool) (l : list Row) (x : Row) :
  x ∈ List.filter p l ↔ x ∈ l ∧ p x = true.
Proof. rewrite !list_elem_of_In. apply filter_In. Qed.

Lemma List_filter_all (p : Row → bool) (l : list Row) :
  Forall (λ x, p x = true) l → List.filter p l = l.
Proof.
  induction 1 as [|x l Hx Hl IH]; [done|]. simpl. by rewrite Hx, IH.
Qed.

Lemma List_filter_none (p : Row → bool) (l : list Row) :
  Forall (λ x, p x = false) l → List.filter p l = [].
Proof.
  induction 1 as [|x l Hx Hl IH]; [done|]. simpl. by rewrite Hx, IH.
Qed.

Lemma Forall_List_filter (p : Row → bool) (l : list Row) :
  Forall (λ x, p x = true) (List.filter p l).
Proof.
  induction l as [|x l IH]; [done|]. simpl.
  destruct (p x) eqn:Hx; [by constructor|done].
Qed.

Lemma List_filter_sublist (p : Row → bool) (l : list Row) : sublist (List.filter p l) l.
Proof.
  induction l as [|x l IH]; [done|]. simpl.
  destruct (p x); [by apply sublist_skip|by apply sublist_cons].
Qed.

Lemma List_filter_partition (p : Row → bool) (l : list Row) :
  List.filter p l ++ List.filter (λ x, negb (p x)) l ≡ₚ l.
Proof.
  induction l as [|x l IH]; [done|]. simpl. destruct (p x); simpl.
  - by rewrite IH.
  - by rewrite <- Permutation_middle, IH.
Qed.

Lemma append_new (body : list Row) (r : Row) : r ∉ body → append body r = body ++ [r].
Proof.
  intros Hr. unfold append. f_equal. apply List_filter_all.
  apply Forall_forall. intros x Hx. apply negb_true_iff, bool_decide_eq_false.
  intros ->. done.
Qed.

Lemma fold_append_new (rows body : list Row) :
  NoDup (body ++ rows) → fold_left append rows body = body ++ rows.
Proof.
  revert body. induction rows as [|r rows IH]; intros body Hnd; simpl.
  - by rewrite app_nil_r.
  - assert (r ∉ body) as Hr.
    { apply NoDup_app in Hnd as (_ & Hdis & _). intros Hin. apply (Hdis r Hin). by left. }
    rewrite (append_new _ _ Hr), IH; [by rewrite <- app_assoc|].
    by rewrite <- app_assoc.
Qed.

Lemma elem_of_fold_append (rows body : list Row) (x : Row) :
  x ∈ fold_left append rows body → x ∈ body ∨ x ∈ rows.
Proof.
  revert body. induction rows as [|r rows IH]; intros body Hx; simpl in Hx; [by left|].
  destruct (IH _ Hx) as [Hb|Hr].
  - unfold append in Hb. apply elem_of_app in Hb as [Hb|Hb].
    + left. by apply elem_of_List_filter in Hb as [Hb _].
    + right. apply list_elem_of_singleton in Hb as ->. by left.
  - right. by right.
Qed.

Lemma last_sentinel_Some (rows : list Row) (r : Row) :
  last_sentinel is_sentinel rows = Some r → r ∈ rows ∧ is_sentinel r = true.
Proof.
  unfold last_sentinel. intros Hl. apply elem_of_List_filter.
  apply last_Some in Hl as [l' ->]. apply elem_of_app. right. by left.
Qed.

Lemma NoDup_List_filter (p : Row → bool) (l : list Row) : NoDup l → NoDup (List.filter p l).
Proof. intros Hnd. eapply sublist_NoDup; [done|apply List_filter_sublist]. Qed.

Lemma NoDup_collected (tb : Table.t) (allRows : list Row) :
  NoDup allRows → NoDup (collected is_sentinel box_value tb allRows).
Proof.
  intros Hnd. unfold collected. rewrite app_assoc. apply NoDup_app. split; [|split].
  - rewrite List_filter_partition. by apply NoDup_List_filter.
  - intros x Hx Hs.
    assert (is_sentinel x = false) as Hdata.
    { apply elem_of_app in Hx as [Hx|Hx]; apply elem_of_List_filter in Hx as [Hx _];
        apply elem_of_List_filter in Hx as [_ Hx]; by apply negb_true_iff in Hx. }
    destruct (last_sentinel is_sentinel allRows) as [r|] eqn:Hl; [|by apply elem_of_nil in Hs].
    apply list_elem_of_singleton in Hs as ->.
    apply last_sentinel_Some in Hl as [_ Hl]. by rewrite Hl in Hdata.
  - destruct (last_sentinel is_sentinel allRows); [apply NoDup_singleton|apply NoDup_nil_2].
Qed.

Lemma reorderTableRows_collected (viewId : string) (tb : Table.t) (bodyRows rowsToAdd : list Row) :
  truthy viewId = true →
  NoDup (List.filter (λ r, negb (is_separator r)) bodyRows ++ rowsToAdd) →
  reorderTableRows is_separator is_sentinel box_value viewId (Some tb) bodyRows rowsToAdd
  = collected is_sentinel box_value tb (List.filter (λ r, negb (is_separator r)) bodyRows ++ rowsToAdd).
Proof.
  intros Hv Hnd. unfold reorderTableRows. rewrite Hv. simpl.
  rewrite fold_append_new; [done|]. simpl. by apply NoDup_collected.
Qed.

End TableRowsFacts.

(** X14: [reorderTableRows] on a known view, when the rows to add are
    not rows of the body already: the body becomes the selected rows,
    then the unselected rows, then the sentinel row found last; every
    row other than a sentinel is there once, and within the selected
    and within the unselected rows the order is the one the rows had. *)
Theorem reorderTableRows_selected_first {Row : Type} `{EqDecision Row}
    (is_separator is_sentinel : Row → bool) (box_value : Row → option string)
    (viewId : string) (tb : Table.t) (bodyRows rowsToAdd : list Row) :
  truthy viewId = true →
  NoDup (List.filter (λ r, negb (is_separator r)) bodyRows ++ rowsToAdd) →
  ∃ selectedRows unselectedRows,
    reorderTableRows is_separator is_sentinel box_value viewId (Some tb) bodyRows rowsToAdd
    = selectedRows ++ unselectedRows
      ++ match last_sentinel is_sentinel
                 (List.filter (λ r, negb (is_separator r)) bodyRows ++ rowsToAdd) with
         | Some sentinelRow => [sentinelRow]
         | None => []
         end
    ∧ Forall (λ r, row_selected box_value tb r = true) selectedRows
    ∧ Forall (λ r, row_selected box_value tb r = false) unselectedRows
    ∧ selectedRows ++ unselectedRows
      ≡ₚ List.filter (λ r, negb (is_sentinel r))
           (List.filter (λ r, negb (is_separator r)) bodyRows ++ rowsToAdd)
    ∧ sublist selectedRows (List.filter (λ r, negb (is_separator r)) bodyRows ++ rowsToAdd)
    ∧ sublist unselectedRows (List.filter (λ r, negb (is_separator r)) bodyRows ++ rowsToAdd).
Proof.
  intros Hv Hnd. rewrite (reorderTableRows_collected _ _ _ _ _ _ _ Hv Hnd).
  set (allRows := List.filter (λ r, negb (is_separator r)) bodyRows ++ rowsToAdd).
  set (dataRows := List.filter (λ r, negb (is_sentinel r)) allRows).
  exists (List.filter (row_selected box_value tb) dataRows),
         (List.filter (λ r, negb (row_selected box_value tb r)) dataRows).
  split; [done|]. split; [apply Forall_List_filter|]. split.
  { eapply Forall_impl; [apply Forall_List_filter|]. intros r. apply negb_true_iff. }
  split; [apply List_filter_partition|].
  split; (etrans; [apply List_filter_sublist|apply List_filter_sublist]).
Qed.

Lemma reorderTableRows_selected_first_witness :
  reorderTableRows RowScenario.is_separator RowScenario.is_sentinel RowScenario.box_value
    "v1" (Some RowScenario.table_2_4)
    [RowScenario.Data "1"; RowScenario.Separator 0; RowScenario.Data "2";
     RowScenario.Sentinel 0]
    [RowScenario.Data "3"; RowScenario.Data "4"; RowScenario.Sentinel 1]
  = [RowScenario.Data "2"; RowScenario.Data "4"; RowScenario.Data "1"; RowScenario.Data "3";
     RowScenario.Sentinel 1].
Proof.
  destruct (reorderTableRows_selected_first
              RowScenario.is_separator RowScenario.is_sentinel RowScenario.box_value
              "v1" RowScenario.table_2_4
              [RowScenario.Data "1"; RowScenario.Separator 0; RowScenario.Data "2";
               RowScenario.Sentinel 0]
              [RowScenario.Data "3"; RowScenario.Data "4"; RowScenario.Sentinel 1])
    as (selectedRows & unselectedRows & Heq & _).
  - reflexivity.
  - apply (bool_decide_unpack _). vm_compute. exact I.
  - reflexivity.
Defined.

(** X15: [reorderTableRows] is idempotent: called again with no rows
    to add, on the body the first call left, it leaves this body as it
    is, when the rows added by the first call were no rows of the body
    and no separators. *)
Theorem reorderTableRows_again {Row : Type} `{EqDecision Row}
    (is_separator is_sentinel : Row → bool) (box_value : Row → option string)
    (viewId : string) (tb : Table.t) (bodyRows rowsToAdd : list Row) :
  truthy viewId = true →
  NoDup (List.filter (λ r, negb (is_separator r)) bodyRows ++ rowsToAdd) →
  Forall (λ r, is_separator r = false) rowsToAdd →
  reorderTableRows is_separator is_sentinel box_value viewId (Some tb)
    (reorderTableRows is_separator is_sentinel box_value viewId (Some tb) bodyRows rowsToAdd) []
  = reorderTableRows is_separator is_sentinel box_value viewId (Some tb) bodyRows rowsToAdd.
Proof.
  intros Hv Hnd Hadd. rewrite (reorderTableRows_collected _ _ _ _ _ _ _ Hv Hnd).
  set (allRows := List.filter (λ r, negb (is_separator r)) bodyRows ++ rowsToAdd) in *.
  assert (Forall (λ r, negb (is_separator r) = true) allRows) as Hsep.
  { apply Forall_app. split; [apply Forall_List_filter|].
    eapply Forall_impl; [exact Hadd|]. intros r. apply negb_true_iff. }
  assert (NoDup (collected is_sentinel box_value tb allRows)) as Hnd' by by apply NoDup_collected.
  assert (Forall (λ r, negb (is_separator r) = true) (collected is_sentinel box_value tb allRows))
    as Hsep'.
  { apply Forall_forall. intros r Hr. rewrite Forall_forall in Hsep. apply Hsep.
    unfold collected in Hr. rewrite !elem_of_app in Hr. destruct Hr as [Hr|[Hr|Hr]].
    - apply elem_of_List_filter in Hr as [Hr _]. by apply elem_of_List_filter in Hr as [Hr _].
    - apply elem_of_List_filter in Hr as [Hr _]. by apply elem_of_List_filter in Hr as [Hr _].
    - destruct (last_sentinel is_sentinel allRows) as [s|] eqn:Hl; [|by apply elem_of_nil in Hr].
      apply list_elem_of_singleton in Hr as ->. by apply last_sentinel_Some in Hl as [Hl _]. }
  rewrite reorderTableRows_collected; [|done|].
  2:{ rewrite app_nil_r, List_filter_all; done. }
  rewrite app_nil_r, (List_filter_all _ _ Hsep').
  unfold collected at 1.
  set (dataRows := List.filter (λ r, negb (is_sentinel r)) allRows).
  set (S := List.filter (row_selected box_value tb) dataRows).
  set (U := List.filter (λ r, negb (row_selected box_value tb r)) dataRows).
  set (Z := match last_sentinel is_sentinel allRows with Some r => [r] | None => [] end).
  assert (collected is_sentinel box_value tb allRows = S ++ U ++ Z) as -> by done.
  assert (Forall (λ r, negb (is_sentinel r) = true) (S ++ U)) as Hdata.
  { apply Forall_app. split; apply Forall_forall; intros r Hr;
      apply elem_of_List_filter in Hr as [Hr _]; by apply elem_of_List_filter in Hr as [_ Hr]. }
  assert (Forall (λ r, is_sentinel r = true) Z) as Hz.
  { subst Z. destruct (last_sentinel is_sentinel allRows) as [s|] eqn:Hl; [|done].
    apply last_sentinel_Some in Hl as [_ Hl]. by repeat constructor. }
  assert (List.filter (λ r, negb (is_sentinel r)) (S ++ U ++ Z) = S ++ U) as ->.
  { rewrite app_assoc, List.filter_app, (List_filter_all _ _ Hdata), List_filter_none.
    - by rewrite app_nil_r.
    - eapply Forall_impl; [exact Hz|]. intros r Hr. by rewrite Hr. }
  assert (last_sentinel is_sentinel (S ++ U ++ Z) = last_sentinel is_sentinel allRows) as ->.
  { unfold last_sentinel at 1. rewrite app_assoc, List.filter_app, List_filter_none.
    - simpl. rewrite (List_filter_all _ _ Hz). subst Z.
      by destruct (last_sentinel is_sentinel allRows).
    - eapply Forall_impl; [exact Hdata|]. intros r. apply negb_true_iff. }
  fold Z. f_equal; [|f_equal].
  - rewrite List.filter_app, List_filter_all, List_filter_none; [by rewrite app_nil_r| |].
    + subst U. eapply Forall_impl; [apply Forall_List_filter|]. intros r. apply negb_true_iff.
    + apply Forall_List_filter.
  - rewrite List.filter_app, List_filter_none, List_filter_all; [done| |].
    + apply Forall_List_filter.
    + subst S. eapply Forall_impl; [apply Forall_List_filter|]. intros r Hr. by rewrite Hr.
Qed.

Lemma reorderTableRows_again_witness :
  reorderTableRows RowScenario.is_separator RowScenario.is_sentinel RowScenario.box_value
    "v1" (Some RowScenario.table_2_4)
    (reorderTableRows RowScenario.is_separator RowScenario.is_sentinel RowScenario.box_value
       "v1" (Some RowScenario.table_2_4)
       [RowScenario.Data "1"; RowScenario.Separator 0; RowScenario.Data "2";
        RowScenario.Sentinel 0]
       [RowScenario.Data "3"; RowScenario.Data "4"; RowScenario.Sentinel 1])
    []
  = reorderTableRows RowScenario.is_separator RowScenario.is_sentinel RowScenario.box_value
      "v1" (Some RowScenario.table_2_4)
      [RowScenario.Data "1"; RowScenario.Separator 0; RowScenario.Data "2";
       RowScenario.Sentinel 0]
      [RowScenario.Data "3"; RowScenario.Data "4"; RowScenario.Sentinel 1].
Proof.
  apply reorderTableRows_again.
  - reflexivity.
  - apply (bool_decide_unpack _). vm_compute. exact I.
  - repeat constructor.
Defined.

(** X16: [reorderTableRows] on a known view empties the body before
    it appends the rows, and no separator row of the body is appended:
    a separator row in the body after the call came with the rows to
    add. *)
Theorem reorderTableRows_drops_separators {Row : Type} `{EqDecision Row}
    (is_separator is_sentinel : Row → bool) (box_value : Row → option string)
    (viewId : string) (tb : Table.t) (bodyRows rowsToAdd : list Row) (r : Row) :
  truthy viewId = true →
  r ∈ reorderTableRows is_separator is_sentinel box_value viewId (Some tb) bodyRows rowsToAdd →
  is_separator r = true →
  r ∈ rowsToAdd.
Proof.
  intros Hv Hr Hsep. unfold reorderTableRows in Hr. rewrite Hv in Hr. simpl in Hr.
  apply elem_of_fold_append in Hr as [Hr|Hr]; [by apply elem_of_nil in Hr|].
  assert (r ∈ List.filter (λ r, negb (is_separator r)) bodyRows ++ rowsToAdd) as Hall.
  { unfold collected in Hr. rewrite !elem_of_app in Hr. destruct Hr as [Hr|[Hr|Hr]].
    - apply elem_of_List_filter in Hr as [Hr _]. by apply elem_of_List_filter in Hr as [Hr _].
    - apply elem_of_List_filter in Hr as [Hr _]. by apply elem_of_List_filter in Hr as [Hr _].
    - destruct (last_sentinel is_sentinel _) as [s|] eqn:Hl; [|by apply elem_of_nil in Hr].
      apply list_elem_of_singleton in Hr as ->. by apply last_sentinel_Some in Hl as [Hl _]. }
  apply elem_of_app in Hall as [Hall|Hall]; [|done].
  apply elem_of_List_filter in Hall as [_ Hall]. by rewrite Hsep in Hall.
Qed.

Lemma reorderTableRows_drops_separators_witness :
  RowScenario.Separator 7
  ∈ [RowScenario.Data "3"; RowScenario.Separator 7].
Proof.
  apply (reorderTableRows_drops_separators
           RowScenario.is_separator RowScenario.is_sentinel RowScenario.box_value
           "v1" RowScenario.table_2_4
           [RowScenario.Data "1"; RowScenario.Separator 0; RowScenario.Data "2"]
           [RowScenario.Data "3"; RowScenario.Separator 7]).
  - reflexivity.
  - apply (bool_decide_unpack _). vm_compute. exact I.
  - reflexivity.
Defined.

(** ** More on the name of a download, and on the swap *)

Module DownloadSwapFacts.
Import Download DownloadSwap.

Lemma append_empty_r (s : string) : s +:+ "" = s.
Proof.
  induction s as [|c s IH]; [done|].
  change (String c (s +:+ "") = String c s). by rewrite IH.
Qed.

Lemma strip_quotes_plain (s : string) : has_quote s = false → strip_quotes s = s.
Proof.
  induction s as [|c s IH]; [done|]. simpl.
  destruct (is_quote c); [done|]. simpl. intros Hs. by rewrite IH.
Qed.

Lemma strip_quotes_app (s t : string) : strip_quotes (s +:+ t) = strip_quotes s +:+ strip_quotes t.
Proof.
  induction s as [|c s IH]; [done|]. simpl. rewrite IH. by destruct (is_quote c).
Qed.

Lemma startsWith_plain (s : string) : has_quote s = false → startsWith s "UTF-8''" = false.
Proof.
  intros Hs. destruct (startsWith s "UTF-8''") eqn:Hst; [|done].
  apply DownloadFacts.startsWith_mark_has_quote in Hst. by rewrite Hs in Hst.
Qed.

Lemma quoted_body_closed (q : ascii) (name rest : string) :
  all_chars (λ c, negb (Ascii.eqb c q) && negb (line_terminator c)) name = true →
  quoted_body q (name +:+ String q rest) = Some name.
Proof.
  induction name as [|c name IH]; simpl.
  - by rewrite Ascii.eqb_refl.
  - intros Hc. apply andb_true_iff in Hc as [Hc Hname].
    apply andb_true_iff in Hc as [Hq Hl].
    apply negb_true_iff in Hq, Hl. rewrite Hq, Hl. by rewrite IH.
Qed.

Lemma bare_value_end (name : string) :
  all_chars bare_value_char name = true → bare_value name = name.
Proof.
  induction name as [|c name IH]; [done|]. simpl.
  intros Hc. apply andb_true_iff in Hc as [Hc Hname]. by rewrite Hc, IH.
Qed.

Lemma bare_value_semicolon (name rest : string) :
  all_chars bare_value_char name = true → bare_value (name +:+ String ";" rest) = name.
Proof.
  induction name as [|c name IH]; [done|]. simpl.
  intros Hc. apply andb_true_iff in Hc as [Hc Hname]. by rewrite Hc, IH.
Qed.

Lemma filename_match_parameter (value : string) :
  filename_match ("attachment; filename=" +:+ value) = Some (value_group value).
Proof. reflexivity. Qed.

Lemma all_chars_impl (p q : ascii → bool) (s : string) :
  (∀ c, p c = true → q c = true) → all_chars p s = true → all_chars q s = true.
Proof.
  intros Hpq. induction s as [|c s IH]; [done|]. simpl.
  intros Hc. apply andb_true_iff in Hc as [Hc Hs]. by rewrite (Hpq c Hc), IH.
Qed.

Lemma has_quote_all_chars (s : string) :
  has_quote s = false → all_chars (λ c, negb (is_quote c)) s = true.
Proof.
  induction s as [|c s IH]; [done|]. simpl.
  destruct (is_quote c); [done|]. simpl. apply IH.
Qed.

End DownloadSwapFacts.

(** X17: a name sent between double quotes comes back as it was sent:
    for a name without quote characters and without line terminators,
    the header [attachment; filename=] followed by the quoted name and by
    anything gives this name, semicolons and equals signs in it
    included. *)
Theorem quoted_filename_round_trip `{Platform} (name rest : string) :
  Download.has_quote name = false →
  all_chars (λ c, negb (Download.line_terminator c)) name = true →
  Download.download_filename
    ("attachment; filename="
     +:+ String Download.dquote (name +:+ String Download.dquote rest))
  = Normal name.
Proof.
  intros Hq Hl. unfold Download.download_filename.
  rewrite DownloadSwapFacts.filename_match_parameter.
  assert (Download.value_group (String Download.dquote (name +:+ String Download.dquote rest))
          = String Download.dquote (name +:+ String Download.dquote "")) as ->.
  { unfold Download.value_group.
    assert (Download.is_quote Download.dquote = true) as -> by reflexivity.
    rewrite DownloadSwapFacts.quoted_body_closed; [done|].
    apply DownloadSwapFacts.has_quote_all_chars in Hq. revert Hq Hl.
    induction name as [|c name IH]; [done|]. simpl.
    intros Hq Hl. apply andb_true_iff in Hq as [Hq Hq'], Hl as [Hl Hl'].
    rewrite Hl, IH; [|done..]. unfold Download.is_quote in Hq.
    apply negb_true_iff, orb_false_iff in Hq as [_ Hq]. by rewrite Hq. }
  assert (Download.strip_quotes (String Download.dquote (name +:+ String Download.dquote ""))
          = name) as Hstrip.
  { assert (Download.strip_quotes (String Download.dquote (name +:+ String Download.dquote ""))
            = Download.strip_quotes (name +:+ String Download.dquote "")) as -> by reflexivity.
    rewrite DownloadSwapFacts.strip_quotes_app, DownloadSwapFacts.strip_quotes_plain; [|done].
    assert (Download.strip_quotes (String Download.dquote "") = "") as -> by reflexivity.
    apply DownloadSwapFacts.append_empty_r. }
  assert (truthy (String Download.dquote (name +:+ String Download.dquote "")) = true) as ->
    by reflexivity.
  cbv zeta. rewrite Hstrip. by rewrite DownloadSwapFacts.startsWith_plain.
Qed.

Lemma quoted_filename_round_trip_witness :
  Download.download_filename
    ("attachment; filename="
     +:+ String Download.dquote
           ("a;b=c.csv" +:+ String Download.dquote "; filename*=UTF-8''x.csv"))
  = Normal "a;b=c.csv".
Proof.
  apply (@quoted_filename_round_trip reference_platform "a;b=c.csv" "; filename*=UTF-8''x.csv");
    reflexivity.
Defined.

(** X18: a name sent without quotes is cut at the first semicolon: for
    a name that is not empty and has no quote character, no semicolon
    and no line feed, the header [attachment; filename=] followed by the
    name gives this name, and so does the header with a semicolon and
    anything after the name. *)
Theorem bare_filename_round_trip `{Platform} (name rest : string) :
  name ≠ "" →
  Download.has_quote name = false →
  all_chars Download.bare_value_char name = true →
  Download.download_filename ("attachment; filename=" +:+ name) = Normal name
  ∧ Download.download_filename ("attachment; filename=" +:+ name +:+ String ";" rest)
    = Normal name.
Proof.
  intros Hne Hq Hb.
  assert (∀ tail, Download.bare_value (name +:+ tail) = name →
            Download.download_filename ("attachment; filename=" +:+ name +:+ tail) = Normal name)
    as Hgen.
  { intros tail Hbare. unfold Download.download_filename.
    rewrite DownloadSwapFacts.filename_match_parameter.
    assert (Download.value_group (name +:+ tail) = name) as ->.
    { destruct name as [|c name]; [done|]. unfold Download.value_group. simpl.
      simpl in Hq. apply orb_false_iff in Hq as [Hc _]. by rewrite Hc. }
    apply truthy_true in Hne. rewrite Hne. cbv zeta.
    rewrite DownloadSwapFacts.strip_quotes_plain; [|done].
    by rewrite DownloadSwapFacts.startsWith_plain. }
  split.
  - specialize (Hgen ""). rewrite DownloadSwapFacts.append_empty_r in Hgen.
    apply Hgen. by apply DownloadSwapFacts.bare_value_end.
  - apply Hgen. by apply DownloadSwapFacts.bare_value_semicolon.
Qed.

Lemma bare_filename_round_trip_witness :
  Download.download_filename "attachment; filename=report 2024.csv; size=12"
  = Normal "report 2024.csv".
Proof.
  destruct (@bare_filename_round_trip reference_platform "report 2024.csv" " size=12")
    as [_ Hcut]; [discriminate|reflexivity|reflexivity|].
  exact Hcut.
Defined.

(** X19: a response the extension downloads is not swapped in: when
    [onload] takes the response of a request as a download,
    [htmx:beforeSwap] sets [shouldSwap] to false, whatever it was. *)
Theorem download_is_not_swapped `{Platform} (chain : list (option string)) (status : nat)
    (contentDisposition : option string) (shouldSwap : bool) (name : completion string) :
  fst (DownloadSwap.request_outcome chain status contentDisposition shouldSwap) = Some name →
  snd (DownloadSwap.request_outcome chain status contentDisposition shouldSwap) = false.
Proof.
  unfold DownloadSwap.request_outcome, Download.onload_filename, DownloadSwap.beforeSwap,
    DownloadSwap.is_attachment.
  destruct (DownloadSwap.beforeRequest chain true); cbn [fst snd]; [|done].
  destruct ((200 <=? status) && (status <? 300)); [|done].
  destruct contentDisposition as [cd|]; [|done].
  by destruct (truthy cd && bool_decide (String.index 0 "attachment" cd ≠ None)).
Qed.

Lemma download_is_not_swapped_witness :
  snd (DownloadSwap.request_outcome [None; Some "download"] 200
         (Some "attachment; filename=a.csv") true) = false.
Proof.
  apply (@download_is_not_swapped reference_platform [None; Some "download"] 200
           (Some "attachment; filename=a.csv") true (Normal "a.csv")).
  reflexivity.
Defined.

(** X20: an error response with an attachment header is lost: under an
    element with the extension, a response whose status is not between
    200 and 299 and whose [Content-Disposition] names an attachment is
    not downloaded by [onload] and not swapped in either, and
    [transformResponse] gives the empty text for it. *)
Theorem error_attachment_dropped `{Platform} (chain : list (option string)) (status : nat)
    (contentDisposition : option string) (shouldSwap : bool) (text : string) :
  DownloadSwap.hasDownloadExt chain = true →
  DownloadSwap.is_attachment contentDisposition = true →
  (status < 200 ∨ 300 ≤ status) →
  DownloadSwap.request_outcome chain status contentDisposition shouldSwap = (None, false)
  ∧ DownloadSwap.transformResponse text (Some (true, contentDisposition)) = Normal "".
Proof.
  intros Hext Hatt Hstatus.
  unfold DownloadSwap.request_outcome, DownloadSwap.beforeRequest, Download.onload_filename,
    DownloadSwap.beforeSwap.
  rewrite Hext, Hatt. cbn [andb].
  assert ((200 <=? status) && (status <? 300) = false) as ->; [|done].
  apply andb_false_iff. destruct Hstatus as [Hlow|Hhigh].
  - left. apply Nat.leb_gt. lia.
  - right. apply Nat.ltb_ge. lia.
Qed.

Lemma error_attachment_dropped_witness :
  DownloadSwap.request_outcome [Some "download"] 500
    (Some "attachment; filename=errors.csv") true = (None, false).
Proof.
  destruct (@error_attachment_dropped reference_platform [Some "download"] 500
              (Some "attachment; filename=errors.csv") true "text") as [Hout _].
  - reflexivity.
  - reflexivity.
  - right. lia.
  - exact Hout.
Defined.

(** ** The sidebar *)

Module SidebarFacts.
Import SidebarManager.

Lemma split_no_sep (sep : ascii) (s : string) :
  all_chars (λ c, negb (Ascii.eqb c sep)) s = true → split sep s = [s].
Proof.
  induction s as [|c s IH]; [done|]. simpl.
  intros Hc. apply andb_true_iff in Hc as [Hc Hs]. apply negb_true_iff in Hc.
  by rewrite Hc, IH.
Qed.

Lemma split_at_sep (sep : ascii) (s rest : string) :
  all_chars (λ c, negb (Ascii.eqb c sep)) s = true →
  split sep (s +:+ String sep rest) = s :: split sep rest.
Proof.
  induction s as [|c s IH]; simpl.
  - by rewrite Ascii.eqb_refl.
  - intros Hc. apply andb_true_iff in Hc as [Hc Hs]. apply negb_true_iff in Hc.
    by rewrite Hc, IH.
Qed.

Lemma split_pieces (sep : ascii) (s : string) :
  Forall (λ piece, all_chars (λ c, negb (Ascii.eqb c sep)) piece = true) (split sep s).
Proof.
  induction s as [|c s IH]; simpl; [by repeat constructor|].
  destruct (Ascii.eqb c sep) eqn:Hc; [by constructor|].
  destruct (split sep s) as [|piece pieces].
  - repeat constructor. simpl. by rewrite Hc.
  - apply Forall_cons in IH as [Hp Hps]. constructor; [|done]. simpl. by rewrite Hc.
Qed.

Lemma getSectionFromAppLabel_truthy (mapping : list (string * jsval)) (appLabel : string) :
  Forall (λ entry, truthy (fst entry) = true) mapping →
  truthy (getSectionFromAppLabel mapping appLabel) = true.
Proof.
  induction 1 as [|[section apps] mapping Hs Hm IH]; [done|]. simpl.
  by destruct (apps_include apps appLabel).
Qed.

Lemma or_else_truthy (a b : option string) (x : string) :
  or_else a b = Some x → (∀ y, b = Some y → truthy y = true) → truthy x = true.
Proof.
  unfold or_else. destruct a as [y|]; [destruct (truthy y) eqn:Hy|]; intros Hx Hb.
  - by simplify_eq.
  - by apply Hb.
  - by apply Hb.
Qed.

Lemma linkKey_not_global (sectionId : string) : linkKey sectionId ≠ "activeSidebarLinkId".
Proof.
  unfold linkKey. intros Heq. cbn in Heq. discriminate.
Qed.

Lemma linkKey_inj (s s' : string) : linkKey s = linkKey s' → s = s'.
Proof. unfold linkKey. intros Heq. cbn in Heq. by simplify_eq. Qed.

End SidebarFacts.

(** X21: [getAppLabelFromUrl] never gives the empty string and never
    a string with a slash in it. *)
Theorem getAppLabelFromUrl_is_a_label (pathname : string) :
  truthy (SidebarManager.getAppLabelFromUrl pathname) = true
  ∧ all_chars (λ c, negb (Ascii.eqb c "/")) (SidebarManager.getAppLabelFromUrl pathname) = true.
Proof.
  unfold SidebarManager.getAppLabelFromUrl.
  pose proof (SidebarFacts.split_pieces "/" pathname) as Hpieces.
  destruct (List.filter _ (split "/" pathname)) as [|part parts] eqn:Hf; [done|].
  assert (part ∈ List.filter (λ part, negb (Nat.eqb (String.length part) 0)) (split "/" pathname))
    as Hin by (rewrite Hf; by left).
  apply list_elem_of_In, filter_In in Hin as [Hin Hlen].
  apply list_elem_of_In in Hin. rewrite Forall_forall in Hpieces.
  destruct part as [|c part]; [done|]. simpl. split; [done|]. by apply (Hpieces _ Hin).
Qed.

(** X22: the application label is the first segment of the path: for a
    label that is not empty and has no slash, the path made of a slash,
    the label, a slash and anything gives the label, also after more
    than one leading slash; the paths without a segment give
    [horilla_core]. *)
Theorem getAppLabelFromUrl_first_segment (label rest : string) :
  label ≠ "" →
  all_chars (λ c, negb (Ascii.eqb c "/")) label = true →
  SidebarManager.getAppLabelFromUrl ("/" +:+ label +:+ String "/" rest) = label
  ∧ SidebarManager.getAppLabelFromUrl ("//" +:+ label +:+ String "/" rest) = label
  ∧ SidebarManager.getAppLabelFromUrl ("/" +:+ label) = label
  ∧ SidebarManager.getAppLabelFromUrl "/" = "horilla_core"
  ∧ SidebarManager.getAppLabelFromUrl "" = "horilla_core".
Proof.
  intros Hne Hl.
  assert (negb (Nat.eqb (String.length label) 0) = true) as Hlen by by destruct label.
  assert (truthy label = true) as Ht by by apply truthy_true.
  unfold SidebarManager.getAppLabelFromUrl.
  repeat split; try reflexivity.
  - change (split "/" ("/" +:+ label +:+ String "/" rest))
      with ("" :: split "/" (label +:+ String "/" rest)).
    rewrite SidebarFacts.split_at_sep; [|done]. simpl. by rewrite Hlen, Ht.
  - change (split "/" ("//" +:+ label +:+ String "/" rest))
      with ("" :: "" :: split "/" (label +:+ String "/" rest)).
    rewrite SidebarFacts.split_at_sep; [|done]. simpl. by rewrite Hlen, Ht.
  - change (split "/" ("/" +:+ label)) with ("" :: split "/" label).
    rewrite SidebarFacts.split_no_sep; [|done]. simpl. by rewrite Hlen, Ht.
Qed.

Lemma getAppLabelFromUrl_first_segment_witness :
  SidebarManager.getAppLabelFromUrl "/crm/leads/list/" = "crm".
Proof.
  destruct (getAppLabelFromUrl_first_segment "crm" "leads/list/") as [Hfirst _];
    [discriminate|reflexivity|].
  exact Hfirst.
Defined.

(** X23: [getActiveSection] never gives the empty string. *)
Theorem getActiveSection_not_empty (sectionFromUrl : option string) (pathname : string)
    (mapping : list (string * jsval)) (localStorage : gmap string string) :
  truthy (SidebarManager.getActiveSection sectionFromUrl pathname mapping localStorage) = true.
Proof.
  unfold SidebarManager.getActiveSection.
  set (fallback := SidebarManager.or_else _ (Some "home")).
  assert (truthy (default "home" fallback) = true) as Hfb.
  { destruct fallback as [x|] eqn:Hx; [|done]. simpl.
    apply (SidebarFacts.or_else_truthy _ _ _ Hx). intros y Hy. by simplify_eq. }
  destruct sectionFromUrl as [s|]; [|done]. by destruct (truthy s) eqn:Hs.
Qed.

(** X24: when no section of [APP_SECTION_MAPPING] is named by the
    empty string, [getActiveSection] does not depend on local
    storage: the entry [currentActiveSection] that [setActiveNavLink]
    writes is never what decides, since [getSectionFromAppLabel] gives
    a section of the mapping or [home]. *)
Theorem getActiveSection_ignores_storage (sectionFromUrl : option string) (pathname : string)
    (mapping : list (string * jsval)) (localStorage localStorage' : gmap string string) :
  Forall (λ entry, truthy (fst entry) = true) mapping →
  SidebarManager.getActiveSection sectionFromUrl pathname mapping localStorage
  = SidebarManager.getActiveSection sectionFromUrl pathname mapping localStorage'.
Proof.
  intros Hm. unfold SidebarManager.getActiveSection.
  pose proof (SidebarFacts.getSectionFromAppLabel_truthy mapping
                (SidebarManager.getAppLabelFromUrl pathname) Hm) as Ht.
  unfold SidebarManager.or_else at 2 4 6 8. by rewrite Ht.
Qed.

Lemma getActiveSection_ignores_storage_witness :
  SidebarManager.getActiveSection None "/crm/leads/"
    [("sales", JArr [JStr "crm"; JStr "forecast"])] ∅
  = SidebarManager.getActiveSection None "/crm/leads/"
      [("sales", JArr [JStr "crm"; JStr "forecast"])] {["currentActiveSection" := "settings"]}.
Proof.
  apply getActiveSection_ignores_storage. repeat constructor.
Defined.

(** X25: what [setActiveSubsectionLink] stores for a section is what
    [getSectionSpecificSubsectionId] gives for it afterwards; and a
    section that has no entry of its own is given this same link, the
    last one clicked in any section. *)
Theorem subsection_link_round_trip (linkId sectionId other : string)
    (localStorage : gmap string string) :
  truthy linkId = true →
  truthy sectionId = true →
  SidebarManager.getSectionSpecificSubsectionId sectionId
    (SidebarManager.setActiveSubsectionLink (Some linkId) sectionId localStorage)
  = Some linkId
  ∧ (other ≠ sectionId →
     localStorage !! SidebarManager.linkKey other = None →
     SidebarManager.getSectionSpecificSubsectionId other
       (SidebarManager.setActiveSubsectionLink (Some linkId) sectionId localStorage)
     = Some linkId).
Proof.
  intros Hl Hs.
  unfold SidebarManager.getSectionSpecificSubsectionId, SidebarManager.setActiveSubsectionLink.
  rewrite Hl, Hs. simpl.
  assert (∀ x, "sidebarClicked" ≠ SidebarManager.linkKey x) as Hclicked.
  { intros x Heq. unfold SidebarManager.linkKey in Heq. discriminate. }
  assert ("sidebarClicked" ≠ "activeSidebarLinkId") as Hglobal by discriminate.
  split.
  - rewrite lookup_insert_ne; [|done].
    rewrite lookup_insert_ne; [|by intros Heq; apply (SidebarFacts.linkKey_not_global sectionId)].
    rewrite lookup_insert_eq. unfold SidebarManager.or_else. by rewrite Hl.
  - intros Hother Hnone.
    rewrite (lookup_insert_ne _ "sidebarClicked" (SidebarManager.linkKey other)); [|done].
    rewrite (lookup_insert_ne _ "activeSidebarLinkId" (SidebarManager.linkKey other));
      [|by intros Heq; apply (SidebarFacts.linkKey_not_global other)].
    rewrite lookup_insert_ne; [|by intros Heq; apply SidebarFacts.linkKey_inj in Heq].
    rewrite Hnone. unfold SidebarManager.or_else.
    rewrite lookup_insert_ne; [|done]. by rewrite lookup_insert_eq.
Qed.

Lemma subsection_link_round_trip_witness :
  SidebarManager.getSectionSpecificSubsectionId "sales"
    (SidebarManager.setActiveSubsectionLink (Some "leads") "sales" ∅)
  = Some "leads".
Proof.
  destruct (subsection_link_round_trip "leads" "sales" "home" ∅ eq_refl eq_refl) as [Hown _].
  exact Hown.
Defined.

(** X26: [setActiveNavLink] for [home] forgets the active link of the
    sidebar: afterwards [getSectionSpecificSubsectionId] gives nothing
    for [home], and for every section only the entry of its own.  For
    another section [setActiveNavLink] leaves what
    [getSectionSpecificSubsectionId] gives as it was. *)
Theorem setActiveNavLink_home_forgets (sectionId other : string)
    (localStorage : gmap string string) :
  SidebarManager.getSectionSpecificSubsectionId "home"
    (SidebarManager.setActiveNavLink "home" localStorage) = None
  ∧ SidebarManager.getSectionSpecificSubsectionId other
      (SidebarManager.setActiveNavLink "home" localStorage)
    = match (if String.eqb other "home" then None
             else localStorage !! SidebarManager.linkKey other) with
      | Some x => if truthy x then Some x else None
      | None => None
      end
  ∧ (sectionId ≠ "home" →
     SidebarManager.getSectionSpecificSubsectionId other
       (SidebarManager.setActiveNavLink sectionId localStorage)
     = SidebarManager.getSectionSpecificSubsectionId other localStorage).
Proof.
  assert (∀ x, "sidebarClicked" ≠ SidebarManager.linkKey x) as Hclicked.
  { intros x Heq. unfold SidebarManager.linkKey in Heq. discriminate. }
  assert (∀ x, "currentActiveSection" ≠ SidebarManager.linkKey x) as Hcurrent.
  { intros x Heq. unfold SidebarManager.linkKey in Heq. discriminate. }
  assert (∀ x, "activeNavLinkId" ≠ SidebarManager.linkKey x) as Hnav.
  { intros x Heq. unfold SidebarManager.linkKey in Heq. discriminate. }
  assert (∀ x, "activeSidebarLinkId" ≠ SidebarManager.linkKey x) as Hglobal.
  { intros x Heq. by apply (SidebarFacts.linkKey_not_global x). }
  assert (SidebarManager.linkKey "home" = "activeSidebarLinkId_home") as Hhome by reflexivity.
  unfold SidebarManager.getSectionSpecificSubsectionId.
  split; [|split].
  - unfold SidebarManager.setActiveNavLink. simpl. rewrite Hhome.
    rewrite lookup_delete_eq. unfold SidebarManager.or_else.
    rewrite lookup_delete_ne; [|discriminate]. by rewrite lookup_delete_eq.
  - unfold SidebarManager.setActiveNavLink. simpl.
    assert (∀ m : gmap string string,
              delete "activeSidebarLinkId_home" (delete "activeSidebarLinkId" m)
                !! "activeSidebarLinkId" = None) as Hno.
    { intros m. rewrite lookup_delete_ne; [|discriminate]. by rewrite lookup_delete_eq. }
    rewrite Hno. destruct (String.eqb other "home") eqn:Ho.
    + apply String.eqb_eq in Ho as ->. rewrite Hhome. by rewrite lookup_delete_eq.
    + apply String.eqb_neq in Ho.
      rewrite lookup_delete_ne;
        [|by rewrite <- Hhome; intros Heq; apply SidebarFacts.linkKey_inj in Heq].
      rewrite lookup_delete_ne by apply Hglobal.
      rewrite !lookup_insert_ne by first [apply Hcurrent|apply Hnav|apply Hclicked].
      unfold SidebarManager.or_else.
      destruct (localStorage !! SidebarManager.linkKey other) as [x|]; [|done].
      by destruct (truthy x).
  - intros Hs. unfold SidebarManager.setActiveNavLink.
    apply String.eqb_neq in Hs. rewrite Hs.
    by rewrite !lookup_insert_ne by first [apply Hcurrent|apply Hnav|discriminate].
Qed.

Lemma setActiveNavLink_home_forgets_witness :
  SidebarManager.getSectionSpecificSubsectionId "sales"
    (SidebarManager.setActiveNavLink "settings"
       (SidebarManager.setActiveSubsectionLink (Some "leads") "sales" ∅))
  = SidebarManager.getSectionSpecificSubsectionId "sales"
      (SidebarManager.setActiveSubsectionLink (Some "leads") "sales" ∅).
Proof.
  destruct (setActiveNavLink_home_forgets "settings" "sales"
              (SidebarManager.setActiveSubsectionLink (Some "leads") "sales" ∅))
    as (_ & _ & Hother).
  apply Hother. discriminate.
Defined.

(** ** The columns of the kanban board *)

Section KanbanFacts.
Context {Node : Type} `{EqDecision Node}.

Lemma index_not_elem (children : list Node) (x : Node) :
  x ∉ children → index children x = (-1)%Z.
Proof.
  induction children as [|y children IH]; [done|]. intros Hx.
  apply not_elem_of_cons in Hx as [Hxy Hx]. simpl.
  destruct (decide (y = x)) as [->|_]; [done|]. by rewrite (IH Hx).
Qed.

Lemma index_first (before after : list Node) (x : Node) :
  x ∉ before → index (before ++ x :: after) x = Z.of_nat (length before).
Proof.
  induction before as [|y before IH]; intros Hx; simpl.
  - by destruct (decide (x = x)).
  - apply not_elem_of_cons in Hx as [Hxy Hx].
    destruct (decide (y = x)) as [->|_]; [done|]. rewrite (IH Hx).
    destruct (Z.ltb_spec (Z.of_nat (length before)) 0); lia.
Qed.

Lemma detach_not_elem (x : Node) (children : list Node) :
  x ∉ children → detach x children = children.
Proof.
  intros Hx. unfold detach. apply List_filter_all, Forall_forall.
  intros y Hy. apply negb_true_iff, bool_decide_eq_false. by intros ->.
Qed.

Lemma detach_app (x : Node) (l1 l2 : list Node) :
  detach x (l1 ++ l2) = detach x l1 ++ detach x l2.
Proof. apply List.filter_app. Qed.

Lemma detach_cons_eq (x : Node) (l : list Node) : detach x (x :: l) = detach x l.
Proof. unfold detach. simpl. by rewrite bool_decide_eq_true_2. Qed.

Lemma detach_cons_ne (x y : Node) (l : list Node) :
  y ≠ x → detach x (y :: l) = y :: detach x l.
Proof. intros Hy. unfold detach. simpl. by rewrite bool_decide_eq_false_2. Qed.

Lemma place_after_first (x block : Node) (before after : list Node) :
  block ∉ before →
  place_after x block (before ++ block :: after) = before ++ block :: x :: after.
Proof.
  induction before as [|y before IH]; intros Hb; simpl.
  - by destruct (decide (block = block)).
  - apply not_elem_of_cons in Hb as [Hby Hb].
    destruct (decide (y = block)) as [->|_]; [done|]. by rewrite (IH Hb).
Qed.

Lemma place_before_first (x block : Node) (before after : list Node) :
  block ∉ before →
  place_before x block (before ++ block :: after) = before ++ x :: block :: after.
Proof.
  induction before as [|y before IH]; intros Hb; simpl.
  - by destruct (decide (block = block)).
  - apply not_elem_of_cons in Hb as [Hby Hb].
    destruct (decide (y = block)) as [->|_]; [done|]. by rewrite (IH Hb).
Qed.

(** A column dragged onto a block that stands after it. *)
Lemma block_drop_forward (dragged block : Node) (l1 l2 l3 : list Node) :
  NoDup (l1 ++ dragged :: l2 ++ block :: l3) →
  block_drop (Some dragged) block (l1 ++ dragged :: l2 ++ block :: l3)
  = l1 ++ l2 ++ block :: dragged :: l3.
Proof.
  intros Hnd.
  apply NoDup_app in Hnd as (Hnd1 & Hdis1 & Hnd).
  apply NoDup_cons in Hnd as [Hd Hnd].
  apply NoDup_app in Hnd as (Hnd2 & Hdis2 & Hnd).
  apply NoDup_cons in Hnd as [Hb3 Hnd3].
  assert (dragged ∉ l1) as Hd1.
  { intros Hin. apply (Hdis1 _ Hin). by left. }
  assert (block ∉ l1) as Hb1.
  { intros Hin. apply (Hdis1 _ Hin). right. apply elem_of_app. right. by left. }
  assert (block ∉ l2) as Hb2.
  { intros Hin. apply (Hdis2 _ Hin). by left. }
  assert (dragged ≠ block) as Hne.
  { intros ->. apply Hd, elem_of_app. right. by left. }
  assert ((dragged ∉ l2) ∧ (dragged ∉ l3)) as [Hd2 Hd3].
  { split; intros Hin; apply Hd, elem_of_app; [by left|right; by right]. }
  unfold block_drop. destruct (decide (dragged = block)) as [|_]; [done|].
  rewrite (index_first l1 _ dragged Hd1).
  assert (l1 ++ dragged :: l2 ++ block :: l3 = (l1 ++ dragged :: l2) ++ block :: l3) as Hsplit
    by (rewrite <- app_assoc; reflexivity).
  rewrite Hsplit at 1. rewrite index_first.
  2:{ rewrite elem_of_app, elem_of_cons. intros [?|[?|?]]; done. }
  rewrite length_app. simpl.
  destruct (Z.ltb_spec (Z.of_nat (length l1)) (Z.of_nat (length l1 + S (length l2)))); [|lia].
  unfold insertAfter.
  rewrite detach_app, detach_cons_eq, detach_app, (detach_cons_ne _ _ _ (not_eq_sym Hne)).
  rewrite !detach_not_elem by done.
  rewrite app_assoc, place_after_first; [by rewrite <- app_assoc|].
  rewrite elem_of_app. intros [?|?]; done.
Qed.

(** A column dragged onto a block that stands before it. *)
Lemma block_drop_backward (dragged block : Node) (l1 l2 l3 : list Node) :
  NoDup (l1 ++ block :: l2 ++ dragged :: l3) →
  block_drop (Some dragged) block (l1 ++ block :: l2 ++ dragged :: l3)
  = l1 ++ dragged :: block :: l2 ++ l3.
Proof.
  intros Hnd.
  apply NoDup_app in Hnd as (Hnd1 & Hdis1 & Hnd).
  apply NoDup_cons in Hnd as [Hb Hnd].
  apply NoDup_app in Hnd as (Hnd2 & Hdis2 & Hnd).
  apply NoDup_cons in Hnd as [Hd3 Hnd3].
  assert (block ∉ l1) as Hb1.
  { intros Hin. apply (Hdis1 _ Hin). by left. }
  assert (dragged ∉ l1) as Hd1.
  { intros Hin. apply (Hdis1 _ Hin). right. apply elem_of_app. right. by left. }
  assert (dragged ∉ l2) as Hd2.
  { intros Hin. apply (Hdis2 _ Hin). by left. }
  assert (dragged ≠ block) as Hne.
  { intros ->. apply Hb, elem_of_app. right. by left. }
  unfold block_drop. destruct (decide (dragged = block)) as [|_]; [done|].
  rewrite (index_first l1 _ block Hb1).
  assert (l1 ++ block :: l2 ++ dragged :: l3 = (l1 ++ block :: l2) ++ dragged :: l3) as Hsplit
    by (rewrite <- app_assoc; reflexivity).
  rewrite Hsplit at 1. rewrite index_first.
  2:{ rewrite elem_of_app, elem_of_cons. intros [?|[?|?]]; done. }
  rewrite length_app. simpl.
  destruct (Z.ltb_spec (Z.of_nat (length l1 + S (length l2))) (Z.of_nat (length l1))); [lia|].
  unfold insertBefore.
  rewrite detach_app, (detach_cons_ne _ _ _ (not_eq_sym Hne)), detach_app, detach_cons_eq.
  rewrite !detach_not_elem by done.
  by rewrite place_before_first.
Qed.

End KanbanFacts.

(** X27: the [drop] handler of a kanban block moves the dragged column
    next to the block and nothing else: a column that stood before the
    block is put right after it, a column that stood after the block
    right before it, and the other children of the parent keep their
    places among themselves. *)
Theorem block_drop_moves_next_to_block {Node : Type} `{EqDecision Node}
    (dragged block : Node) (l1 l2 l3 : list Node) :
  (NoDup (l1 ++ dragged :: l2 ++ block :: l3) →
   block_drop (Some dragged) block (l1 ++ dragged :: l2 ++ block :: l3)
   = l1 ++ l2 ++ block :: dragged :: l3)
  ∧ (NoDup (l1 ++ block :: l2 ++ dragged :: l3) →
     block_drop (Some dragged) block (l1 ++ block :: l2 ++ dragged :: l3)
     = l1 ++ dragged :: block :: l2 ++ l3).
Proof. split; [apply block_drop_forward|apply block_drop_backward]. Qed.

Lemma block_drop_moves_next_to_block_witness :
  block_drop (Some "new") "done" ["new"; "open"; "done"; "closed"]
  = ["open"; "done"; "new"; "closed"]
  ∧ block_drop (Some "closed") "open" ["new"; "open"; "done"; "closed"]
    = ["new"; "closed"; "open"; "done"].
Proof.
  split.
  - apply (proj1 (block_drop_moves_next_to_block "new" "done" [] ["open"] ["closed"])).
    apply (bool_decide_unpack _). vm_compute. exact I.
  - apply (proj2 (block_drop_moves_next_to_block "closed" "open" ["new"] ["done"] [])).
    apply (bool_decide_unpack _). vm_compute. exact I.
Defined.

(** X28: the [drop] handler of a kanban block is not idempotent: a
    second drop of the same column on the same block puts the column
    on the other side of the block. *)
Theorem block_drop_twice {Node : Type} `{EqDecision Node}
    (dragged block : Node) (l1 l2 l3 : list Node) :
  NoDup (l1 ++ dragged :: l2 ++ block :: l3) →
  block_drop (Some dragged) block
    (block_drop (Some dragged) block (l1 ++ dragged :: l2 ++ block :: l3))
  = l1 ++ l2 ++ dragged :: block :: l3.
Proof.
  intros Hnd. rewrite (block_drop_forward _ _ _ _ _ Hnd).
  assert (l1 ++ l2 ++ block :: dragged :: l3 = (l1 ++ l2) ++ block :: [] ++ dragged :: l3)
    as -> by (rewrite <- app_assoc; reflexivity).
  rewrite block_drop_backward; [by rewrite <- app_assoc|].
  rewrite <- app_assoc. simpl.
  apply NoDup_app in Hnd as (Hnd1 & Hdis1 & Hnd).
  apply NoDup_cons in Hnd as [Hd Hnd].
  apply NoDup_app in Hnd as (Hnd2 & Hdis2 & Hnd).
  apply NoDup_cons in Hnd as [Hb3 Hnd3].
  apply NoDup_app. split; [done|]. split.
  - intros x Hx Hin. apply (Hdis1 x Hx). rewrite elem_of_cons, elem_of_app, elem_of_cons.
    rewrite elem_of_app, !elem_of_cons in Hin. destruct Hin as [?|[?|[?|?]]]; eauto.
  - apply NoDup_app. split; [done|]. split.
    + intros x Hx Hin. rewrite !elem_of_cons in Hin. destruct Hin as [->|[->|Hin]].
      * by apply (Hdis2 block Hx); left.
      * apply Hd, elem_of_app. by left.
      * apply (Hdis2 x Hx). by right.
    + apply NoDup_cons. split.
      * rewrite elem_of_cons. intros [->|Hin]; [|done].
        apply Hd, elem_of_app. right. by left.
      * apply NoDup_cons. split; [|done]. intros Hin. apply Hd, elem_of_app. right. by right.
Qed.

Lemma block_drop_twice_witness :
  block_drop (Some "new") "done"
    (block_drop (Some "new") "done" ["new"; "open"; "done"; "closed"])
  = ["open"; "new"; "done"; "closed"].
Proof.
  apply (block_drop_twice "new" "done" [] ["open"] ["closed"]).
  apply (bool_decide_unpack _). vm_compute. exact I.
Defined.

(** X29: [drop] reads the text of a drag back: what [columnDragStart]
    wrote gives the column key it was written from, whatever the key;
    the [id] of a dragged item gives as item id the text between its
    first and its second dash, and an item whose [id] starts with
    [column-] is taken for a column. *)
Theorem drop_reads_drag_text (columnKey before itemId rest : string) :
  all_chars (λ c, negb (Ascii.eqb c "-")) before = true →
  all_chars (λ c, negb (Ascii.eqb c "-")) itemId = true →
  before ≠ "column" →
  drop_reads (columnDragStart_text columnKey) = DraggedColumn columnKey
  ∧ drop_reads (before +:+ String "-" itemId) = DraggedItem (Some itemId)
  ∧ drop_reads (before +:+ String "-" (itemId +:+ String "-" rest)) = DraggedItem (Some itemId)
  ∧ drop_reads before = DraggedItem None.
Proof.
  intros Hb Hi Hne.
  assert (∀ tail, Download.startsWith (before +:+ String "-" tail) "column-" = false) as Hstart.
  { intros tail. unfold Download.startsWith.
    destruct before as [|c0 [|c1 [|c2 [|c3 [|c4 [|c5 [|c6 r]]]]]]]; simpl in *;
      repeat (case_match; simplify_eq/=; try done).
    all: repeat match goal with
         | Heq : Ascii.eqb _ _ = true |- _ => apply Ascii.eqb_eq in Heq; subst
         end; simplify_eq/=; try done. }
  assert (Download.startsWith before "column-" = false) as Hstart'.
  { unfold Download.startsWith.
    destruct before as [|c0 [|c1 [|c2 [|c3 [|c4 [|c5 [|c6 r]]]]]]]; simpl in *;
      repeat (case_match; simplify_eq/=; try done).
    all: repeat match goal with
         | Heq : Ascii.eqb _ _ = true |- _ => apply Ascii.eqb_eq in Heq; subst
         end; simplify_eq/=; try done. }
  split; [|split; [|split]].
  - unfold drop_reads, columnDragStart_text, Download.startsWith.
    rewrite after_prefix_app. by rewrite replace_first_prefix.
  - unfold drop_reads. rewrite Hstart.
    rewrite SidebarFacts.split_at_sep, SidebarFacts.split_no_sep; done.
  - unfold drop_reads. rewrite Hstart.
    rewrite SidebarFacts.split_at_sep, SidebarFacts.split_at_sep; done.
  - unfold drop_reads. rewrite Hstart'. by rewrite SidebarFacts.split_no_sep.
Qed.

Lemma drop_reads_drag_text_witness :
  drop_reads (columnDragStart_text "in-progress") = DraggedColumn "in-progress"
  ∧ drop_reads "item-12-34" = DraggedItem (Some "12").
Proof.
  destruct (drop_reads_drag_text "in-progress" "item" "12" "34")
    as (Hcolumn & _ & Hitem & _); [reflexivity|reflexivity|discriminate|].
  split; [exact Hcolumn|exact Hitem].
Defined.
